(** * carbon-feed-hub: a shallow embedding of the reliable-delivery core

    The development follows the layout of the repository:
    - [Js]                 : completions, exceptions and the state-passing
                             monad in which the TypeScript functions are
                             written;
    - [Json]               : the values of [JSON.parse] and the operations
                             the program applies to them;
    - [Messages]           : src/lib/messages.ts (envelope model, factories);
    - [Topology]           : the exchange, queue and routing-key tables;
    - [Broker], [Amqp]     : the publishing and the consuming side of an
                             amqplib channel, as logs of the calls made;
    - [Http]               : the responses of [fetch];
    - [CarbonIngester]     : src/ingesters/carbon.ts;
    - [WeatherIngester]    : the weather ingester;
    - [Connection]         : the connection manager;
    - [LoggerConsumer], [AggregatorConsumer] : the two consumers;
    - [Examples]           : concrete inputs, taken from the repository's
                             testing notes where it gives some;
    - [Wire], [CarbonRuns], [WeatherRuns], [ManagerInvariant], [Serialised]
                           : the predicates in which the properties of whole
                             runs are stated;
    - [TopologySetup]      : [setupTopology];
    - [Singleton]          : [getConnectionManager].
    The properties follow the model, grouped by component.

    Conventions.  A JavaScript [number] that counts or measures
    milliseconds is a [Z]; a payload reading is a [Q].  The responses of the
    sources are parsed JSON under a type cast: a field that the program only
    copies or interpolates has its declared type here, while the percentage
    of a generation-mix entry, on which the ingester and both consumers call
    a number method, is kept as the parsed value.  A module-level [let]
    variable is a field of the module's [State] record.  Every call into the
    outside world (HTTP, the clock, [randomUUID], the broker) takes its
    answer from an environment argument, and what the program does to the
    outside world is recorded in the state (publish log, signals, console
    lines, trace of effects).  An [async] function is run to its end in one
    piece: other callbacks interleave only where a definition says so. *)

From Stdlib Require Import ZArith QArith Qround String List Bool Lia.
Import ListNotations.

Set Warnings "-register-all".

Local Open Scope string_scope.
Local Open Scope list_scope.
Local Open Scope Z_scope.

(* ====================================================================== *)
(** ** JavaScript control flow *)
(* ====================================================================== *)

Module Js.

(** The classes of the error objects that occur: the built-in ones and
    the [RateLimitError] of the weather ingester. *)
Inductive ErrorClass : Type :=
| ClassError
| ClassTypeError
| ClassSyntaxError
| ClassRangeError
| ClassRateLimitError.

(** A thrown error object: the class it was constructed from and its
    [message]. *)
Record Error : Type := mkError { class : ErrorClass; message : string }.

Definition newError (msg : string) : Error := mkError ClassError msg.
Definition TypeError (msg : string) : Error := mkError ClassTypeError msg.
Definition SyntaxError (msg : string) : Error := mkError ClassSyntaxError msg.

(** How a statement or call completes. *)
Inductive Completion (A : Type) : Type :=
| Normal (a : A)
| Throw (e : Error).
Arguments Normal {A} a.
Arguments Throw {A} e.

(** A computation over a store [S].  A throw keeps the store as it was at
    the point of the throw: JavaScript does not roll anything back. *)
Definition M (S A : Type) : Type := S -> Completion A * S.

Definition ret {S A} (a : A) : M S A := fun s => (Normal a, s).

Definition bind {S A B} (c : M S A) (k : A -> M S B) : M S B :=
  fun s =>
    match c s with
    | (Normal a, s') => k a s'
    | (Throw e, s') => (Throw e, s')
    end.

Definition throw {S A} (e : Error) : M S A := fun s => (Throw e, s).

Definition get {S} : M S S := fun s => (Normal s, s).
Definition gets {S A} (f : S -> A) : M S A := fun s => (Normal (f s), s).
Definition modify {S} (f : S -> S) : M S unit := fun s => (Normal tt, f s).

(** [try { body } catch (error) { handler }]. *)
Definition try_catch {S A} (body : M S A) (handler : Error -> M S A) : M S A :=
  fun s =>
    match body s with
    | (Normal a, s') => (Normal a, s')
    | (Throw e, s') => handler e s'
    end.

(** Lifting a pure completion. *)
Definition lift {S A} (c : Completion A) : M S A := fun s => (c, s).

Definition isThrow {A} (c : Completion A) : bool :=
  match c with Throw _ => true | Normal _ => false end.

(** A computation that completes as [r] and whose only change to the store
    is to add the lines [ls] to a log, whatever the store. *)
Definition writes {S L A} (logs : list L -> S -> S) (c : M S A)
           (r : Completion A) (ls : list L) : Prop :=
  forall s, c s = (r, logs ls s).

(** Sequencing of expressions that may throw and touch no store. *)
Definition andThen {A B} (c : Completion A) (k : A -> Completion B)
  : Completion B :=
  match c with
  | Normal a => k a
  | Throw e => Throw e
  end.

End Js.

Declare Scope js_scope.
Delimit Scope js_scope with js.
Notation "x <- c ;; k" := (Js.bind c (fun x => k))
  (at level 61, c at next level, right associativity) : js_scope.
Notation "c ;;; k" := (Js.bind c (fun _ => k))
  (at level 61, right associativity) : js_scope.

Declare Scope expr_scope.
Delimit Scope expr_scope with expr.
Notation "x <- c ;; k" := (Js.andThen c (fun x => k))
  (at level 61, c at next level, right associativity) : expr_scope.
Notation "c ;;; k" := (Js.andThen c (fun _ => k))
  (at level 61, right associativity) : expr_scope.

(* ====================================================================== *)
(** ** Values produced by [JSON.parse] and the operations the program
       applies to them *)
(* ====================================================================== *)

Module Json.

Inductive Value : Type :=
| Null
| Bool (b : bool)
| Number (q : Q)
| Str (s : string)
| Array (items : list Value)
| Object (members : list (string * Value)).

(** A JavaScript value read out of parsed JSON: [None] is [undefined]. *)
Definition JsVal : Type := option Value.

(** The byte content of a delivery, given by what
    [JSON.parse(msg.content.toString())] does with it. *)
Inductive Content : Type :=
| Unparseable (e : Js.Error)
| Parses (v : Value).

Definition JSON_parse (c : Content) : Js.Completion Value :=
  match c with
  | Unparseable e => Js.Throw e
  | Parses v => Js.Normal v
  end.

(** Own property of a parsed object; of duplicate keys the last one wins. *)
Fixpoint member (k : string) (ms : list (string * Value)) : JsVal :=
  match ms with
  | [] => None
  | (k', v) :: ms' =>
      match member k ms' with
      | Some v' => Some v'
      | None => if String.eqb k k' then Some v else None
      end
  end.

(** [v.k] for the property names the consumers read (none of them is
    defined on a built-in prototype). *)
Definition get (v : JsVal) (k : string) : Js.Completion JsVal :=
  match v with
  | None =>
      Js.Throw (Js.TypeError "Cannot read properties of undefined")
  | Some Null =>
      Js.Throw (Js.TypeError "Cannot read properties of null")
  | Some (Object ms) => Js.Normal (member k ms)
  | Some _ => Js.Normal None
  end.

(** Whether conversion to a string succeeds.  A parsed object converts
    through [Object.prototype.toString] unless it has an own (hence not
    callable) [toString]; an array converts its elements. *)
Fixpoint canToString (v : Value) : bool :=
  match v with
  | Object ms => negb (existsb (fun kv => String.eqb (fst kv) "toString") ms)
  | Array items => forallb canToString items
  | _ => true
  end.

(** [`${v}`] *)
Definition interpolate (v : JsVal) : Js.Completion unit :=
  match v with
  | Some x =>
      if canToString x then Js.Normal tt
      else Js.Throw (Js.TypeError "Cannot convert object to primitive value")
  | None => Js.Normal tt
  end.

(** [v ?? 'pending'] *)
Definition orPending (v : JsVal) : JsVal :=
  match v with
  | None | Some Null => Some (Str "pending")
  | Some x => Some x
  end.

(** [v.toFixed(1)]: only a number has the method. *)
Definition toFixed (v : JsVal) : Js.Completion Q :=
  match v with
  | None => Js.Throw (Js.TypeError "Cannot read properties of undefined")
  | Some Null => Js.Throw (Js.TypeError "Cannot read properties of null")
  | Some (Number q) => Js.Normal q
  | Some _ => Js.Throw (Js.TypeError "toFixed is not a function")
  end.

(** [v === s] for a string constant [s]. *)
Definition strictEquals (v : JsVal) (s : string) : bool :=
  match v with
  | Some (Str x) => String.eqb x s
  | _ => false
  end.

(** [xs.forEach]-style sequencing of a throwing function over a list. *)
Fixpoint mapM {A B} (f : A -> Js.Completion B) (l : list A)
  : Js.Completion (list B) :=
  match l with
  | [] => Js.Normal []
  | a :: l' =>
      match f a with
      | Js.Throw e => Js.Throw e
      | Js.Normal b =>
          match mapM f l' with
          | Js.Throw e => Js.Throw e
          | Js.Normal bs => Js.Normal (b :: bs)
          end
      end
  end.

(** The array method call
    [mix.sort((a, b) => b.percentage - a.percentage)] as a whole is a
    service of the engine: the order it produces for entries whose
    percentages are not numbers is implementation-defined.  A handler takes
    it from its environment. *)
Definition SortDescending : Type := list Value -> Js.Completion (list Value).

Definition percentageOf (v : Value) : option Q :=
  match v with
  | Object ms => match member "percentage" ms with
                 | Some (Number q) => Some q
                 | _ => None
                 end
  | _ => None
  end.

Definition isNull (v : Value) : bool :=
  match v with Null => true | _ => false end.

Fixpoint insertDescending (x : Value) (sorted : list Value) : list Value :=
  match sorted with
  | [] => [x]
  | y :: rest =>
      match percentageOf y, percentageOf x with
      | Some py, Some px =>
          if Qle_bool py px then x :: sorted
          else y :: insertDescending x rest
      | _, _ => x :: sorted
      end
  end.

(** The engine's sort on entries that carry numeric percentages: stable,
    descending.  The comparator reads a property of both arguments, so a
    [null] entry in an array of two or more makes it throw. *)
Definition stableSortDescending : SortDescending :=
  fun items =>
    if (2 <=? Z.of_nat (List.length items)) && existsb isNull items then
      Js.Throw (Js.TypeError "Cannot read properties of null")
    else Js.Normal (fold_right insertDescending [] items).

End Json.

(* ====================================================================== *)
(** ** src/lib/messages.ts *)
(* ====================================================================== *)

Module Messages.

(** [MessageEnvelope<T>] *)
Record MessageEnvelope (T : Type) : Type := mkEnvelope {
  id : string;
  source : string;
  type : string;
  timestamp : string;
  data : T
}.
Arguments mkEnvelope {T}.
Arguments id {T}.
Arguments source {T}.
Arguments type {T}.
Arguments timestamp {T}.
Arguments data {T}.

(** A union of string literals is a string at run time; the five values
    the type admits are listed in [carbonIntensityIndices]. *)
Definition CarbonIntensityIndex : Type := string.

Definition carbonIntensityIndices : list CarbonIntensityIndex :=
  ["very low"; "low"; "moderate"; "high"; "very high"].

Record CarbonIntensityData : Type := mkIntensity {
  periodStart : string;
  periodEnd : string;
  forecast : Q;
  actual : option Q;
  index : CarbonIntensityIndex
}.

Definition FuelType : Type := string.

Definition fuelTypes : list FuelType :=
  ["gas"; "coal"; "nuclear"; "wind"; "solar"; "hydro"; "imports";
   "biomass"; "other"].

(** [percentage] is declared [number]; what it holds at run time is
    whatever the parsed JSON of the source held under [perc], which
    [fetchGeneration] copies unchecked ([None] when the key was missing).
    Both the ingester and the consumers call a number method on it. *)
Record GenerationMixEntry : Type := mkMixEntry {
  fuel : FuelType;
  percentage : Json.JsVal
}.

Record CarbonGenerationData : Type := mkGeneration {
  gen_timestamp : string;
  mix : list GenerationMixEntry
}.

Record Coordinates : Type := mkCoordinates { lat : Q; lon : Q }.

Record WeatherLocation : Type := mkLocation {
  city : string;
  country : string;
  coordinates : Coordinates
}.

Record Temperature : Type := mkTemperature { current : Q; feelsLike : Q }.
Record Wind : Type := mkWind { speed : Q; direction : Q }.
Record WeatherCondition : Type := mkCondition {
  main : string;
  description : string
}.

Record WeatherCurrentData : Type := mkWeather {
  location : WeatherLocation;
  observedAt : string;
  temperature : Temperature;
  humidity : Q;
  pressure : Q;
  wind : Wind;
  condition : WeatherCondition
}.

(** [MESSAGE_SOURCES] *)
Module MESSAGE_SOURCES.
Definition CARBON_INGESTER : string := "carbon-ingester".
Definition WEATHER_INGESTER : string := "weather-ingester".
End MESSAGE_SOURCES.

(** [MESSAGE_TYPES] *)
Module MESSAGE_TYPES.
Definition CARBON_INTENSITY : string := "feed.carbon.intensity".
Definition CARBON_GENERATION : string := "feed.carbon.generation".
Definition WEATHER_CURRENT : string := "feed.weather.current".
End MESSAGE_TYPES.

Record CreateEnvelopeOptions (T : Type) : Type := mkOptions {
  opt_source : string;
  opt_type : string;
  opt_data : T
}.
Arguments mkOptions {T}.
Arguments opt_source {T}.
Arguments opt_type {T}.
Arguments opt_data {T}.

(** What [createEnvelope] reads from the runtime: the result of
    [randomUUID()] and of [new Date().toISOString()]. *)
Record Runtime : Type := mkRuntime {
  randomUUID : string;
  isoNow : string
}.

Definition createEnvelope {T} (rt : Runtime) (options : CreateEnvelopeOptions T)
  : MessageEnvelope T :=
  {| id := randomUUID rt;
     source := opt_source options;
     type := opt_type options;
     timestamp := isoNow rt;
     data := opt_data options |}.

Definition createCarbonIntensityMessage (rt : Runtime) (d : CarbonIntensityData)
  : MessageEnvelope CarbonIntensityData :=
  createEnvelope rt
    {| opt_source := MESSAGE_SOURCES.CARBON_INGESTER;
       opt_type := MESSAGE_TYPES.CARBON_INTENSITY;
       opt_data := d |}.

Definition createCarbonGenerationMessage (rt : Runtime) (d : CarbonGenerationData)
  : MessageEnvelope CarbonGenerationData :=
  createEnvelope rt
    {| opt_source := MESSAGE_SOURCES.CARBON_INGESTER;
       opt_type := MESSAGE_TYPES.CARBON_GENERATION;
       opt_data := d |}.

Definition createWeatherCurrentMessage (rt : Runtime) (d : WeatherCurrentData)
  : MessageEnvelope WeatherCurrentData :=
  createEnvelope rt
    {| opt_source := MESSAGE_SOURCES.WEATHER_INGESTER;
       opt_type := MESSAGE_TYPES.WEATHER_CURRENT;
       opt_data := d |}.

(** The payload of a [MessageEnvelope<unknown>] as the ingesters hand it to
    [publishMessage]. *)
Inductive Payload : Type :=
| PIntensity (d : CarbonIntensityData)
| PGeneration (d : CarbonGenerationData)
| PWeather (d : WeatherCurrentData).

(** The implicit upcast [MessageEnvelope<T>] to [MessageEnvelope]. *)
Definition upcast {T} (inj : T -> Payload) (e : MessageEnvelope T)
  : MessageEnvelope Payload :=
  {| id := id e; source := source e; type := type e;
     timestamp := timestamp e; data := inj (data e) |}.

End Messages.

(* ====================================================================== *)
(** ** The topology tables (exchanges, queues, routing keys, bindings) *)
(* ====================================================================== *)

Module Topology.

Module EXCHANGES.
Definition TOPIC : string := "feeds.topic".
Definition DLX : string := "feeds.dlx".
End EXCHANGES.

Module QUEUES.
Definition ALL : string := "feeds.all".
Definition CARBON : string := "feeds.carbon".
Definition WEATHER : string := "feeds.weather".
Definition DLQ : string := "feeds.dlq".
End QUEUES.

Module ROUTING_KEYS.
Definition CARBON_INTENSITY : string := "feed.carbon.intensity".
Definition CARBON_GENERATION : string := "feed.carbon.generation".
Definition WEATHER_CURRENT : string := "feed.weather.current".
Definition WEATHER_FORECAST : string := "feed.weather.forecast".
End ROUTING_KEYS.

Module BINDINGS.
Definition ALL : string := "feed.#".
Definition CARBON : string := "feed.carbon.*".
Definition WEATHER : string := "feed.weather.*".
End BINDINGS.

End Topology.

(* ====================================================================== *)
(** ** The publishing side of a broker channel *)
(* ====================================================================== *)

Module Broker.

(** The options object of [channel.publish]. *)
Record PublishOptions : Type := mkPublishOptions {
  contentType : string;
  contentEncoding : string;
  deliveryMode : Z;
  messageId : string;
  timestamp : Z;
  appId : string
}.

(** One call [channel.publish(exchange, routingKey, content, options)].
    [content] is [Buffer.from(JSON.stringify(message))]; the record keeps
    the envelope that was serialised. *)
Record Published : Type := mkPublished {
  exchange : string;
  routingKey : string;
  content : Messages.MessageEnvelope Messages.Payload;
  options : PublishOptions
}.

(** The channel object an ingester holds: the calls made on it, oldest
    first. *)
Record Channel : Type := mkChannel { published : list Published }.

Definition publish (p : Published) (ch : Channel) : Channel :=
  {| published := published ch ++ [p] |}.

(** The envelope that was published carries, as its [type], the routing key
    of the call. *)
Definition typeIsRoutingKey (p : Published) : Prop :=
  Messages.type (content p) = routingKey p.

Definition envelopeIds (ps : list Published) : list string :=
  map (fun p => Messages.id (content p)) ps.

End Broker.

(* ====================================================================== *)
(** ** Decimal rendering of integers inside template literals *)
(* ====================================================================== *)

Module Render.

Fixpoint digits (fuel : nat) (n : Z) (acc : string) : string :=
  let d := String (Ascii.ascii_of_nat (48 + Z.to_nat (n mod 10))) acc in
  match fuel with
  | O => d
  | S fuel' => if n / 10 =? 0 then d else digits fuel' (n / 10) d
  end.

(** [`${n}`] for an integer [n]. *)
Definition string_of_Z (n : Z) : string :=
  if n <? 0 then String.append "-" (digits (Z.to_nat (Z.log2 (- n))) (- n) "")
  else digits (Z.to_nat (Z.log2 n)) n "".

End Render.

(* ====================================================================== *)
(** ** The HTTP boundary ([fetch] and [Response]) *)
(* ====================================================================== *)

Module Http.

(** A [Response]: status line and what [response.json()] settles to.
    [J] is the shape the source casts the parsed body to. *)
Record Response (J : Type) : Type := mkResponse {
  status : Z;
  statusText : string;
  json : Js.Completion J
}.
Arguments mkResponse {J}.
Arguments status {J}.
Arguments statusText {J}.
Arguments json {J}.

(** [response.ok]: the status is in the range 200-299. *)
Definition ok {J} (r : Response J) : bool :=
  (200 <=? status r) && (status r <=? 299).

(** What [await fetch(url)] settles to: a response, or a rejection when the
    request itself fails. *)
Definition Fetched (J : Type) : Type := Js.Completion (Response J).

Definition httpError {J} (r : Response J) : Js.Error :=
  Js.newError
    (("HTTP " ++ Render.string_of_Z (status r) ++ ": " ++ statusText r)%string).

End Http.

(* ====================================================================== *)
(** ** src/ingesters/carbon.ts *)
(* ====================================================================== *)

Module CarbonIngester.
Import Messages Topology.

Record Config : Type := mkConfig {
  baseUrl : string;
  intensityPollInterval : Z;
  generationPollInterval : Z;
  baseRetryDelay : Z;
  maxRetryDelay : Z
}.

(** [process.env] as far as this file reads it, already through
    [parseInt(_, 10)]; [None] is an unset variable. *)
Record ProcessEnv : Type := mkProcessEnv {
  CARBON_INTENSITY_POLL_INTERVAL_MS : option Z;
  CARBON_GENERATION_POLL_INTERVAL_MS : option Z
}.

Definition orDefault (v : option Z) (d : Z) : Z :=
  match v with Some z => z | None => d end.

Definition CONFIG (penv : ProcessEnv) : Config :=
  {| baseUrl := "https://api.carbonintensity.org.uk";
     intensityPollInterval :=
       orDefault (CARBON_INTENSITY_POLL_INTERVAL_MS penv) 120000;
     generationPollInterval :=
       orDefault (CARBON_GENERATION_POLL_INTERVAL_MS penv) 300000;
     baseRetryDelay := 5000;
     maxRetryDelay := 300000 |}.

(** *** API response types *)

Record IntensityReading : Type := mkReading {
  r_forecast : Q;
  r_actual : option Q;
  r_index : string
}.

Record IntensityEntry : Type := mkEntry {
  from : string;
  to : string;
  intensity : IntensityReading
}.

Record IntensityApiResponse : Type := mkIntensityResponse {
  i_data : list IntensityEntry
}.

(** The response is the parsed JSON under a type cast; [perc] is kept as it
    was parsed. *)
Record GenerationApiEntry : Type := mkGenEntry {
  g_fuel : string;
  g_perc : Json.JsVal
}.

(** [json.data.generationmix] *)
Record GenerationApiResponse : Type := mkGenerationResponse {
  generationmix : list GenerationApiEntry
}.

(** *** State: the module-level [let] variables *)

Record State : Type := mkState {
  channel : option Broker.Channel;
  intensityFailures : Z;
  generationFailures : Z;
  intensityTimer : option Z;     (* the pending [setTimeout], by its delay *)
  generationTimer : option Z;
  isShuttingDown : bool
}.

Definition set_channel (c : option Broker.Channel) (s : State) : State :=
  mkState c (intensityFailures s) (generationFailures s)
          (intensityTimer s) (generationTimer s) (isShuttingDown s).
Definition set_intensityFailures (n : Z) (s : State) : State :=
  mkState (channel s) n (generationFailures s)
          (intensityTimer s) (generationTimer s) (isShuttingDown s).
Definition set_generationFailures (n : Z) (s : State) : State :=
  mkState (channel s) (intensityFailures s) n
          (intensityTimer s) (generationTimer s) (isShuttingDown s).
Definition set_intensityTimer (t : option Z) (s : State) : State :=
  mkState (channel s) (intensityFailures s) (generationFailures s)
          t (generationTimer s) (isShuttingDown s).
Definition set_generationTimer (t : option Z) (s : State) : State :=
  mkState (channel s) (intensityFailures s) (generationFailures s)
          (intensityTimer s) t (isShuttingDown s).
Definition set_isShuttingDown (b : bool) (s : State) : State :=
  mkState (channel s) (intensityFailures s) (generationFailures s)
          (intensityTimer s) (generationTimer s) b.

(** The state as the declarations initialise it. *)
Definition initial : State := mkState None 0 0 None None false.

(** *** HTTP client *)

Definition fetchIntensity (fetched : Http.Fetched IntensityApiResponse)
  : Js.Completion CarbonIntensityData :=
  match fetched with
  | Js.Throw e => Js.Throw e
  | Js.Normal response =>
      if negb (Http.ok response) then Js.Throw (Http.httpError response)
      else
        match Http.json response with
        | Js.Throw e => Js.Throw e
        | Js.Normal json =>
            match nth_error (i_data json) 0 with
            | None =>
                Js.Throw (Js.TypeError "Cannot read properties of undefined")
            | Some entry =>
                Js.Normal
                  {| periodStart := from entry;
                     periodEnd := to entry;
                     forecast := r_forecast (intensity entry);
                     actual := r_actual (intensity entry);
                     index := r_index (intensity entry) |}
            end
        end
  end.

(** [isoNow] is [new Date().toISOString()] at the time of the call. *)
Definition fetchGeneration (isoNow : string)
           (fetched : Http.Fetched GenerationApiResponse)
  : Js.Completion CarbonGenerationData :=
  match fetched with
  | Js.Throw e => Js.Throw e
  | Js.Normal response =>
      if negb (Http.ok response) then Js.Throw (Http.httpError response)
      else
        match Http.json response with
        | Js.Throw e => Js.Throw e
        | Js.Normal json =>
            Js.Normal
              {| gen_timestamp := isoNow;
                 mix := map (fun entry =>
                               {| fuel := g_fuel entry;
                                  percentage := g_perc entry |})
                            (generationmix json) |}
        end
  end.

(** *** Message publishing *)

(** [nowMs] is [Date.now()]. *)
(** The arguments of the [channel.publish] call. *)
Definition publishCall (nowMs : Z) (message : MessageEnvelope Payload)
           (routingKey : string) : Broker.Published :=
  {| Broker.exchange := EXCHANGES.TOPIC;
     Broker.routingKey := routingKey;
     Broker.content := message;
     Broker.options :=
       {| Broker.contentType := "application/json";
          Broker.contentEncoding := "utf-8";
          Broker.deliveryMode := 2;     (* persistent *)
          Broker.messageId := id message;
          Broker.timestamp := nowMs / 1000;
          Broker.appId := MESSAGE_SOURCES.CARBON_INGESTER |} |}.

Definition publishMessage (nowMs : Z) (message : MessageEnvelope Payload)
           (routingKey : string) : Js.M State unit :=
  fun st =>
    match channel st with
    | None => (Js.Throw (Js.newError "Channel not available"), st)
    | Some ch =>
        (Js.Normal tt,
         set_channel
           (Some (Broker.publish (publishCall nowMs message routingKey) ch))
           st)
    end.

(** *** Exponential backoff *)

Definition calculateBackoff (cfg : Config) (failures : Z) : Z :=
  let delay := baseRetryDelay cfg * 2 ^ failures in
  Z.min delay (maxRetryDelay cfg).

(** *** Polling functions *)

(** The array method call
    [data.mix.sort((a, b) => b.percentage - a.percentage)] of
    [pollGeneration], as a service of the engine (see [Json.SortDescending]). *)
Definition SortMix : Type :=
  list GenerationMixEntry -> Js.Completion (list GenerationMixEntry).

(** What one invocation of a polling function reads from outside. *)
Record PollEnv (J : Type) : Type := mkPollEnv {
  fetched : Http.Fetched J;
  runtime : Runtime;       (* for [createEnvelope] *)
  nowMs : Z;               (* [Date.now()] in [publishMessage] *)
  fetchIso : string;       (* [new Date()] inside [fetchGeneration] *)
  sortDescending : SortMix (* the sort inside [pollGeneration] *)
}.
Arguments mkPollEnv {J}.
Arguments fetched {J}.
Arguments runtime {J}.
Arguments nowMs {J}.
Arguments fetchIso {J}.
Arguments sortDescending {J}.

(** One [(s) => `${s.fuel}: ${s.percentage.toFixed(1)}%`]. *)
Definition formatSource (s : GenerationMixEntry) : Js.Completion (string * Q) :=
  (q <- Json.toFixed (percentage s) ;;
   Js.Normal (fuel s, q))%expr.

(** [data.mix.sort(...).slice(0, 3).map(...)]: the entries of the summary
    line that [pollGeneration] logs after it has published.  The line itself
    is console output, which is not part of the model; what matters is
    whether computing it throws. *)
Definition topSources (sort : SortMix) (data : CarbonGenerationData)
  : Js.Completion (list (string * Q)) :=
  (sorted <- sort (mix data) ;;
   Json.mapM formatSource (firstn 3 sorted))%expr.

(** How one invocation ends.  After [Retried d] the function has slept [d]
    milliseconds and re-invokes itself unless shutdown has begun; after
    [Scheduled d] the timer re-invokes it [d] milliseconds later. *)
Inductive PollOutcome : Type :=
| Skipped
| Scheduled (interval : Z)
| Retried (backoff : Z).

Section Polling.
Variable penv : ProcessEnv.
Local Open Scope js_scope.

Definition pollIntensity (env : PollEnv IntensityApiResponse)
  : Js.M State PollOutcome :=
  fun st =>
    if isShuttingDown st then (Js.Normal Skipped, st)
    else
      (caught <-
         Js.try_catch
           (data <- Js.lift (fetchIntensity (fetched env)) ;;
            let message := createCarbonIntensityMessage (runtime env) data in
            publishMessage (nowMs env) (upcast PIntensity message)
                           ROUTING_KEYS.CARBON_INTENSITY ;;;
            Js.modify (set_intensityFailures 0) ;;;
            Js.ret None)
           (fun error =>
              Js.modify (fun s =>
                set_intensityFailures (intensityFailures s + 1) s) ;;;
              failures <- Js.gets intensityFailures ;;
              let backoff := calculateBackoff (CONFIG penv) failures in
              Js.ret (Some backoff)) ;;
       match caught with
       | Some backoff => Js.ret (Retried backoff)
       | None =>
           down <- Js.gets isShuttingDown ;;
           if negb down then
             Js.modify (set_intensityTimer
                          (Some (intensityPollInterval (CONFIG penv)))) ;;;
             Js.ret (Scheduled (intensityPollInterval (CONFIG penv)))
           else Js.ret Skipped
       end) st.

(** The summary of the top three sources is computed inside the [try]
    block, after the envelope has been published and before the counter is
    reset. *)
Definition pollGeneration (env : PollEnv GenerationApiResponse)
  : Js.M State PollOutcome :=
  fun st =>
    if isShuttingDown st then (Js.Normal Skipped, st)
    else
      (caught <-
         Js.try_catch
           (data <- Js.lift (fetchGeneration (fetchIso env) (fetched env)) ;;
            let message := createCarbonGenerationMessage (runtime env) data in
            publishMessage (nowMs env) (upcast PGeneration message)
                           ROUTING_KEYS.CARBON_GENERATION ;;;
            Js.lift (topSources (sortDescending env) data) ;;;
            Js.modify (set_generationFailures 0) ;;;
            Js.ret None)
           (fun error =>
              Js.modify (fun s =>
                set_generationFailures (generationFailures s + 1) s) ;;;
              failures <- Js.gets generationFailures ;;
              let backoff := calculateBackoff (CONFIG penv) failures in
              Js.ret (Some backoff)) ;;
       match caught with
       | Some backoff => Js.ret (Retried backoff)
       | None =>
           down <- Js.gets isShuttingDown ;;
           if negb down then
             Js.modify (set_generationTimer
                          (Some (generationPollInterval (CONFIG penv)))) ;;;
             Js.ret (Scheduled (generationPollInterval (CONFIG penv)))
           else Js.ret Skipped
       end) st.

(** The part of [shutdown] that touches this module's state. *)
Definition shutdown (st : State) : State :=
  if isShuttingDown st then st
  else set_generationTimer None
         (set_intensityTimer None (set_isShuttingDown true st)).

(** What can happen to the running ingester. *)
Inductive Event : Type :=
| IntensityPoll (env : PollEnv IntensityApiResponse)
| GenerationPoll (env : PollEnv GenerationApiResponse)
| Signal.

Definition step (ev : Event) (st : State) : Js.Completion PollOutcome * State :=
  match ev with
  | IntensityPoll env => pollIntensity env st
  | GenerationPoll env => pollGeneration env st
  | Signal => (Js.Normal Skipped, shutdown st)
  end.

(** A run: the events in order; it stops at the first invocation that
    lets an exception escape. *)
Fixpoint run (evs : list Event) (st : State)
  : list (Js.Completion PollOutcome) * State :=
  match evs with
  | [] => ([], st)
  | ev :: evs' =>
      match step ev st with
      | (Js.Throw e, st') => ([Js.Throw e], st')
      | (Js.Normal o, st') =>
          let (os, st'') := run evs' st' in (Js.Normal o :: os, st'')
      end
  end.

End Polling.

(** The publish calls made so far on the ingester's channel. *)
Definition publishedBy (st : State) : list Broker.Published :=
  match channel st with
  | Some ch => Broker.published ch
  | None => []
  end.

End CarbonIngester.

(* ====================================================================== *)
(** ** The weather ingester *)
(* ====================================================================== *)

Module WeatherIngester.
Import Messages Topology.

Record Config : Type := mkConfig {
  baseUrl : string;
  apiKey : option string;
  city : string;
  pollInterval : Z;
  baseRetryDelay : Z;
  maxRetryDelay : Z;
  rateLimitDelay : Z
}.

Record ProcessEnv : Type := mkProcessEnv {
  OPENWEATHER_API_KEY : option string;
  WEATHER_CITY : option string;
  WEATHER_POLL_INTERVAL_MS : option Z     (* through [parseInt(_, 10)] *)
}.

Definition CONFIG (penv : ProcessEnv) : Config :=
  {| baseUrl := "https://api.openweathermap.org/data/2.5";
     apiKey := OPENWEATHER_API_KEY penv;
     city := match WEATHER_CITY penv with
                 | Some c => if String.eqb c "" then "London,UK" else c
                 | None => "London,UK"
                 end;
     pollInterval := match WEATHER_POLL_INTERVAL_MS penv with
                     | Some z => z
                     | None => 600000
                     end;
     baseRetryDelay := 10000;
     maxRetryDelay := 600000;
     rateLimitDelay := 60000 |}.

(** *** API response type *)

Record ApiCoord : Type := mkApiCoord { c_lat : Q; c_lon : Q }.
Record ApiWeather : Type := mkApiWeather { w_main : string; w_description : string }.
Record ApiMain : Type := mkApiMain {
  temp : Q; feels_like : Q; m_humidity : Q; m_pressure : Q
}.
Record ApiWind : Type := mkApiWind { w_speed : Q; deg : Q }.
Record ApiSys : Type := mkApiSys { s_country : string }.

Record WeatherApiResponse : Type := mkWeatherResponse {
  coord : ApiCoord;
  weather : list ApiWeather;
  api_main : ApiMain;
  api_wind : ApiWind;
  dt : Z;
  name : string;
  sys : ApiSys
}.

(** *** Custom error for rate limiting *)

Definition RateLimitError : Js.Error :=
  Js.mkError Js.ClassRateLimitError "Rate limit exceeded (429)".

(** [error instanceof RateLimitError] *)
Definition instanceofRateLimitError (e : Js.Error) : bool :=
  match Js.class e with
  | Js.ClassRateLimitError => true
  | _ => false
  end.

(** *** State *)

Record State : Type := mkState {
  channel : option Broker.Channel;
  failures : Z;
  pollTimer : option Z;
  isShuttingDown : bool
}.

Definition set_channel (c : option Broker.Channel) (s : State) : State :=
  mkState c (failures s) (pollTimer s) (isShuttingDown s).
Definition set_failures (n : Z) (s : State) : State :=
  mkState (channel s) n (pollTimer s) (isShuttingDown s).
Definition set_pollTimer (t : option Z) (s : State) : State :=
  mkState (channel s) (failures s) t (isShuttingDown s).
Definition set_isShuttingDown (b : bool) (s : State) : State :=
  mkState (channel s) (failures s) (pollTimer s) b.

Definition initial : State := mkState None 0 None false.

(** *** HTTP client *)

(** [toISO ms] is [new Date(ms).toISOString()], which throws a
    [RangeError] on a time value out of range. *)
Definition fetchWeather (toISO : Z -> Js.Completion string)
           (fetched : Http.Fetched WeatherApiResponse)
  : Js.Completion WeatherCurrentData :=
  match fetched with
  | Js.Throw e => Js.Throw e
  | Js.Normal response =>
      if Http.status response =? 429 then Js.Throw RateLimitError
      else if Http.status response =? 401 then
        Js.Throw (Js.newError "Invalid API key (401)")
      else if negb (Http.ok response) then Js.Throw (Http.httpError response)
      else
        match Http.json response with
        | Js.Throw e => Js.Throw e
        | Js.Normal json =>
            match toISO (dt json * 1000) with
            | Js.Throw e => Js.Throw e
            | Js.Normal observed =>
                match nth_error (weather json) 0 with
                | None =>
                    Js.Throw
                      (Js.TypeError "Cannot read properties of undefined")
                | Some w0 =>
                    Js.Normal
                      {| location :=
                           {| Messages.city := name json;
                              country := s_country (sys json);
                              coordinates :=
                                {| lat := c_lat (coord json);
                                   lon := c_lon (coord json) |} |};
                         observedAt := observed;
                         temperature :=
                           {| current := temp (api_main json);
                              feelsLike := feels_like (api_main json) |};
                         humidity := m_humidity (api_main json);
                         pressure := m_pressure (api_main json);
                         Messages.wind :=
                           {| speed := w_speed (api_wind json);
                              direction := deg (api_wind json) |};
                         condition := {| main := w_main w0;
                                         description := w_description w0 |} |}
                end
            end
        end
  end.

(** *** Message publishing *)

(** The arguments of the [channel.publish] call. *)
Definition publishCall (nowMs : Z) (message : MessageEnvelope Payload)
           (routingKey : string) : Broker.Published :=
  {| Broker.exchange := EXCHANGES.TOPIC;
     Broker.routingKey := routingKey;
     Broker.content := message;
     Broker.options :=
       {| Broker.contentType := "application/json";
          Broker.contentEncoding := "utf-8";
          Broker.deliveryMode := 2;     (* persistent *)
          Broker.messageId := id message;
          Broker.timestamp := nowMs / 1000;
          Broker.appId := MESSAGE_SOURCES.WEATHER_INGESTER |} |}.

Definition publishMessage (nowMs : Z) (message : MessageEnvelope Payload)
           (routingKey : string) : Js.M State unit :=
  fun st =>
    match channel st with
    | None => (Js.Throw (Js.newError "Channel not available"), st)
    | Some ch =>
        (Js.Normal tt,
         set_channel
           (Some (Broker.publish (publishCall nowMs message routingKey) ch))
           st)
    end.

(** *** Exponential backoff *)

Definition calculateBackoff (cfg : Config) (failureCount : Z) : Z :=
  let delay := baseRetryDelay cfg * 2 ^ failureCount in
  Z.min delay (maxRetryDelay cfg).

(** *** Polling function *)

Record PollEnv : Type := mkPollEnv {
  fetched : Http.Fetched WeatherApiResponse;
  toISO : Z -> Js.Completion string;
  runtime : Runtime;
  nowMs : Z
}.

Inductive PollOutcome : Type :=
| Skipped
| Scheduled (interval : Z)
| RateLimited (cooldown : Z)
| Retried (backoff : Z).

(** How the [catch] block leaves the function. *)
Inductive Caught : Type :=
| NotCaught
| CaughtRateLimit (cooldown : Z)
| CaughtFailure (backoff : Z).

Section Polling.
Variable penv : ProcessEnv.
Local Open Scope js_scope.

Definition pollWeather (env : PollEnv) : Js.M State PollOutcome :=
  fun st =>
    if isShuttingDown st then (Js.Normal Skipped, st)
    else
      (caught <-
         Js.try_catch
           (data <- Js.lift (fetchWeather (toISO env) (fetched env)) ;;
            let message := createWeatherCurrentMessage (runtime env) data in
            publishMessage (nowMs env) (upcast PWeather message)
                           ROUTING_KEYS.WEATHER_CURRENT ;;;
            Js.modify (set_failures 0) ;;;
            Js.ret NotCaught)
           (fun error =>
              if instanceofRateLimitError error then
                Js.ret (CaughtRateLimit (rateLimitDelay (CONFIG penv)))
              else
                Js.modify (fun s => set_failures (failures s + 1) s) ;;;
                n <- Js.gets failures ;;
                let backoff := calculateBackoff (CONFIG penv) n in
                Js.ret (CaughtFailure backoff)) ;;
       match caught with
       | CaughtRateLimit cooldown => Js.ret (RateLimited cooldown)
       | CaughtFailure backoff => Js.ret (Retried backoff)
       | NotCaught =>
           down <- Js.gets isShuttingDown ;;
           if negb down then
             Js.modify (set_pollTimer (Some (pollInterval (CONFIG penv)))) ;;;
             Js.ret (Scheduled (pollInterval (CONFIG penv)))
           else Js.ret Skipped
       end) st.

Definition shutdown (st : State) : State :=
  if isShuttingDown st then st
  else set_pollTimer None (set_isShuttingDown true st).

Inductive Event : Type :=
| WeatherPoll (env : PollEnv)
| Signal.

Definition step (ev : Event) (st : State) : Js.Completion PollOutcome * State :=
  match ev with
  | WeatherPoll env => pollWeather env st
  | Signal => (Js.Normal Skipped, shutdown st)
  end.

Fixpoint run (evs : list Event) (st : State)
  : list (Js.Completion PollOutcome) * State :=
  match evs with
  | [] => ([], st)
  | ev :: evs' =>
      match step ev st with
      | (Js.Throw e, st') => ([Js.Throw e], st')
      | (Js.Normal o, st') =>
          let (os, st'') := run evs' st' in (Js.Normal o :: os, st'')
      end
  end.

End Polling.

Definition publishedBy (st : State) : list Broker.Published :=
  match channel st with
  | Some ch => Broker.published ch
  | None => []
  end.

End WeatherIngester.

(* ====================================================================== *)
(** ** The connection manager *)
(* ====================================================================== *)

Module Connection.

(** Handles of the amqplib objects. *)
Definition AmqpConnection : Type := nat.
Definition AmqpChannel : Type := nat.

(** The promise handed to a caller that waits for an attempt in flight. *)
Definition Waiter : Type := nat.

Record ConnectionManagerOptions : Type := mkManagerOptions {
  o_url : string;
  o_maxRetries : option Z;
  o_initialRetryDelay : option Z;
  o_maxRetryDelay : option Z
}.

Record ConnectionManager : Type := mkManager {
  url : string;
  maxRetries : Z;
  initialRetryDelay : Z;
  maxRetryDelay : Z;
  connection : option AmqpConnection;
  channel : option AmqpChannel;
  isConnecting : bool;
  isClosed : bool;
  retryCount : Z;
  connectionListeners : list Waiter;
  errorListeners : list Waiter
}.

(** [a ?? b] *)
Definition nullish (v : option Z) (d : Z) : Z :=
  match v with Some z => z | None => d end.

Definition constructor (options : ConnectionManagerOptions) : ConnectionManager :=
  {| url := o_url options;
     maxRetries := nullish (o_maxRetries options) 10;
     initialRetryDelay := nullish (o_initialRetryDelay options) 1000;
     maxRetryDelay := nullish (o_maxRetryDelay options) 30000;
     connection := None;
     channel := None;
     isConnecting := false;
     isClosed := false;
     retryCount := 0;
     connectionListeners := [];
     errorListeners := [] |}.

Definition set_connection (c : option AmqpConnection) (m : ConnectionManager) :=
  mkManager (url m) (maxRetries m) (initialRetryDelay m) (maxRetryDelay m)
            c (channel m) (isConnecting m) (isClosed m) (retryCount m)
            (connectionListeners m) (errorListeners m).
Definition set_channel (c : option AmqpChannel) (m : ConnectionManager) :=
  mkManager (url m) (maxRetries m) (initialRetryDelay m) (maxRetryDelay m)
            (connection m) c (isConnecting m) (isClosed m) (retryCount m)
            (connectionListeners m) (errorListeners m).
Definition set_isConnecting (b : bool) (m : ConnectionManager) :=
  mkManager (url m) (maxRetries m) (initialRetryDelay m) (maxRetryDelay m)
            (connection m) (channel m) b (isClosed m) (retryCount m)
            (connectionListeners m) (errorListeners m).
Definition set_isClosed (b : bool) (m : ConnectionManager) :=
  mkManager (url m) (maxRetries m) (initialRetryDelay m) (maxRetryDelay m)
            (connection m) (channel m) (isConnecting m) b (retryCount m)
            (connectionListeners m) (errorListeners m).
Definition set_retryCount (n : Z) (m : ConnectionManager) :=
  mkManager (url m) (maxRetries m) (initialRetryDelay m) (maxRetryDelay m)
            (connection m) (channel m) (isConnecting m) (isClosed m) n
            (connectionListeners m) (errorListeners m).
Definition set_connectionListeners (l : list Waiter) (m : ConnectionManager) :=
  mkManager (url m) (maxRetries m) (initialRetryDelay m) (maxRetryDelay m)
            (connection m) (channel m) (isConnecting m) (isClosed m)
            (retryCount m) l (errorListeners m).
Definition set_errorListeners (l : list Waiter) (m : ConnectionManager) :=
  mkManager (url m) (maxRetries m) (initialRetryDelay m) (maxRetryDelay m)
            (connection m) (channel m) (isConnecting m) (isClosed m)
            (retryCount m) (connectionListeners m) l.

(** What the manager does to the outside world, in order. *)
Inductive Effect : Type :=
| AmqpConnect (u : string)                 (* [amqp.connect(url)] *)
| Sleep (ms : Z)                           (* [await this.sleep(ms)] *)
| ListenConnection (c : AmqpConnection)    (* [conn.on('error')], [conn.on('close')] *)
| CreateChannel (c : AmqpConnection)       (* [connection.createChannel()] *)
| ListenChannel (ch : AmqpChannel)         (* [ch.on('error')], [ch.on('close')] *)
| CloseChannel (ch : AmqpChannel)          (* [channel.close()] *)
| CloseConnection (c : AmqpConnection)     (* [connection.close()] *)
| Resolve (w : Waiter) (c : AmqpConnection)
| Reject (w : Waiter) (e : Js.Error).

(** The manager object, the effects so far (oldest first) and the number of
    promises handed out to waiting callers. *)
Record World : Type := mkWorld {
  mgr : ConnectionManager;
  trace : list Effect;
  waiters : nat
}.

Definition update (f : ConnectionManager -> ConnectionManager) (w : World) : World :=
  mkWorld (f (mgr w)) (trace w) (waiters w).
Definition emit (es : list Effect) (w : World) : World :=
  mkWorld (mgr w) (trace w ++ es) (waiters w).

(** What an [async] method hands back: a settled value, or a promise that
    settles only when a listener is called. *)
Inductive Promise (A : Type) : Type :=
| Settled (a : A)
| Pending (w : Waiter).
Arguments Settled {A} a.
Arguments Pending {A} w.

(** What [close] meets: how [channel.close()] and [connection.close()]
    settle. *)
Record CloseEnv : Type := mkCloseEnv {
  channelClose : Js.Completion unit;
  connectionClose : Js.Completion unit
}.

Section Close.
Local Open Scope js_scope.

(** [await x.close()] on a broker object: the call is made, and settles
    as the environment says. *)
Definition awaitClose (e : Effect) (settles : Js.Completion unit)
  : Js.M World unit :=
  fun w => (settles, emit [e] w).

Definition close (env : CloseEnv) : Js.M World unit :=
  Js.modify (update (set_isClosed true)) ;;;
  ch <- Js.gets (fun w => channel (mgr w)) ;;
  match ch with
  | Some ch =>
      Js.try_catch (awaitClose (CloseChannel ch) (channelClose env))
                   (fun _ => Js.ret tt (* Ignore close errors *)) ;;;
      Js.modify (update (set_channel None))
  | None => Js.ret tt
  end ;;;
  c <- Js.gets (fun w => connection (mgr w)) ;;
  match c with
  | Some c =>
      Js.try_catch (awaitClose (CloseConnection c) (connectionClose env))
                   (fun _ => Js.ret tt (* Ignore close errors *)) ;;;
      Js.modify (update (set_connection None))
  | None => Js.ret tt
  end.

End Close.

Definition onConnection (listener : Waiter) (w : World) : World :=
  update (fun m => set_connectionListeners (connectionListeners m ++ [listener]) m) w.

Definition onError (listener : Waiter) (w : World) : World :=
  update (fun m => set_errorListeners (errorListeners m ++ [listener]) m) w.

Definition isConnected (m : ConnectionManager) : bool :=
  match connection m with
  | Some _ => negb (isClosed m)
  | None => false
  end.

(** Called only after [this.retryCount++], so the exponent is not negative
    when the count started from zero or above. *)
Definition calculateBackoff (m : ConnectionManager) : Z :=
  let delay := initialRetryDelay m * 2 ^ (retryCount m - 1) in
  Z.min delay (maxRetryDelay m).

(** One [amqp.connect] call as the loop meets it: how the call settles and
    whether the owner invoked [close()] while it was awaited. *)
Record Attempt : Type := mkAttempt {
  settles : Js.Completion AmqpConnection;
  closeCalled : option CloseEnv
}.

(** The owner's [close()] running while an attempt is awaited. *)
Definition interrupt (a : Attempt) (w : World) : World :=
  match closeCalled a with
  | Some cenv => snd (close cenv w)
  | None => w
  end.

Definition finalError (m : ConnectionManager) (error : Js.Error) : Js.Error :=
  Js.newError
    (("Failed to connect after " ++ Render.string_of_Z (maxRetries m)
        ++ " attempts: " ++ Js.message error)%string).

(** The [while] loop of [connect].  [env k] is the [k]-th call of
    [amqp.connect] made by this invocation; [fuel] bounds the number of
    iterations and [None] means it ran out. *)
Fixpoint connect_loop (fuel : nat) (env : nat -> Attempt) (k : nat) (w : World)
  : option (Js.Completion (Promise AmqpConnection) * World) :=
  match fuel with
  | O => None
  | S fuel' =>
      if (retryCount (mgr w) <=? maxRetries (mgr w)) && negb (isClosed (mgr w))
      then
        let w := emit [AmqpConnect (url (mgr w))] w in
        let w := interrupt (env k) w in
        match settles (env k) with
        | Js.Normal conn =>
            let w := update (set_connection (Some conn)) w in
            let w := update (set_retryCount 0) w in
            let w := update (set_isConnecting false) w in
            let w := emit [ListenConnection conn] w in
            let w := emit (map (fun l => Resolve l conn)
                               (connectionListeners (mgr w))) w in
            let w := update (set_connectionListeners []) w in
            Some (Js.Normal (Settled conn), w)
        | Js.Throw error =>
            let w := update (fun m => set_retryCount (retryCount m + 1) m) w in
            let delay := calculateBackoff (mgr w) in
            if retryCount (mgr w) >? maxRetries (mgr w) then
              let w := update (set_isConnecting false) w in
              let final := finalError (mgr w) error in
              let w := emit (map (fun l => Reject l final)
                                 (errorListeners (mgr w))) w in
              let w := update (set_errorListeners []) w in
              Some (Js.Throw final, w)
            else
              let w := emit [Sleep delay] w in
              connect_loop fuel' env (S k) w
        end
      else Some (Js.Throw (Js.newError "Connection aborted"), w)
  end.

(** Iterations that the loop can need from a given state, plus the final
    test of its condition. *)
Definition loop_bound (m : ConnectionManager) : nat :=
  S (Z.to_nat (maxRetries m + 1 - retryCount m)).

Definition connect (env : nat -> Attempt) (w : World)
  : option (Js.Completion (Promise AmqpConnection) * World) :=
  match connection (mgr w) with
  | Some c => Some (Js.Normal (Settled c), w)
  | None =>
      if isConnecting (mgr w) then
        let p := waiters w in
        let w := mkWorld (mgr w) (trace w) (S (waiters w)) in
        let w := onConnection p w in
        let w := onError p w in
        Some (Js.Normal (Pending p), w)
      else
        let w := update (set_isConnecting true) w in
        let w := update (set_isClosed false) w in
        connect_loop (loop_bound (mgr w)) env O w
  end.

(** The handlers [getChannel] installs on a channel: both set
    [this.channel = null]. *)
Definition onChannelError (w : World) : World := update (set_channel None) w.
Definition onChannelClose (w : World) : World := update (set_channel None) w.

(** [created] is how [connection.createChannel()] settles.  A call that has
    to wait for an attempt in flight is left pending. *)
Definition getChannel (env : nat -> Attempt) (created : Js.Completion AmqpChannel)
           (w : World) : option (Js.Completion (Promise AmqpChannel) * World) :=
  match channel (mgr w) with
  | Some ch => Some (Js.Normal (Settled ch), w)
  | None =>
      match connect env w with
      | None => None
      | Some (Js.Throw e, w) => Some (Js.Throw e, w)
      | Some (Js.Normal (Pending p), w) => Some (Js.Normal (Pending p), w)
      | Some (Js.Normal (Settled conn), w) =>
          let w := emit [CreateChannel conn] w in
          match created with
          | Js.Throw e => Some (Js.Throw e, w)
          | Js.Normal ch =>
              let w := update (set_channel (Some ch)) w in
              let w := emit [ListenChannel ch] w in
              Some (Js.Normal (Settled ch), w)
          end
      end
  end.

(** [this.connect().catch(...)]: the rejection is logged, nothing more. *)
Definition handleDisconnect (env : nat -> Attempt) (w : World) : option World :=
  let w := update (set_connection None) w in
  let w := update (set_channel None) w in
  if negb (isClosed (mgr w)) then
    match connect env w with
    | None => None
    | Some (_, w) => Some w
    end
  else Some w.

(** The handlers [connect] installs on a connection. *)
Definition onConnectionError (env : nat -> Attempt) (w : World) : option World :=
  handleDisconnect env w.

Definition onConnectionClose (env : nat -> Attempt) (w : World) : option World :=
  if negb (isClosed (mgr w)) then handleDisconnect env w else Some w.

(** Everything that can happen to a manager: the calls of its owner and the
    events of the broker objects it listens to. *)
Inductive Op : Type :=
| CallConnect (env : nat -> Attempt)
| CallGetChannel (env : nat -> Attempt) (created : Js.Completion AmqpChannel)
| CallClose (env : CloseEnv)
| ConnectionError (env : nat -> Attempt)
| ConnectionClose (env : nat -> Attempt)
| ChannelError
| ChannelClose.

Definition apply (op : Op) (w : World) : option World :=
  match op with
  | CallConnect env => option_map snd (connect env w)
  | CallGetChannel env created => option_map snd (getChannel env created w)
  | CallClose env => Some (snd (close env w))
  | ConnectionError env => onConnectionError env w
  | ConnectionClose env => onConnectionClose env w
  | ChannelError => Some (onChannelError w)
  | ChannelClose => Some (onChannelClose w)
  end.

Fixpoint applyAll (ops : list Op) (w : World) : option World :=
  match ops with
  | [] => Some w
  | op :: ops' =>
      match apply op w with
      | Some w' => applyAll ops' w'
      | None => None
      end
  end.

(** The calls of the owner that ask for a session, as opposed to [close]
    and to the events of the broker objects. *)
Definition asksForSession (op : Op) : bool :=
  match op with
  | CallConnect _ | CallGetChannel _ _ => true
  | _ => false
  end.

Definition fresh (options : ConnectionManagerOptions) : World :=
  mkWorld (constructor options) [] O.

(** The [Sleep] delays and the number of [amqp.connect] calls in a trace. *)
Definition delays (t : list Effect) : list Z :=
  flat_map (fun e => match e with Sleep d => [d] | _ => [] end) t.

Definition attempts (t : list Effect) : nat :=
  List.length (filter (fun e => match e with AmqpConnect _ => true | _ => false end) t).

(** The calls [close] makes on the broker objects of [m]: the channel
    first, then the connection. *)
Definition closeEffects (m : ConnectionManager) : list Effect :=
  match channel m with Some ch => [CloseChannel ch] | None => [] end ++
  match connection m with Some c => [CloseConnection c] | None => [] end.

(** [min(initialDelay * 2^(attempt-1), maxDelay)] *)
Definition backoffFor (m : ConnectionManager) (attempt : Z) : Z :=
  Z.min (initialRetryDelay m * 2 ^ (attempt - 1)) (maxRetryDelay m).

(** The attempt numbers [first], [first + 1], ... ([n] of them). *)
Definition attemptNumbers (first : Z) (n : nat) : list Z :=
  map (fun i => first + Z.of_nat i) (seq 0 n).

End Connection.

(* ====================================================================== *)
(** ** The consuming side of a broker channel *)
(* ====================================================================== *)

Module Amqp.

Record MessageFields : Type := mkFields {
  deliveryTag : Z;
  redelivered : bool;
  routingKey : string
}.

Record MessageProperties : Type := mkProperties {
  headers : list (string * Json.Value);
  messageId : option string
}.

(** [ConsumeMessage] *)
Record ConsumeMessage : Type := mkMessage {
  content : Json.Content;
  fields : MessageFields;
  properties : MessageProperties
}.

(** The signals a consumer sends on its channel. *)
Inductive Signal : Type :=
| Ack (msg : ConsumeMessage)
| Nack (msg : ConsumeMessage) (allUpTo requeue : bool).

(** The channel object a consumer holds: the signals sent on it, oldest
    first.  [ack] and [nack] are calls recorded on the channel; they do not
    throw. *)
Record Channel : Type := mkChannel { sent : list Signal }.

Definition ack (msg : ConsumeMessage) (ch : Channel) : Channel :=
  {| sent := sent ch ++ [Ack msg] |}.

Definition nack (msg : ConsumeMessage) (allUpTo requeue : bool) (ch : Channel)
  : Channel :=
  {| sent := sent ch ++ [Nack msg allUpTo requeue] |}.

Definition isRequeue (s : Signal) : bool :=
  match s with
  | Nack _ _ requeue => requeue
  | Ack _ => false
  end.



End Amqp.

(* ====================================================================== *)
(** ** The logger consumer *)
(* ====================================================================== *)

Module LoggerConsumer.
Import Json Amqp.
Import Messages.MESSAGE_TYPES.

(** What [formatMessageSummary] interpolates, by case of the [switch]. *)
Inductive Summary : Type :=
| IntensitySummary (forecast index actual : JsVal)
| GenerationSummary (topSources : list (JsVal * Q))
| WeatherSummary (city current description : JsVal)
| UnknownSummary (type : JsVal).

(** The lines written to the console. *)
Inductive Line : Type :=
| Received (receivedAt routingKey : string) (id : JsVal)
| Summarised (s : Summary)
| Failed (message : string).

Record State : Type := mkState {
  channel : option Channel;
  consumerTag : option string;
  isShuttingDown : bool;
  console : list Line
}.

Definition set_channel (c : option Channel) (s : State) : State :=
  mkState c (consumerTag s) (isShuttingDown s) (console s).
Definition log (l : Line) (s : State) : State :=
  mkState (channel s) (consumerTag s) (isShuttingDown s) (console s ++ [l]).

Definition initial : State := mkState None None false [].

(** What one invocation of the handler reads from outside. *)
Record HandlerEnv : Type := mkHandlerEnv {
  receivedAt : string;              (* [new Date().toISOString()] *)
  sortDescending : SortDescending
}.

Section Formatting.
Variable env : HandlerEnv.
Local Open Scope expr_scope.

(** One [(s) => `${s.fuel}: ${s.percentage.toFixed(1)}%`]. *)
Definition formatSource (s : Value) : Js.Completion (JsVal * Q) :=
  fuel <- get (Some s) "fuel" ;;
  interpolate fuel ;;;
  p <- get (Some s) "percentage" ;;
  q <- toFixed p ;;
  Js.Normal (fuel, q).

(** [data.mix.sort(...)] up to the sorted array. *)
Definition sortedMix (data : JsVal) : Js.Completion (list Value) :=
  mix <- get data "mix" ;;
  match mix with
  | None => Js.Throw (Js.TypeError "Cannot read properties of undefined")
  | Some Null => Js.Throw (Js.TypeError "Cannot read properties of null")
  | Some (Array items) => sortDescending env items
  | Some _ => Js.Throw (Js.TypeError "sort is not a function")
  end.

Definition formatMessageSummary (envelope : JsVal) : Js.Completion Summary :=
  type <- get envelope "type" ;;
  if strictEquals type CARBON_INTENSITY then
    data <- get envelope "data" ;;
    forecast <- get data "forecast" ;;
    interpolate forecast ;;;
    index <- get data "index" ;;
    interpolate index ;;;
    actual <- get data "actual" ;;
    interpolate (orPending actual) ;;;
    Js.Normal (IntensitySummary forecast index (orPending actual))
  else if strictEquals type CARBON_GENERATION then
    data <- get envelope "data" ;;
    sorted <- sortedMix data ;;
    topSources <- mapM formatSource (firstn 3 sorted) ;;
    Js.Normal (GenerationSummary topSources)
  else if strictEquals type WEATHER_CURRENT then
    data <- get envelope "data" ;;
    location <- get data "location" ;;
    city <- get location "city" ;;
    interpolate city ;;;
    temperature <- get data "temperature" ;;
    current <- get temperature "current" ;;
    interpolate current ;;;
    condition <- get data "condition" ;;
    description <- get condition "description" ;;
    interpolate description ;;;
    Js.Normal (WeatherSummary city current description)
  else
    interpolate type ;;;
    Js.Normal (UnknownSummary type).

Local Close Scope expr_scope.
Local Open Scope js_scope.

(** [channel.ack(msg)] and [channel.nack(msg, allUpTo, requeue)] on the
    module's channel, which the handler has found set. *)
Definition channel_ack (msg : ConsumeMessage) : Js.M State unit :=
  Js.modify (fun s => set_channel (option_map (ack msg) (channel s)) s).

Definition channel_nack (msg : ConsumeMessage) (allUpTo requeue : bool)
  : Js.M State unit :=
  Js.modify (fun s =>
    set_channel (option_map (nack msg allUpTo requeue) (channel s)) s).

(** The [try] block up to, and not including, [channel.ack(msg)]. *)
Definition processing (msg : ConsumeMessage) : Js.M State unit :=
  envelope <- Js.lift (JSON_parse (content msg)) ;;
  let routingKey := routingKey (fields msg) in
  id <- Js.lift (get (Some envelope) "id") ;;
  Js.lift (interpolate id) ;;;
  Js.modify (log (Received (receivedAt env) routingKey id)) ;;;
  summary <- Js.lift (formatMessageSummary (Some envelope)) ;;
  Js.modify (log (Summarised summary)).

Definition handleMessage (msg : option ConsumeMessage) : Js.M State unit :=
  fun st =>
    match msg, channel st with
    | None, _ => (Js.Normal tt, st)
    | _, None => (Js.Normal tt, st)
    | Some msg, Some _ =>
        Js.try_catch
          (processing msg ;;;
           (* Acknowledge the message *)
           channel_ack msg)
          (fun error =>
             Js.modify (log (Failed (Js.message error))) ;;;
             (* Reject without requeue on parse errors *)
             channel_nack msg false false)
          st
    end.

End Formatting.

(** The signals sent so far on the consumer's channel. *)
Definition signals (st : State) : list Signal :=
  match channel st with
  | Some ch => sent ch
  | None => []
  end.

(** The state once [main] has obtained [ch] from the connection manager. *)
Definition started (ch : Channel) : State := set_channel (Some ch) initial.

(** [ls] more lines on the console. *)
Definition logs (ls : list Line) (s : State) : State :=
  mkState (channel s) (consumerTag s) (isShuttingDown s) (console s ++ ls).

(** How often the handler got as far as logging envelope [id]. *)
Definition timesProcessed (id : string) (out : list Line) : nat :=
  List.length
    (filter (fun l => match l with
                      | Received _ _ (Some (Str x)) => String.eqb x id
                      | _ => false
                      end) out).

End LoggerConsumer.

(* ====================================================================== *)
(** ** The aggregator consumer *)
(* ====================================================================== *)

Module AggregatorConsumer.
Import Json Amqp.
Import Messages.MESSAGE_TYPES.

(** The lines written to the console. *)
Inductive Line : Type :=
| Processing (routingKey : string) (id : JsVal)
| Intensity (forecast actual index : JsVal)
| Period (periodStart periodEnd : JsVal)
| Generation (formatted : list (JsVal * Q))
| UnknownType (type : JsVal)
| Failed (message : string).

Record State : Type := mkState {
  channel : option Channel;
  consumerTag : option string;
  isShuttingDown : bool;
  console : list Line
}.

Definition set_channel (c : option Channel) (s : State) : State :=
  mkState c (consumerTag s) (isShuttingDown s) (console s).
Definition log (l : Line) (s : State) : State :=
  mkState (channel s) (consumerTag s) (isShuttingDown s) (console s ++ [l]).

Definition initial : State := mkState None None false [].

Record HandlerEnv : Type := mkHandlerEnv {
  sortDescending : SortDescending
}.

Section Handling.
Variable env : HandlerEnv.

Definition formatSource (s : Value) : Js.Completion (JsVal * Q) :=
  (fuel <- get (Some s) "fuel" ;;
   interpolate fuel ;;;
   p <- get (Some s) "percentage" ;;
   q <- toFixed p ;;
   Js.Normal (fuel, q))%expr.

Definition sortedMix (data : JsVal) : Js.Completion (list Value) :=
  (mix <- get data "mix" ;;
   match mix with
   | None => Js.Throw (Js.TypeError "Cannot read properties of undefined")
   | Some Null => Js.Throw (Js.TypeError "Cannot read properties of null")
   | Some (Array items) => sortDescending env items
   | Some _ => Js.Throw (Js.TypeError "sort is not a function")
   end)%expr.

Local Open Scope js_scope.

Definition processIntensity (data : JsVal) : Js.M State unit :=
  forecast <- Js.lift (get data "forecast") ;;
  Js.lift (interpolate forecast) ;;;
  actual <- Js.lift (get data "actual") ;;
  Js.lift (interpolate (orPending actual)) ;;;
  index <- Js.lift (get data "index") ;;
  Js.lift (interpolate index) ;;;
  Js.modify (log (Intensity forecast (orPending actual) index)) ;;;
  periodStart <- Js.lift (get data "periodStart") ;;
  Js.lift (interpolate periodStart) ;;;
  periodEnd <- Js.lift (get data "periodEnd") ;;
  Js.lift (interpolate periodEnd) ;;;
  Js.modify (log (Period periodStart periodEnd)).

Definition processGeneration (data : JsVal) : Js.M State unit :=
  sorted <- Js.lift (sortedMix data) ;;
  formatted <- Js.lift (mapM formatSource sorted) ;;
  Js.modify (log (Generation formatted)).

Definition channel_ack (msg : ConsumeMessage) : Js.M State unit :=
  Js.modify (fun s => set_channel (option_map (ack msg) (channel s)) s).

Definition channel_nack (msg : ConsumeMessage) (allUpTo requeue : bool)
  : Js.M State unit :=
  Js.modify (fun s =>
    set_channel (option_map (nack msg allUpTo requeue) (channel s)) s).

(** The [try] block up to, and not including, [channel.ack(msg)]. *)
Definition processing (msg : ConsumeMessage) : Js.M State unit :=
  envelope <- Js.lift (JSON_parse (content msg)) ;;
  let routingKey := routingKey (fields msg) in
  id <- Js.lift (get (Some envelope) "id") ;;
  Js.lift (interpolate id) ;;;
  Js.modify (log (Processing routingKey id)) ;;;
  type <- Js.lift (get (Some envelope) "type") ;;
  if strictEquals type CARBON_INTENSITY then
    data <- Js.lift (get (Some envelope) "data") ;;
    processIntensity data
  else if strictEquals type CARBON_GENERATION then
    data <- Js.lift (get (Some envelope) "data") ;;
    processGeneration data
  else
    Js.lift (interpolate type) ;;;
    Js.modify (log (UnknownType type)).

Definition handleMessage (msg : option ConsumeMessage) : Js.M State unit :=
  fun st =>
    match msg, channel st with
    | None, _ => (Js.Normal tt, st)
    | _, None => (Js.Normal tt, st)
    | Some msg, Some _ =>
        Js.try_catch
          (processing msg ;;;
           channel_ack msg)
          (fun error =>
             Js.modify (log (Failed (Js.message error))) ;;;
             channel_nack msg false false)
          st
    end.

End Handling.

Definition signals (st : State) : list Signal :=
  match channel st with
  | Some ch => sent ch
  | None => []
  end.

Definition started (ch : Channel) : State := set_channel (Some ch) initial.

Definition logs (ls : list Line) (s : State) : State :=
  mkState (channel s) (consumerTag s) (isShuttingDown s) (console s ++ ls).

Definition timesProcessed (id : string) (out : list Line) : nat :=
  List.length
    (filter (fun l => match l with
                      | Processing _ (Some (Str x)) => String.eqb x id
                      | _ => false
                      end) out).

End AggregatorConsumer.

(* ====================================================================== *)
(** ** Concrete inputs *)
(* ====================================================================== *)

Module Examples.
Import Json.

(** *** Ingestion *)

Definition carbonEnv : CarbonIngester.ProcessEnv :=
  CarbonIngester.mkProcessEnv None None.

(** The engine's sort on a mix that is listed in descending order: the
    sort is stable, so it returns the entries as they are. *)
Definition alreadySorted : CarbonIngester.SortMix := fun mix => Js.Normal mix.

(** The mock carbon API response of the testing notes. *)
Definition intensityResponse : CarbonIngester.IntensityApiResponse :=
  CarbonIngester.mkIntensityResponse
    [CarbonIngester.mkEntry "2024-01-15T10:00Z" "2024-01-15T10:30Z"
       (CarbonIngester.mkReading (195 # 1) (Some (192 # 1)) "moderate")].

Definition intensityOk (uuid : string)
  : CarbonIngester.PollEnv CarbonIngester.IntensityApiResponse :=
  CarbonIngester.mkPollEnv
    (Js.Normal (Http.mkResponse 200 "OK" (Js.Normal intensityResponse)))
    (Messages.mkRuntime uuid "2024-01-15T10:01:00.000Z")
    1705312860000
    "2024-01-15T10:01:00.000Z"
    alreadySorted.

Definition weatherEnv : WeatherIngester.ProcessEnv :=
  WeatherIngester.mkProcessEnv (Some "key") None None.

(** The mock weather API response of the testing notes. *)
Definition weatherResponse : WeatherIngester.WeatherApiResponse :=
  WeatherIngester.mkWeatherResponse
    (WeatherIngester.mkApiCoord (515074 # 10000) (-1278 # 10000))
    [WeatherIngester.mkApiWeather "Clouds" "overcast clouds"]
    (WeatherIngester.mkApiMain (85 # 10) (62 # 10) (82 # 1) (1015 # 1))
    (WeatherIngester.mkApiWind (42 # 10) (230 # 1))
    1705315500
    "London"
    (WeatherIngester.mkApiSys "GB").

Definition weatherOk (uuid : string) : WeatherIngester.PollEnv :=
  WeatherIngester.mkPollEnv
    (Js.Normal (Http.mkResponse 200 "OK" (Js.Normal weatherResponse)))
    (fun _ => Js.Normal "2024-01-15T10:45:00.000Z")
    (Messages.mkRuntime uuid "2024-01-15T10:46:00.000Z")
    1705315560000.

Definition weatherDown : WeatherIngester.PollEnv :=
  WeatherIngester.mkPollEnv
    (Js.Throw (Js.TypeError "fetch failed"))
    (fun _ => Js.Normal "2024-01-15T10:45:00.000Z")
    (Messages.mkRuntime "unused" "2024-01-15T10:56:00.000Z")
    1705316160000.

Definition generationResponse : CarbonIngester.GenerationApiResponse :=
  CarbonIngester.mkGenerationResponse
    [CarbonIngester.mkGenEntry "gas" (Some (Json.Number (385 # 10)));
     CarbonIngester.mkGenEntry "wind" (Some (Json.Number (301 # 10)));
     CarbonIngester.mkGenEntry "nuclear" (Some (Json.Number (152 # 10)))].

Definition generationOk (uuid : string)
  : CarbonIngester.PollEnv CarbonIngester.GenerationApiResponse :=
  CarbonIngester.mkPollEnv
    (Js.Normal (Http.mkResponse 200 "OK" (Js.Normal generationResponse)))
    (Messages.mkRuntime uuid "2024-01-15T10:01:00.000Z")
    1705312860000
    "2024-01-15T10:01:00.000Z"
    alreadySorted.

Definition generationDown
  : CarbonIngester.PollEnv CarbonIngester.GenerationApiResponse :=
  CarbonIngester.mkPollEnv
    (Js.Normal (Http.mkResponse 500 "Internal Server Error"
                  (Js.Throw (Js.SyntaxError "Unexpected token"))))
    (Messages.mkRuntime "unused" "2024-01-15T10:03:00.000Z")
    1705312980000
    "2024-01-15T10:03:00.000Z"
    alreadySorted.

Definition weatherStarted : WeatherIngester.State :=
  WeatherIngester.set_channel (Some (Broker.mkChannel []))
                              WeatherIngester.initial.

Definition intensityDown
  : CarbonIngester.PollEnv CarbonIngester.IntensityApiResponse :=
  CarbonIngester.mkPollEnv
    (Js.Normal (Http.mkResponse 503 "Service Unavailable"
                  (Js.Throw (Js.SyntaxError "Unexpected token"))))
    (Messages.mkRuntime "unused" "2024-01-15T10:03:00.000Z")
    1705312980000
    "2024-01-15T10:03:00.000Z"
    alreadySorted.

Definition emptyChannel : Broker.Channel := Broker.mkChannel [].

(** The carbon ingester once [main] has stored its channel. *)
Definition carbonStarted : CarbonIngester.State :=
  CarbonIngester.set_channel (Some emptyChannel) CarbonIngester.initial.

(** *** Connection manager *)

Definition localOptions : Connection.ConnectionManagerOptions :=
  Connection.mkManagerOptions "amqp://localhost" None None None.

Definition brokerDown : nat -> Connection.Attempt :=
  fun _ => Connection.mkAttempt
             (Js.Throw (Js.newError "connect ECONNREFUSED")) None.

Definition brokerUp (c : Connection.AmqpConnection) : nat -> Connection.Attempt :=
  fun _ => Connection.mkAttempt (Js.Normal c) None.

Definition quietClose : Connection.CloseEnv :=
  Connection.mkCloseEnv (Js.Normal tt) (Js.Normal tt).

(** A manager that holds connection 1 and channel 1. *)
Definition connectedWorld : Connection.World :=
  match Connection.getChannel (brokerUp 1%nat) (Js.Normal 1%nat)
                              (Connection.fresh localOptions) with
  | Some (_, w) => w
  | None => Connection.fresh localOptions
  end.

(** The same manager after its owner has called [close()]. *)
Definition closedWorld : Connection.World :=
  snd (Connection.close quietClose connectedWorld).

(** *** Consumption *)

Definition envelopeValue (id : string) (data : Value) : Value :=
  Object [("id", Str id);
          ("source", Str "carbon-ingester");
          ("type", Str "feed.carbon.intensity");
          ("timestamp", Str "2024-01-15T10:01:00.000Z");
          ("data", data)].

Definition intensityData : Value :=
  Object [("periodStart", Str "2024-01-15T10:00Z");
          ("periodEnd", Str "2024-01-15T10:30Z");
          ("forecast", Number (195 # 1));
          ("actual", Number (192 # 1));
          ("index", Str "moderate")].

Definition delivery (tag : Z) (redelivered : bool) (body : Content)
           (headers : list (string * Value)) : Amqp.ConsumeMessage :=
  Amqp.mkMessage body
    (Amqp.mkFields tag redelivered "feed.carbon.intensity")
    (Amqp.mkProperties headers None).

(** A well-formed carbon-intensity delivery. *)
Definition intensityDelivery : Amqp.ConsumeMessage :=
  delivery 1 false (Parses (envelopeValue "m-1" intensityData)) [].


(** A delivery whose body is not JSON. *)
Definition garbledDelivery : Amqp.ConsumeMessage :=
  delivery 3 false (Unparseable (Js.SyntaxError "Unexpected token")) [].

(** The body of the testing notes' [rabbitmqadmin publish] example:
    valid JSON that is not an envelope. *)
Definition testPayloadDelivery : Amqp.ConsumeMessage :=
  delivery 4 false (Parses (Object [("test", Bool true)])) [].

Definition loggerEnv : LoggerConsumer.HandlerEnv :=
  LoggerConsumer.mkHandlerEnv "2024-01-15T10:01:01.000Z" stableSortDescending.

Definition aggregatorEnv : AggregatorConsumer.HandlerEnv :=
  AggregatorConsumer.mkHandlerEnv stableSortDescending.

Definition loggerStarted : LoggerConsumer.State :=
  LoggerConsumer.started (Amqp.mkChannel []).

Definition aggregatorStarted : AggregatorConsumer.State :=
  AggregatorConsumer.started (Amqp.mkChannel []).

End Examples.

(* ====================================================================== *)
(** ** Runs of the ingesters: what is expected on the wire *)
(* ====================================================================== *)

Module Wire.
Import Messages.

(** The message properties agree with the envelope they accompany, and the
    message is persistent JSON addressed to the topic exchange. *)
Definition wellAddressed (p : Broker.Published) : Prop :=
  Broker.exchange p = Topology.EXCHANGES.TOPIC /\
  Broker.contentType (Broker.options p) = "application/json" /\
  Broker.contentEncoding (Broker.options p) = "utf-8" /\
  Broker.deliveryMode (Broker.options p) = 2 /\
  Broker.messageId (Broker.options p) = id (Broker.content p) /\
  Broker.appId (Broker.options p) = source (Broker.content p).

End Wire.

Module CarbonRuns.
Import CarbonIngester Messages.

(** The envelope id a polling event would publish under: the UUID drawn for
    it, when its fetch succeeds. *)
Definition fetchedId (ev : Event) : option string :=
  match ev with
  | IntensityPoll env =>
      match fetchIntensity (fetched env) with
      | Js.Normal _ => Some (randomUUID (runtime env))
      | Js.Throw _ => None
      end
  | GenerationPoll env =>
      match fetchGeneration (fetchIso env) (fetched env) with
      | Js.Normal _ => Some (randomUUID (runtime env))
      | Js.Throw _ => None
      end
  | Signal => None
  end.

(** The ids of the successful fetches of a run, in order, up to the
    termination signal. *)
Fixpoint expectedIds (down : bool) (evs : list Event) : list string :=
  match evs with
  | [] => []
  | Signal :: evs' => expectedIds true evs'
  | ev :: evs' =>
      if down then expectedIds down evs'
      else
        match fetchedId ev with
        | Some u => u :: expectedIds down evs'
        | None => expectedIds down evs'
        end
  end.

Definition isGenerationPoll (ev : Event) : bool :=
  match ev with GenerationPoll _ => true | _ => false end.

Definition isIntensityPoll (ev : Event) : bool :=
  match ev with IntensityPoll _ => true | _ => false end.

(** Whether the ingester holds a channel. *)
Definition hasChannel (st : State) : bool :=
  match channel st with Some _ => true | None => false end.

(** The outcomes of the events selected by [keep]. *)
Definition outcomesAt {O} (keep : Event -> bool) (evs : list Event)
           (outcomes : list O) : list O :=
  map snd (filter (fun p => keep (fst p)) (combine evs outcomes)).

(** What an invocation of a polling function may come to: it returns at
    once, it schedules the next poll after one of the two poll intervals, or
    it has waited a backoff between twice the base delay and the ceiling.
    It lets no exception escape. *)
Definition allowed (cfg : Config) (r : Js.Completion PollOutcome) : Prop :=
  match r with
  | Js.Throw _ => False
  | Js.Normal Skipped => True
  | Js.Normal (Scheduled interval) =>
      interval = intensityPollInterval cfg \/
      interval = generationPollInterval cfg
  | Js.Normal (Retried backoff) =>
      2 * baseRetryDelay cfg <= backoff <= maxRetryDelay cfg
  end.

End CarbonRuns.

Module WeatherRuns.
Import WeatherIngester.

(** A poll that meets the rate limit of the source. *)
Definition isRateLimited (ev : Event) : bool :=
  match ev with
  | WeatherPoll env =>
      match fetchWeather (toISO env) (fetched env) with
      | Js.Throw e => instanceofRateLimitError e
      | Js.Normal _ => false
      end
  | Signal => false
  end.

(** What an invocation of [pollWeather] may come to: as for the carbon
    ingester, or the fixed cooldown after a rate-limit answer. *)
Definition allowed (cfg : Config) (r : Js.Completion PollOutcome) : Prop :=
  match r with
  | Js.Throw _ => False
  | Js.Normal Skipped => True
  | Js.Normal (Scheduled interval) => interval = pollInterval cfg
  | Js.Normal (RateLimited cooldown) => cooldown = rateLimitDelay cfg
  | Js.Normal (Retried backoff) =>
      2 * baseRetryDelay cfg <= backoff <= maxRetryDelay cfg
  end.

End WeatherRuns.

(* ====================================================================== *)
(** ** What stays true of a connection manager *)
(* ====================================================================== *)

Module ManagerInvariant.
Import Connection.

(** A manager built from [options] and used since: it holds a channel only
    together with a connection, a connection only with the retry count back
    at zero, the retry count is never negative, and the configuration is the
    one it was constructed with. *)
Definition consistent (options : ConnectionManagerOptions) (w : World) : Prop :=
  (channel (mgr w) <> None -> connection (mgr w) <> None) /\
  (connection (mgr w) <> None -> retryCount (mgr w) = 0) /\
  0 <= retryCount (mgr w) /\
  url (mgr w) = o_url options /\
  maxRetries (mgr w) = nullish (o_maxRetries options) 10 /\
  initialRetryDelay (mgr w) = nullish (o_initialRetryDelay options) 1000 /\
  maxRetryDelay (mgr w) = nullish (o_maxRetryDelay options) 30000.

(** A manager that believes a [connect] is in flight and holds no
    connection. *)
Definition wedged (w : World) : Prop :=
  isConnecting (mgr w) = true /\ connection (mgr w) = None.

(** The waiting callers that a trace has settled, either way. *)
Definition settlements (t : list Effect) : list Waiter :=
  flat_map (fun e => match e with
                     | Resolve l _ => [l]
                     | Reject l _ => [l]
                     | _ => []
                     end) t.

(** From [w], the calls and events [ops] all come to an end, make no
    connection attempt and settle no caller, and they leave the manager
    wedged, so that a further [connect()] is again answered with a promise
    and does nothing. *)
Definition staysWedged (w : World) (ops : list Op) : Prop :=
  exists w',
    applyAll ops w = Some w' /\
    wedged w' /\
    attempts (trace w') = attempts (trace w) /\
    settlements (trace w') = settlements (trace w) /\
    forall env, exists w'',
      connect env w' = Some (Js.Normal (Pending (waiters w')), w'') /\
      trace w'' = trace w'.

End ManagerInvariant.

(* ====================================================================== *)
(** ** From a published envelope to a delivery *)
(* ====================================================================== *)

Module Serialised.
Import Messages Json.

(** [number | null] *)
Definition ofNullable (v : option Q) : Value :=
  match v with
  | Some q => Number q
  | None => Null
  end.

(** The values [JSON.parse] yields on the [JSON.stringify] of the payloads,
    field by field in the order the ingesters build them. *)
Definition intensityValue (d : CarbonIntensityData) : Value :=
  Object [("periodStart", Str (periodStart d));
          ("periodEnd", Str (periodEnd d));
          ("forecast", Number (forecast d));
          ("actual", ofNullable (actual d));
          ("index", Str (index d))].

(** [JSON.stringify] leaves out a key whose value is [undefined]. *)
Definition mixEntryValue (e : GenerationMixEntry) : Value :=
  Object (("fuel", Str (fuel e))
          :: match percentage e with
             | Some v => [("percentage", v)]
             | None => []
             end).

Definition generationValue (d : CarbonGenerationData) : Value :=
  Object [("timestamp", Str (gen_timestamp d));
          ("mix", Array (map mixEntryValue (mix d)))].

Definition weatherValue (d : WeatherCurrentData) : Value :=
  Object [("location",
           Object [("city", Str (city (location d)));
                   ("country", Str (country (location d)));
                   ("coordinates",
                    Object [("lat", Number (lat (coordinates (location d))));
                            ("lon", Number (lon (coordinates (location d))))])]);
          ("observedAt", Str (observedAt d));
          ("temperature",
           Object [("current", Number (current (temperature d)));
                   ("feelsLike", Number (feelsLike (temperature d)))]);
          ("humidity", Number (humidity d));
          ("pressure", Number (pressure d));
          ("wind",
           Object [("speed", Number (speed (wind d)));
                   ("direction", Number (direction (wind d)))]);
          ("condition",
           Object [("main", Str (main (condition d)));
                   ("description", Str (description (condition d)))])].

Definition payloadValue (p : Payload) : Value :=
  match p with
  | PIntensity d => intensityValue d
  | PGeneration d => generationValue d
  | PWeather d => weatherValue d
  end.

Definition envelopeValue (e : MessageEnvelope Payload) : Value :=
  Object [("id", Str (id e));
          ("source", Str (source e));
          ("type", Str (type e));
          ("timestamp", Str (timestamp e));
          ("data", payloadValue (data e))].

(** The delivery a queue makes of a published message: the body is the
    serialised envelope, the routing key and message id are those of the
    publish call, and the ingesters set no headers; the delivery tag and the
    redelivered flag are the broker's. *)
Definition delivered (p : Broker.Published) (tag : Z) (redelivered : bool)
  : Amqp.ConsumeMessage :=
  Amqp.mkMessage (Parses (envelopeValue (Broker.content p)))
                 (Amqp.mkFields tag redelivered (Broker.routingKey p))
                 (Amqp.mkProperties [] (Some (Broker.messageId (Broker.options p)))).

(** A percentage that is a number, as its declared type says. *)
Definition isNumber (v : JsVal) : bool :=
  match v with
  | Some (Number _) => true
  | _ => false
  end.

(** A payload whose generation mix, if it has one, carries numbers only. *)
Definition numericMix (p : Payload) : bool :=
  match p with
  | PGeneration d => forallb (fun e => isNumber (percentage e)) (mix d)
  | _ => true
  end.



End Serialised.

(* ====================================================================== *)
(** ** [setupTopology] *)
(* ====================================================================== *)

Module TopologySetup.
Import Topology.

(** The channel methods [setupTopology] awaits, with their arguments. *)
Inductive Call : Type :=
| AssertExchange (exchange type : string) (durable autoDelete : bool)
| AssertQueue (queue : string) (durable : bool)
              (deadLetterExchange : option string)
| BindQueue (queue source pattern : string).

(** What the function does, in order: calls on the channel and console
    lines. *)
Inductive Effect : Type :=
| Called (c : Call)
| Logged (line : string).

(** How the broker settles each call. *)
Definition Answers : Type := Call -> Js.Completion unit.

(** The double quote of the template literals. *)
Definition quote : string := String (Ascii.ascii_of_nat 34) EmptyString.

Section Setup.
Variable broker : Answers.
Local Open Scope js_scope.

(** [await channel.m(...)] *)
Definition await (c : Call) : Js.M (list Effect) unit :=
  fun t => (broker c, t ++ [Called c]).

Definition console_log (line : string) : Js.M (list Effect) unit :=
  Js.modify (fun t => t ++ [Logged line]).

(** [{ durable: true, deadLetterExchange: EXCHANGES.DLX }] *)
Definition assertWorkQueue (queue : string) : Js.M (list Effect) unit :=
  await (AssertQueue queue true (Some EXCHANGES.DLX)).

Definition bound (queue exchange pattern : string) : string :=
  ("[Topology] Bound " ++ queue ++ " to " ++ exchange ++ " with pattern "
     ++ quote ++ pattern ++ quote)%string.

Definition setupTopology : Js.M (list Effect) unit :=
  console_log "[Topology] Setting up RabbitMQ topology..." ;;;

  (* Create exchanges *)
  console_log "[Topology] Creating exchanges..." ;;;
  await (AssertExchange EXCHANGES.TOPIC "topic" true false) ;;;
  console_log ("[Topology] Created exchange: " ++ EXCHANGES.TOPIC ++ " (topic)")%string ;;;
  await (AssertExchange EXCHANGES.DLX "fanout" true false) ;;;
  console_log ("[Topology] Created exchange: " ++ EXCHANGES.DLX ++ " (fanout)")%string ;;;

  (* Create queues with dead letter exchange *)
  console_log "[Topology] Creating queues..." ;;;
  assertWorkQueue QUEUES.ALL ;;;
  console_log ("[Topology] Created queue: " ++ QUEUES.ALL)%string ;;;
  assertWorkQueue QUEUES.CARBON ;;;
  console_log ("[Topology] Created queue: " ++ QUEUES.CARBON)%string ;;;
  assertWorkQueue QUEUES.WEATHER ;;;
  console_log ("[Topology] Created queue: " ++ QUEUES.WEATHER)%string ;;;
  (* DLQ doesn't need a dead letter exchange itself *)
  await (AssertQueue QUEUES.DLQ true None) ;;;
  console_log ("[Topology] Created queue: " ++ QUEUES.DLQ)%string ;;;

  (* Create bindings *)
  console_log "[Topology] Creating bindings..." ;;;
  await (BindQueue QUEUES.ALL EXCHANGES.TOPIC BINDINGS.ALL) ;;;
  console_log (bound QUEUES.ALL EXCHANGES.TOPIC BINDINGS.ALL) ;;;
  await (BindQueue QUEUES.CARBON EXCHANGES.TOPIC BINDINGS.CARBON) ;;;
  console_log (bound QUEUES.CARBON EXCHANGES.TOPIC BINDINGS.CARBON) ;;;
  await (BindQueue QUEUES.WEATHER EXCHANGES.TOPIC BINDINGS.WEATHER) ;;;
  console_log (bound QUEUES.WEATHER EXCHANGES.TOPIC BINDINGS.WEATHER) ;;;
  (* Bind DLQ to the dead letter exchange *)
  await (BindQueue QUEUES.DLQ EXCHANGES.DLX "") ;;;
  console_log ("[Topology] Bound " ++ QUEUES.DLQ ++ " to " ++ EXCHANGES.DLX)%string ;;;

  console_log "[Topology] Setup complete!".

End Setup.

(** The calls of a trace, in order. *)
Definition calls (t : list Effect) : list Call :=
  flat_map (fun e => match e with Called c => [c] | Logged _ => [] end) t.

Definition mem (x : string) (l : list string) : bool :=
  existsb (String.eqb x) l.

(** Every exchange a call names (as the source of a binding or as a dead
    letter exchange) and every queue a binding names has been asserted by an
    earlier call. *)
Fixpoint declaredBeforeUse (exchanges queues : list string) (cs : list Call)
  : bool :=
  match cs with
  | [] => true
  | AssertExchange x _ _ _ :: cs' => declaredBeforeUse (x :: exchanges) queues cs'
  | AssertQueue q _ dlx :: cs' =>
      match dlx with Some x => mem x exchanges | None => true end
      && declaredBeforeUse exchanges (q :: queues) cs'
  | BindQueue q x _ :: cs' =>
      mem q queues && mem x exchanges && declaredBeforeUse exchanges queues cs'
  end.

Definition bindsQueue (q : string) (c : Call) : bool :=
  match c with BindQueue q' _ _ => String.eqb q' q | _ => false end.

Definition bindsTo (x : string) (c : Call) : bool :=
  match c with BindQueue _ x' _ => String.eqb x' x | _ => false end.

(** Every asserted queue is bound, and every dead letter exchange a queue
    names has a queue bound to it. *)
Definition fullyBound (cs : list Call) : bool :=
  forallb (fun c =>
             match c with
             | AssertQueue q _ dlx =>
                 existsb (bindsQueue q) cs
                 && match dlx with
                    | Some x => existsb (bindsTo x) cs
                    | None => true
                    end
             | _ => true
             end) cs.

End TopologySetup.

(* ====================================================================== *)
(** ** The shared connection manager *)
(* ====================================================================== *)

Module Singleton.
Import Connection.

(** [a ?? b] on strings *)
Definition orElse (v : option string) (d : string) : string :=
  match v with Some s => s | None => d end.

(** [getConnectionManager(url)]: the argument is the module variable
    [defaultManager] before the call, the result is the variable after it;
    what the function returns is a reference to the object the variable then
    holds.  [RABBITMQ_URL] is [process.env.RABBITMQ_URL] at the time of the
    call. *)
Definition getConnectionManager (url RABBITMQ_URL : option string)
           (defaultManager : option World) : option World :=
  match defaultManager with
  | Some manager => Some manager
  | None =>
      let connectionUrl := orElse url (orElse RABBITMQ_URL "amqp://localhost") in
      Some (fresh {| o_url := connectionUrl;
                     o_maxRetries := None;
                     o_initialRetryDelay := None;
                     o_maxRetryDelay := None |})
  end.

(** The options of the manager that a first call with these arguments
    constructs. *)
Definition optionsOf (url RABBITMQ_URL : option string) : ConnectionManagerOptions :=
  {| o_url := orElse url (orElse RABBITMQ_URL "amqp://localhost");
     o_maxRetries := None;
     o_initialRetryDelay := None;
     o_maxRetryDelay := None |}.

(** What the modules of a process do with the shared manager: ask for it,
    or use the reference they were given (a call or a broker event, as in
    [Connection.Op]).  Before the first [Get] nobody holds a reference. *)
Inductive Use : Type :=
| Get (url RABBITMQ_URL : option string)
| Do (op : Op).

Definition use (u : Use) (defaultManager : option World) : option (option World) :=
  match u with
  | Get url RABBITMQ_URL =>
      Some (getConnectionManager url RABBITMQ_URL defaultManager)
  | Do op =>
      match defaultManager with
      | Some manager => option_map Some (apply op manager)
      | None => Some None
      end
  end.

Fixpoint useAll (us : list Use) (defaultManager : option World)
  : option (option World) :=
  match us with
  | [] => Some defaultManager
  | u :: us' =>
      match use u defaultManager with
      | Some defaultManager' => useAll us' defaultManager'
      | None => None
      end
  end.

End Singleton.

(* ====================================================================== *)
(** ** Further concrete inputs *)
(* ====================================================================== *)

Module MoreExamples.

(** The weather source answers 429. *)
Definition weatherLimited : WeatherIngester.PollEnv :=
  WeatherIngester.mkPollEnv
    (Js.Normal (Http.mkResponse 429 "Too Many Requests"
                  (Js.Throw (Js.SyntaxError "Unexpected token"))))
    (fun _ => Js.Normal "2024-01-15T10:45:00.000Z")
    (Messages.mkRuntime "unused" "2024-01-15T10:50:00.000Z")
    1705315800000.

(** The broker refuses two attempts, then accepts with connection 7. *)
Definition brokerBackAfterTwo : nat -> Connection.Attempt :=
  fun k =>
    if (k <? 2)%nat
    then Connection.mkAttempt (Js.Throw (Js.newError "connect ECONNREFUSED")) None
    else Connection.mkAttempt (Js.Normal 7%nat) None.

(** A manager whose first [connect] is still awaiting the broker. *)
Definition connectingWorld : Connection.World :=
  Connection.update (Connection.set_isConnecting true)
                    (Connection.fresh Examples.localOptions).

(** The broker is down and the owner calls [close()] while the first
    attempt is awaited. *)
Definition closedWhileConnecting : nat -> Connection.Attempt :=
  fun _ => Connection.mkAttempt
             (Js.Throw (Js.newError "connect ECONNREFUSED"))
             (Some Examples.quietClose).

(** The broker accepts with connection 7 while the owner calls [close()]. *)
Definition acceptedWhileClosing : nat -> Connection.Attempt :=
  fun _ => Connection.mkAttempt (Js.Normal 7%nat) (Some Examples.quietClose).




(** The carbon API answers with a generation mix in which one percentage is
    [null]. *)
Definition generationWithNull (uuid : string)
  : CarbonIngester.PollEnv CarbonIngester.GenerationApiResponse :=
  CarbonIngester.mkPollEnv
    (Js.Normal
       (Http.mkResponse 200 "OK"
          (Js.Normal
             (CarbonIngester.mkGenerationResponse
                [CarbonIngester.mkGenEntry "gas" (Some (Json.Number (385 # 10)));
                 CarbonIngester.mkGenEntry "nuclear"
                                            (Some (Json.Number (152 # 10)));
                 CarbonIngester.mkGenEntry "wind" (Some Json.Null)]))))
    (Messages.mkRuntime uuid "2024-01-15T10:01:00.000Z")
    1705312860000
    "2024-01-15T10:01:00.000Z"
    Examples.alreadySorted.


End MoreExamples.

(* ====================================================================== *)
(** * Properties of the ingesters *)
(* ====================================================================== *)

Section CarbonPolling.
Import CarbonIngester Messages Topology.

Variable penv : ProcessEnv.

(** One invocation of [pollIntensity], by cases. *)
Lemma pollIntensity_cases (env : PollEnv IntensityApiResponse) (st : State) :
  pollIntensity penv env st =
  if isShuttingDown st then (Js.Normal Skipped, st)
  else
    match fetchIntensity (fetched env), channel st with
    | Js.Normal d, Some ch =>
        (Js.Normal (Scheduled (intensityPollInterval (CONFIG penv))),
         set_intensityTimer (Some (intensityPollInterval (CONFIG penv)))
           (set_intensityFailures 0
              (set_channel
                 (Some (Broker.publish
                          (publishCall (nowMs env)
                             (upcast PIntensity
                                (createCarbonIntensityMessage (runtime env) d))
                             ROUTING_KEYS.CARBON_INTENSITY) ch)) st)))
    | _, _ =>
        (Js.Normal (Retried (calculateBackoff (CONFIG penv)
                               (intensityFailures st + 1))),
         set_intensityFailures (intensityFailures st + 1) st)
    end.
Proof.
  unfold pollIntensity, Js.bind, Js.try_catch, Js.lift, publishMessage,
    Js.modify, Js.gets, Js.ret.
  destruct (isShuttingDown st) eqn:Hdown; [reflexivity|].
  destruct (fetchIntensity (fetched env)) as [d|e]; [|reflexivity].
  destruct (channel st) as [ch|]; [|reflexivity].
  cbn. rewrite Hdown. reflexivity.
Qed.

Lemma pollGeneration_cases (env : PollEnv GenerationApiResponse) (st : State) :
  pollGeneration penv env st =
  if isShuttingDown st then (Js.Normal Skipped, st)
  else
    match fetchGeneration (fetchIso env) (fetched env), channel st with
    | Js.Normal d, Some ch =>
        let published :=
          set_channel
            (Some (Broker.publish
                     (publishCall (nowMs env)
                        (upcast PGeneration
                           (createCarbonGenerationMessage (runtime env) d))
                        ROUTING_KEYS.CARBON_GENERATION) ch)) st in
        match topSources (sortDescending env) d with
        | Js.Normal _ =>
            (Js.Normal (Scheduled (generationPollInterval (CONFIG penv))),
             set_generationTimer (Some (generationPollInterval (CONFIG penv)))
               (set_generationFailures 0 published))
        | Js.Throw _ =>
            (Js.Normal (Retried (calculateBackoff (CONFIG penv)
                                   (generationFailures st + 1))),
             set_generationFailures (generationFailures st + 1) published)
        end
    | _, _ =>
        (Js.Normal (Retried (calculateBackoff (CONFIG penv)
                               (generationFailures st + 1))),
         set_generationFailures (generationFailures st + 1) st)
    end.
Proof.
  unfold pollGeneration, Js.bind, Js.try_catch, Js.lift, publishMessage,
    Js.modify, Js.gets, Js.ret.
  destruct (isShuttingDown st) eqn:Hdown; [reflexivity|].
  destruct (fetchGeneration (fetchIso env) (fetched env)) as [d|e];
    [|reflexivity].
  destruct (channel st) as [ch|]; [|reflexivity].
  cbv zeta.
  destruct (topSources (sortDescending env) d) as [top|e]; [|reflexivity].
  cbn. rewrite Hdown. reflexivity.
Qed.

(** What a step adds to the publish log. *)
Lemma carbon_step_publishes (ev : Event) (st : State) :
  exists o new,
    step penv ev st = (Js.Normal o, snd (step penv ev st)) /\
    publishedBy (snd (step penv ev st)) = publishedBy st ++ new /\
    Forall Broker.typeIsRoutingKey new.
Proof.
  destruct ev as [env|env|]; cbn [step].
  - rewrite pollIntensity_cases.
    destruct (isShuttingDown st).
    { exists Skipped, []. rewrite app_nil_r. auto. }
    destruct (fetchIntensity (fetched env)) as [d|e].
    + destruct (channel st) as [ch|] eqn:Hch; unfold publishedBy; cbn;
        rewrite Hch.
      * eexists _, [_]. repeat split. constructor; [reflexivity|constructor].
      * eexists _, []. repeat split. constructor.
    + eexists _, []. cbn. rewrite app_nil_r. repeat split. constructor.
  - rewrite pollGeneration_cases.
    destruct (isShuttingDown st).
    { exists Skipped, []. rewrite app_nil_r. auto. }
    destruct (fetchGeneration (fetchIso env) (fetched env)) as [d|e].
    + destruct (channel st) as [ch|] eqn:Hch; cbv zeta;
        [destruct (topSources (sortDescending env) d) as [top|e]|];
        unfold publishedBy; cbn; rewrite Hch.
      * eexists _, [_]. repeat split. constructor; [reflexivity|constructor].
      * eexists _, [_]. repeat split. constructor; [reflexivity|constructor].
      * eexists _, []. repeat split. constructor.
    + eexists _, []. cbn. rewrite app_nil_r. repeat split. constructor.
  - exists Skipped, []. cbn. rewrite app_nil_r. repeat split; [|constructor].
    unfold shutdown. destruct (isShuttingDown st); reflexivity.
Qed.

Lemma carbon_run_publishes (evs : list Event) :
  forall st, exists new,
    publishedBy (snd (run penv evs st)) = publishedBy st ++ new /\
    Forall Broker.typeIsRoutingKey new /\
    Forall (fun c => Js.isThrow c = false) (fst (run penv evs st)).
Proof.
  induction evs as [|ev evs IH]; intro st; cbn [run].
  - exists []. rewrite app_nil_r. repeat split; constructor.
  - destruct (carbon_step_publishes ev st) as (o & new & Hstep & Hlog & Hnew).
    rewrite Hstep.
    destruct (IH (snd (step penv ev st))) as (new' & Hlog' & Hnew' & Hok).
    destruct (run penv evs (snd (step penv ev st))) as [os st''] eqn:Hrun.
    cbn [fst snd] in *.
    exists (new ++ new'). rewrite Hlog', Hlog, app_assoc.
    repeat split.
    + apply Forall_app; auto.
    + constructor; [reflexivity|assumption].
Qed.

End CarbonPolling.

Section WeatherPolling.
Import WeatherIngester Messages Topology.

Variable penv : ProcessEnv.

(** One invocation of [pollWeather], by cases. *)
Lemma pollWeather_cases (env : PollEnv) (st : State) :
  pollWeather penv env st =
  if isShuttingDown st then (Js.Normal Skipped, st)
  else
    match fetchWeather (toISO env) (fetched env) with
    | Js.Normal d =>
        match channel st with
        | Some ch =>
            (Js.Normal (Scheduled (pollInterval (CONFIG penv))),
             set_pollTimer (Some (pollInterval (CONFIG penv)))
               (set_failures 0
                  (set_channel
                     (Some (Broker.publish
                              (publishCall (nowMs env)
                                 (upcast PWeather
                                    (createWeatherCurrentMessage (runtime env) d))
                                 ROUTING_KEYS.WEATHER_CURRENT) ch)) st)))
        | None =>
            (Js.Normal (Retried (calculateBackoff (CONFIG penv) (failures st + 1))),
             set_failures (failures st + 1) st)
        end
    | Js.Throw e =>
        if instanceofRateLimitError e then
          (Js.Normal (RateLimited (rateLimitDelay (CONFIG penv))), st)
        else
          (Js.Normal (Retried (calculateBackoff (CONFIG penv) (failures st + 1))),
           set_failures (failures st + 1) st)
    end.
Proof.
  unfold pollWeather, Js.bind, Js.try_catch, Js.lift, publishMessage,
    Js.modify, Js.gets, Js.ret.
  destruct (isShuttingDown st) eqn:Hdown; [reflexivity|].
  destruct (fetchWeather (toISO env) (fetched env)) as [d|e].
  - destruct (channel st) as [ch|]; [|reflexivity].
    cbn. rewrite Hdown. reflexivity.
  - destruct (instanceofRateLimitError e); reflexivity.
Qed.

Lemma weather_step_publishes (ev : Event) (st : State) :
  exists o new,
    step penv ev st = (Js.Normal o, snd (step penv ev st)) /\
    publishedBy (snd (step penv ev st)) = publishedBy st ++ new /\
    Forall Broker.typeIsRoutingKey new.
Proof.
  destruct ev as [env|]; cbn [step].
  - rewrite pollWeather_cases.
    destruct (isShuttingDown st).
    { exists Skipped, []. rewrite app_nil_r. auto. }
    destruct (fetchWeather (toISO env) (fetched env)) as [d|e].
    + destruct (channel st) as [ch|] eqn:Hch; unfold publishedBy; cbn;
        rewrite Hch.
      * eexists _, [_]. repeat split. constructor; [reflexivity|constructor].
      * eexists _, []. repeat split. constructor.
    + destruct (instanceofRateLimitError e);
        eexists _, []; cbn; rewrite app_nil_r; repeat split; constructor.
  - exists Skipped, []. cbn. rewrite app_nil_r. repeat split; [|constructor].
    unfold shutdown. destruct (isShuttingDown st); reflexivity.
Qed.

Lemma weather_run_publishes (evs : list Event) :
  forall st, exists new,
    publishedBy (snd (run penv evs st)) = publishedBy st ++ new /\
    Forall Broker.typeIsRoutingKey new /\
    Forall (fun c => Js.isThrow c = false) (fst (run penv evs st)).
Proof.
  induction evs as [|ev evs IH]; intro st; cbn [run].
  - exists []. rewrite app_nil_r. repeat split; constructor.
  - destruct (weather_step_publishes ev st) as (o & new & Hstep & Hlog & Hnew).
    rewrite Hstep.
    destruct (IH (snd (step penv ev st))) as (new' & Hlog' & Hnew' & Hok).
    destruct (run penv evs (snd (step penv ev st))) as [os st''] eqn:Hrun.
    cbn [fst snd] in *.
    exists (new ++ new'). rewrite Hlog', Hlog, app_assoc.
    repeat split.
    + apply Forall_app; auto.
    + constructor; [reflexivity|assumption].
Qed.

End WeatherPolling.

(** C1. Every envelope an ingester publishes carries as its [type] the
    routing key it is published with: whatever the carbon or the weather
    ingester adds to its channel's publish log during a run satisfies
    [type = routingKey]; in particular a carbon-intensity envelope has type
    [feed.carbon.intensity] and goes out under the routing key
    [feed.carbon.intensity]. *)
Theorem envelope_type_is_routing_key :
  (forall penv evs st, exists new,
      CarbonIngester.publishedBy (snd (CarbonIngester.run penv evs st))
      = CarbonIngester.publishedBy st ++ new /\
      Forall Broker.typeIsRoutingKey new) /\
  (forall penv evs st, exists new,
      WeatherIngester.publishedBy (snd (WeatherIngester.run penv evs st))
      = WeatherIngester.publishedBy st ++ new /\
      Forall Broker.typeIsRoutingKey new) /\
  (forall nowMs rt d,
      let p := CarbonIngester.publishCall nowMs
                 (Messages.upcast Messages.PIntensity
                    (Messages.createCarbonIntensityMessage rt d))
                 Topology.ROUTING_KEYS.CARBON_INTENSITY in
      Messages.type (Broker.content p) = "feed.carbon.intensity" /\
      Broker.routingKey p = "feed.carbon.intensity").
Proof.
  split; [|split].
  - intros penv evs st.
    destruct (carbon_run_publishes penv evs st) as (new & Hlog & Hnew & _).
    exists new. split; assumption.
  - intros penv evs st.
    destruct (weather_run_publishes penv evs st) as (new & Hlog & Hnew & _).
    exists new. split; assumption.
  - intros nowMs rt d. split; reflexivity.
Qed.

(** ** Backoff of the ingesters *)

Lemma carbon_backoff_capped (cfg : CarbonIngester.Config) (failures : Z) :
  CarbonIngester.calculateBackoff cfg failures <= CarbonIngester.maxRetryDelay cfg.
Proof. unfold CarbonIngester.calculateBackoff. apply Z.le_min_r. Qed.

Lemma carbon_backoff_monotone (penv : CarbonIngester.ProcessEnv) (failures : Z) :
  0 <= failures ->
  CarbonIngester.calculateBackoff (CarbonIngester.CONFIG penv) failures
  <= CarbonIngester.calculateBackoff (CarbonIngester.CONFIG penv) (failures + 1).
Proof.
  intro Hf. unfold CarbonIngester.calculateBackoff.
  cbn [CarbonIngester.baseRetryDelay CarbonIngester.maxRetryDelay
       CarbonIngester.CONFIG].
  replace (failures + 1) with (Z.succ failures) by lia.
  rewrite Z.pow_succ_r by assumption.
  assert (0 < 2 ^ failures) by (apply Z.pow_pos_nonneg; lia).
  apply Z.min_le_compat_r. lia.
Qed.

Lemma weather_backoff_capped (cfg : WeatherIngester.Config) (failureCount : Z) :
  WeatherIngester.calculateBackoff cfg failureCount
  <= WeatherIngester.maxRetryDelay cfg.
Proof. unfold WeatherIngester.calculateBackoff. apply Z.le_min_r. Qed.

Lemma weather_backoff_monotone (penv : WeatherIngester.ProcessEnv) (failureCount : Z) :
  0 <= failureCount ->
  WeatherIngester.calculateBackoff (WeatherIngester.CONFIG penv) failureCount
  <= WeatherIngester.calculateBackoff (WeatherIngester.CONFIG penv) (failureCount + 1).
Proof.
  intro Hf. unfold WeatherIngester.calculateBackoff.
  cbn [WeatherIngester.baseRetryDelay WeatherIngester.maxRetryDelay
       WeatherIngester.CONFIG].
  replace (failureCount + 1) with (Z.succ failureCount) by lia.
  rewrite Z.pow_succ_r by assumption.
  assert (0 < 2 ^ failureCount) by (apply Z.pow_pos_nonneg; lia).
  apply Z.min_le_compat_r. lia.
Qed.

(** A failing invocation of [pollIntensity] sleeps for the backoff of the
    incremented counter. *)
Lemma pollIntensity_failure penv env st e :
  CarbonIngester.isShuttingDown st = false ->
  CarbonIngester.fetchIntensity (CarbonIngester.fetched env) = Js.Throw e ->
  CarbonIngester.pollIntensity penv env st =
  (Js.Normal (CarbonIngester.Retried
                (CarbonIngester.calculateBackoff (CarbonIngester.CONFIG penv)
                   (CarbonIngester.intensityFailures st + 1))),
   CarbonIngester.set_intensityFailures
     (CarbonIngester.intensityFailures st + 1) st).
Proof.
  intros Hdown Hfetch. rewrite pollIntensity_cases, Hdown, Hfetch. reflexivity.
Qed.

(** C6 (the code at the failing input). After a successful poll has reset the
    counter, the next failing poll of the carbon ingester waits
    [min(baseRetryDelay * 2^1, maxRetryDelay)], that is 10000 ms: twice
    [baseRetryDelay], not [baseRetryDelay]. *)
Theorem first_backoff_after_success_is_twice_base :
  forall penv ok bad st ch d e,
    CarbonIngester.isShuttingDown st = false ->
    CarbonIngester.channel st = Some ch ->
    CarbonIngester.fetchIntensity (CarbonIngester.fetched ok) = Js.Normal d ->
    CarbonIngester.fetchIntensity (CarbonIngester.fetched bad) = Js.Throw e ->
    fst (CarbonIngester.run penv
           [CarbonIngester.IntensityPoll ok; CarbonIngester.IntensityPoll bad] st)
    = [Js.Normal (CarbonIngester.Scheduled
                    (CarbonIngester.intensityPollInterval
                       (CarbonIngester.CONFIG penv)));
       Js.Normal (CarbonIngester.Retried
                    (2 * CarbonIngester.baseRetryDelay
                           (CarbonIngester.CONFIG penv)))] /\
    2 * CarbonIngester.baseRetryDelay (CarbonIngester.CONFIG penv) = 10000 /\
    CarbonIngester.baseRetryDelay (CarbonIngester.CONFIG penv) = 5000.
Proof.
  intros penv ok bad st ch d e Hdown Hch Hok Hbad.
  split; [|split; reflexivity].
  cbn [CarbonIngester.run CarbonIngester.step].
  rewrite pollIntensity_cases, Hdown, Hok, Hch.
  rewrite pollIntensity_failure with (e := e); [reflexivity|exact Hdown|exact Hbad].
Qed.

Lemma first_backoff_after_success_is_twice_base_witness :
  CarbonIngester.isShuttingDown Examples.carbonStarted = false /\
  CarbonIngester.channel Examples.carbonStarted = Some Examples.emptyChannel /\
  fst (CarbonIngester.run Examples.carbonEnv
         [CarbonIngester.IntensityPoll (Examples.intensityOk "u1");
          CarbonIngester.IntensityPoll Examples.intensityDown]
         Examples.carbonStarted)
  = [Js.Normal (CarbonIngester.Scheduled 120000);
     Js.Normal (CarbonIngester.Retried 10000)].
Proof.
  split; [reflexivity|split; [reflexivity|]].
  exact (proj1 (first_backoff_after_success_is_twice_base
                  Examples.carbonEnv (Examples.intensityOk "u1")
                  Examples.intensityDown Examples.carbonStarted
                  Examples.emptyChannel _ _
                  eq_refl eq_refl eq_refl eq_refl)).
Defined.

Lemma carbon_backoff_nondecreasing (penv : CarbonIngester.ProcessEnv) (a : Z) (n : nat) :
  0 <= a ->
  CarbonIngester.calculateBackoff (CarbonIngester.CONFIG penv) a
  <= CarbonIngester.calculateBackoff (CarbonIngester.CONFIG penv) (a + Z.of_nat n).
Proof.
  intro Ha. induction n as [|n IH].
  - rewrite Z.add_0_r. lia.
  - etransitivity; [exact IH|].
    replace (a + Z.of_nat (S n)) with (a + Z.of_nat n + 1) by lia.
    apply carbon_backoff_monotone. lia.
Qed.

(** Consecutive failing polls: the [i]-th one (from 0) waits the backoff of
    the counter it has just incremented. *)
Lemma consecutive_intensity_failures penv envs :
  forall st,
    CarbonIngester.isShuttingDown st = false ->
    Forall (fun env => exists e,
              CarbonIngester.fetchIntensity (CarbonIngester.fetched env)
              = Js.Throw e) envs ->
    fst (CarbonIngester.run penv (map CarbonIngester.IntensityPoll envs) st)
    = map (fun i => Js.Normal
                      (CarbonIngester.Retried
                         (CarbonIngester.calculateBackoff
                            (CarbonIngester.CONFIG penv)
                            (CarbonIngester.intensityFailures st + 1 + Z.of_nat i))))
          (seq 0 (List.length envs)).
Proof.
  induction envs as [|env envs IH]; intros st Hdown Hall; [reflexivity|].
  inversion Hall as [|? ? [e He] Hrest]; subst.
  cbn [map CarbonIngester.run CarbonIngester.step List.length seq].
  rewrite pollIntensity_failure with (e := e) by assumption.
  specialize (IH (CarbonIngester.set_intensityFailures
                    (CarbonIngester.intensityFailures st + 1) st) Hdown Hrest).
  destruct (CarbonIngester.run penv (map CarbonIngester.IntensityPoll envs) _)
    as [os st''].
  cbn [fst] in *. rewrite IH, Z.add_0_r. f_equal.
  rewrite <- seq_shift, map_map. apply map_ext. intro i.
  cbn [CarbonIngester.intensityFailures CarbonIngester.set_intensityFailures].
  do 3 f_equal. lia.
Qed.

(** ** Publishing while the channel is unset *)

(** C2 (as stated, at a concrete input). The carbon ingester polls while its
    channel is unset: the fetch succeeds and envelope [u1] is built, but it
    is kept nowhere (the state changes by the failure counter alone); when a
    channel is then set and the next poll publishes, [u1] is not among the
    published envelopes. *)
Lemma unpublished_envelope_is_dropped :
  let st1 := snd (CarbonIngester.pollIntensity Examples.carbonEnv
                    (Examples.intensityOk "u1") CarbonIngester.initial) in
  let st2 := snd (CarbonIngester.pollIntensity Examples.carbonEnv
                    (Examples.intensityOk "u2")
                    (CarbonIngester.set_channel (Some Examples.emptyChannel) st1)) in
  CarbonIngester.channel CarbonIngester.initial = None /\
  st1 = CarbonIngester.set_intensityFailures 1 CarbonIngester.initial /\
  Broker.envelopeIds (CarbonIngester.publishedBy st2) = ["u2"] /\
  ~ In "u1" (Broker.envelopeIds (CarbonIngester.publishedBy st2)).
Proof.
  cbv zeta. repeat split.
  cbn. intros [H|[]]. discriminate H.
Qed.

(** C2 (amended). With the channel unset, [publishMessage] throws
    [Channel not available] and publishes nothing; the polling function that
    called it catches the error, so no exception escapes, counts one more
    failure and waits the backoff before fetching again; the state changes by
    the failure counter alone, so the envelope is not buffered.  No polling
    function of either ingester ever lets an exception escape. *)
Theorem unavailable_channel_counts_as_failure :
  (forall nowMs message routingKey st,
      CarbonIngester.channel st = None ->
      CarbonIngester.publishMessage nowMs message routingKey st
      = (Js.Throw (Js.newError "Channel not available"), st)) /\
  (forall nowMs message routingKey st,
      WeatherIngester.channel st = None ->
      WeatherIngester.publishMessage nowMs message routingKey st
      = (Js.Throw (Js.newError "Channel not available"), st)) /\
  (forall penv env st,
      CarbonIngester.channel st = None ->
      CarbonIngester.isShuttingDown st = false ->
      CarbonIngester.pollIntensity penv env st
      = (Js.Normal (CarbonIngester.Retried
                      (CarbonIngester.calculateBackoff
                         (CarbonIngester.CONFIG penv)
                         (CarbonIngester.intensityFailures st + 1))),
         CarbonIngester.set_intensityFailures
           (CarbonIngester.intensityFailures st + 1) st)) /\
  (forall penv env st,
      CarbonIngester.channel st = None ->
      CarbonIngester.isShuttingDown st = false ->
      CarbonIngester.pollGeneration penv env st
      = (Js.Normal (CarbonIngester.Retried
                      (CarbonIngester.calculateBackoff
                         (CarbonIngester.CONFIG penv)
                         (CarbonIngester.generationFailures st + 1))),
         CarbonIngester.set_generationFailures
           (CarbonIngester.generationFailures st + 1) st)) /\
  (forall penv env st d,
      WeatherIngester.channel st = None ->
      WeatherIngester.isShuttingDown st = false ->
      WeatherIngester.fetchWeather (WeatherIngester.toISO env)
                                   (WeatherIngester.fetched env) = Js.Normal d ->
      WeatherIngester.pollWeather penv env st
      = (Js.Normal (WeatherIngester.Retried
                      (WeatherIngester.calculateBackoff
                         (WeatherIngester.CONFIG penv)
                         (WeatherIngester.failures st + 1))),
         WeatherIngester.set_failures (WeatherIngester.failures st + 1) st)) /\
  (forall penv ev st,
      Js.isThrow (fst (CarbonIngester.step penv ev st)) = false) /\
  (forall penv ev st,
      Js.isThrow (fst (WeatherIngester.step penv ev st)) = false).
Proof.
  repeat apply conj.
  - intros nowMs message routingKey st Hch.
    unfold CarbonIngester.publishMessage. rewrite Hch. reflexivity.
  - intros nowMs message routingKey st Hch.
    unfold WeatherIngester.publishMessage. rewrite Hch. reflexivity.
  - intros penv env st Hch Hdown.
    rewrite pollIntensity_cases, Hdown, Hch.
    destruct (CarbonIngester.fetchIntensity _); reflexivity.
  - intros penv env st Hch Hdown.
    rewrite pollGeneration_cases, Hdown, Hch.
    destruct (CarbonIngester.fetchGeneration _ _); reflexivity.
  - intros penv env st d Hch Hdown Hfetch.
    rewrite pollWeather_cases, Hdown, Hfetch, Hch. reflexivity.
  - intros penv ev st.
    destruct (carbon_step_publishes penv ev st) as (o & new & Hstep & _).
    rewrite Hstep. reflexivity.
  - intros penv ev st.
    destruct (weather_step_publishes penv ev st) as (o & new & Hstep & _).
    rewrite Hstep. reflexivity.
Qed.

Lemma unavailable_channel_counts_as_failure_witness :
  CarbonIngester.channel CarbonIngester.initial = None /\
  CarbonIngester.isShuttingDown CarbonIngester.initial = false /\
  CarbonIngester.pollIntensity Examples.carbonEnv (Examples.intensityOk "u1")
                               CarbonIngester.initial
  = (Js.Normal (CarbonIngester.Retried 10000),
     CarbonIngester.set_intensityFailures 1 CarbonIngester.initial).
Proof.
  split; [reflexivity|split; [reflexivity|]].
  exact (proj1 (proj2 (proj2 unavailable_channel_counts_as_failure))
           Examples.carbonEnv (Examples.intensityOk "u1")
           CarbonIngester.initial eq_refl eq_refl).
Defined.

(* ====================================================================== *)
(** * Properties of the connection manager *)
(* ====================================================================== *)

Section ManagerFacts.
Import Connection.

Lemma attempts_app (t1 t2 : list Effect) :
  attempts (t1 ++ t2) = (attempts t1 + attempts t2)%nat.
Proof. unfold attempts. rewrite filter_app, length_app. reflexivity. Qed.

Lemma delays_app (t1 t2 : list Effect) :
  delays (t1 ++ t2) = delays t1 ++ delays t2.
Proof. unfold delays. apply flat_map_app. Qed.

(** [close] never throws, whatever the two [close()] calls do; it leaves
    the manager closed, without channel and without connection, and touches
    nothing else. *)
Lemma close_spec (env : CloseEnv) (w : World) :
  exists w',
    close env w = (Js.Normal tt, w') /\
    isClosed (mgr w') = true /\
    channel (mgr w') = None /\
    connection (mgr w') = None /\
    trace w' = trace w ++ closeEffects (mgr w) /\
    waiters w' = waiters w /\
    url (mgr w') = url (mgr w) /\
    maxRetries (mgr w') = maxRetries (mgr w) /\
    initialRetryDelay (mgr w') = initialRetryDelay (mgr w) /\
    maxRetryDelay (mgr w') = maxRetryDelay (mgr w) /\
    isConnecting (mgr w') = isConnecting (mgr w) /\
    retryCount (mgr w') = retryCount (mgr w) /\
    connectionListeners (mgr w') = connectionListeners (mgr w) /\
    errorListeners (mgr w') = errorListeners (mgr w).
Proof.
  destruct w as [m t n].
  unfold close, closeEffects, awaitClose, Js.bind, Js.try_catch, Js.modify,
    Js.gets, Js.ret, update, emit.
  cbn [mgr trace waiters channel connection set_isClosed].
  destruct (channel m) as [ch|] eqn:Hch, (connection m) as [c|] eqn:Hc;
    destruct (channelClose env), (connectionClose env);
    cbn; rewrite ?Hc; cbn; rewrite <- ?app_assoc, ?app_nil_r;
    eexists; repeat split; cbn; assumption.
Qed.

Lemma attempts_closeEffects (m : ConnectionManager) :
  attempts (closeEffects m) = O.
Proof.
  unfold closeEffects. destruct (channel m), (connection m); reflexivity.
Qed.

Lemma delays_closeEffects (m : ConnectionManager) :
  delays (closeEffects m) = [].
Proof.
  unfold closeEffects. destruct (channel m), (connection m); reflexivity.
Qed.

Lemma delays_rejects (ls : list Waiter) (e : Js.Error) :
  delays (map (fun l => Reject l e) ls) = [].
Proof. induction ls; [reflexivity|assumption]. Qed.

Lemma attempts_rejects (ls : list Waiter) (e : Js.Error) :
  attempts (map (fun l => Reject l e) ls) = O.
Proof. induction ls; [reflexivity|assumption]. Qed.

Lemma attempts_resolves (ls : list Waiter) (c : AmqpConnection) :
  attempts (map (fun l => Resolve l c) ls) = O.
Proof. induction ls; [reflexivity|assumption]. Qed.

Lemma attemptNumbers_S (first : Z) (n : nat) :
  attemptNumbers first (S n) = first :: attemptNumbers (first + 1) n.
Proof.
  unfold attemptNumbers. cbn [seq map]. rewrite Z.add_0_r. f_equal.
  rewrite <- seq_shift, map_map. apply map_ext. intro i. lia.
Qed.

(** An interruption changes neither the retry bookkeeping nor the
    configuration. *)
Lemma interrupt_spec (a : Attempt) (w : World) :
  maxRetries (mgr (interrupt a w)) = maxRetries (mgr w) /\
  retryCount (mgr (interrupt a w)) = retryCount (mgr w).
Proof.
  unfold interrupt. destruct (closeCalled a) as [cenv|]; [|split; reflexivity].
  destruct (close_spec cenv w) as (w' & Hc & H). rewrite Hc. cbn [snd].
  split; apply H.
Qed.

(** Enough fuel: the loop always comes to an end within [loop_bound]
    iterations. *)
Lemma connect_loop_total (fuel : nat) :
  forall env k w,
    (Z.to_nat (maxRetries (mgr w) + 1 - retryCount (mgr w)) < fuel)%nat ->
    exists r, connect_loop fuel env k w = Some r.
Proof.
  induction fuel as [|fuel IH]; intros env k w Hfuel; [lia|].
  cbn [connect_loop].
  destruct ((retryCount (mgr w) <=? maxRetries (mgr w))
            && negb (isClosed (mgr w))) eqn:Hcond; [|eexists; reflexivity].
  apply andb_true_iff in Hcond. destruct Hcond as [Hle _].
  apply Z.leb_le in Hle.
  cbv zeta.
  destruct (interrupt_spec (env k) (emit [AmqpConnect (url (mgr w))] w))
    as [HM Hr].
  set (w1 := interrupt (env k) (emit [AmqpConnect (url (mgr w))] w)) in *.
  cbn [emit mgr] in HM, Hr.
  destruct (settles (env k)) as [conn|error]; [eexists; reflexivity|].
  match goal with |- context [if ?c then _ else _] => destruct c end;
    [eexists; reflexivity|].
  apply IH. cbn [emit update mgr maxRetries retryCount set_retryCount].
  rewrite HM, Hr. lia.
Qed.

Lemma connect_total (env : nat -> Attempt) (w : World) :
  exists r, connect env w = Some r.
Proof.
  unfold connect.
  destruct (connection (mgr w)); [eexists; reflexivity|].
  destruct (isConnecting (mgr w)); [eexists; reflexivity|].
  apply connect_loop_total. unfold loop_bound. lia.
Qed.

(** The loop against a broker that refuses every attempt, with no
    interruption: [n] more retries are left before the ceiling. *)
Lemma connect_loop_all_fail (errs : nat -> Js.Error) (env : nat -> Attempt) :
  (forall j, env j = mkAttempt (Js.Throw (errs j)) None) ->
  forall n fuel k w,
    isClosed (mgr w) = false ->
    retryCount (mgr w) + Z.of_nat n = maxRetries (mgr w) ->
    (n < fuel)%nat ->
    exists w' t,
      connect_loop fuel env k w
      = Some (Js.Throw (finalError (mgr w) (errs (k + n)%nat)), w') /\
      trace w' = trace w ++ t /\
      delays t = map (backoffFor (mgr w))
                     (attemptNumbers (retryCount (mgr w) + 1) n) /\
      attempts t = S n /\
      waiters w' = waiters w /\
      mgr w' = set_errorListeners []
                 (set_isConnecting false
                    (set_retryCount (maxRetries (mgr w) + 1) (mgr w))).
Proof.
  intros Henv n.
  induction n as [|n IH]; intros fuel k w Hopen Hleft Hfuel;
    (destruct fuel as [|fuel]; [lia|]);
    cbn [connect_loop]; rewrite Hopen, Henv;
    unfold interrupt; cbn [closeCalled settles negb];
    rewrite andb_true_r.
  - replace (retryCount (mgr w) <=? maxRetries (mgr w)) with true
      by (symmetry; apply Z.leb_le; lia).
    cbv zeta. cbn [emit update mgr retryCount set_retryCount maxRetries].
    replace (retryCount (mgr w) + 1 >? maxRetries (mgr w)) with true
      by (symmetry; rewrite Z.gtb_ltb; apply Z.ltb_lt; lia).
    eexists. eexists. split; [rewrite Nat.add_0_r; reflexivity|].
    cbn [trace mgr waiters set_isConnecting set_retryCount errorListeners
         update emit].
    rewrite <- app_assoc. split; [reflexivity|].
    rewrite delays_app, attempts_app, delays_rejects, attempts_rejects.
    repeat split.
    replace (maxRetries (mgr w) + 1) with (retryCount (mgr w) + 1) by lia.
    reflexivity.
  - replace (retryCount (mgr w) <=? maxRetries (mgr w)) with true
      by (symmetry; apply Z.leb_le; lia).
    cbv zeta. cbn [emit update mgr retryCount set_retryCount maxRetries].
    replace (retryCount (mgr w) + 1 >? maxRetries (mgr w)) with false
      by (symmetry; rewrite Z.gtb_ltb; apply Z.ltb_ge; lia).
    match goal with
    | |- context [connect_loop fuel env (S k) ?w2] =>
        destruct (IH fuel (S k) w2) as (w' & t & Hrun & Htr & Hd & Ha & Hw & Hm);
          [exact Hopen
          |cbn [emit update mgr retryCount set_retryCount maxRetries]; lia
          |lia|]
    end.
    cbn [emit update mgr trace waiters] in Hrun, Htr, Hd, Ha, Hw, Hm.
    cbn [retryCount set_retryCount maxRetries] in Hd, Hm.
    exists w',
      ([AmqpConnect (url (mgr w));
        Sleep (calculateBackoff
                 (set_retryCount (retryCount (mgr w) + 1) (mgr w)))] ++ t).
    split.
    { rewrite Hrun.
      replace (S k + n)%nat with (k + S n)%nat by lia. reflexivity. }
    split; [rewrite Htr, <- !app_assoc; reflexivity|].
    rewrite delays_app, attempts_app, Hd, Ha, attemptNumbers_S.
    repeat split; assumption.
Qed.

(** Once the retries are used up, [connect] gives up before any attempt. *)
Lemma connect_after_exhaustion (env : nat -> Attempt) (w : World) :
  connection (mgr w) = None ->
  isConnecting (mgr w) = false ->
  maxRetries (mgr w) < retryCount (mgr w) ->
  connect env w
  = Some (Js.Throw (Js.newError "Connection aborted"),
          update (set_isClosed false) (update (set_isConnecting true) w)).
Proof.
  intros Hconn Hidle Hover. unfold connect, loop_bound.
  rewrite Hconn, Hidle. cbn [connect_loop].
  cbn [update mgr retryCount maxRetries set_isClosed set_isConnecting].
  replace (retryCount (mgr w) <=? maxRetries (mgr w)) with false
    by (symmetry; apply Z.leb_gt; lia).
  reflexivity.
Qed.

End ManagerFacts.

(** C7. From a disconnected manager that is not already connecting and has
    retries left, [connect] against a broker that refuses every attempt runs
    a bounded loop: it calls [amqp.connect] once per remaining attempt,
    sleeps [min(initialRetryDelay * 2^(attempt-1), maxRetryDelay)] before
    retry number [attempt], and when [maxRetries] retries are used up it
    throws to its caller an error that carries the last connection error.
    The failure is permanent: a later [connect] makes no further attempt. *)
Theorem connect_retries_with_backoff_then_fails :
  forall (w : Connection.World) (env : nat -> Connection.Attempt)
         (errs : nat -> Js.Error),
    Connection.connection (Connection.mgr w) = None ->
    Connection.isConnecting (Connection.mgr w) = false ->
    0 <= Connection.retryCount (Connection.mgr w)
      <= Connection.maxRetries (Connection.mgr w) ->
    (forall j, env j = Connection.mkAttempt (Js.Throw (errs j)) None) ->
    let m := Connection.mgr w in
    let left := Z.to_nat (Connection.maxRetries m - Connection.retryCount m) in
    exists w' t,
      Connection.connect env w
      = Some (Js.Throw (Connection.finalError m (errs left)), w') /\
      Js.message (Connection.finalError m (errs left))
      = ("Failed to connect after " ++ Render.string_of_Z (Connection.maxRetries m)
           ++ " attempts: " ++ Js.message (errs left))%string /\
      Connection.trace w' = Connection.trace w ++ t /\
      Connection.delays t
      = map (fun attempt =>
               Z.min (Connection.initialRetryDelay m * 2 ^ (attempt - 1))
                     (Connection.maxRetryDelay m))
            (Connection.attemptNumbers (Connection.retryCount m + 1) left) /\
      Connection.attempts t = S left /\
      Connection.connection (Connection.mgr w') = None /\
      (forall env', exists w'',
          Connection.connect env' w'
          = Some (Js.Throw (Js.newError "Connection aborted"), w'') /\
          Connection.trace w'' = Connection.trace w').
Proof.
  intros w env errs Hconn Hidle Hcount Henv m left.
  unfold Connection.connect. rewrite Hconn, Hidle.
  destruct (connect_loop_all_fail errs env Henv left
              (Connection.loop_bound
                 (Connection.mgr
                    (Connection.update (Connection.set_isClosed false)
                       (Connection.update (Connection.set_isConnecting true) w))))
              O
              (Connection.update (Connection.set_isClosed false)
                 (Connection.update (Connection.set_isConnecting true) w)))
    as (w' & t & Hrun & Htr & Hd & Ha & Hw & Hm).
  { reflexivity. }
  { cbn. subst left m. lia. }
  { unfold Connection.loop_bound. cbn. subst left m. lia. }
  exists w', t. cbn [Nat.add] in Hrun.
  split; [exact Hrun|].
  split; [reflexivity|].
  split; [exact Htr|].
  split; [exact Hd|].
  split; [exact Ha|].
  split; [rewrite Hm; exact Hconn|].
  intro env'. eexists. split.
  - apply connect_after_exhaustion; rewrite Hm; cbn; [exact Hconn|reflexivity|lia].
  - reflexivity.
Qed.

Lemma connect_retries_with_backoff_then_fails_witness :
  exists w',
    Connection.connect Examples.brokerDown (Connection.fresh Examples.localOptions)
    = Some (Js.Throw (Js.newError
                        "Failed to connect after 10 attempts: connect ECONNREFUSED"),
            w') /\
    Connection.delays (Connection.trace w')
    = [1000; 2000; 4000; 8000; 16000; 30000; 30000; 30000; 30000; 30000] /\
    Connection.attempts (Connection.trace w') = 11%nat.
Proof.
  destruct (connect_retries_with_backoff_then_fails
              (Connection.fresh Examples.localOptions) Examples.brokerDown
              (fun _ => Js.newError "connect ECONNREFUSED")
              eq_refl eq_refl
              (conj (Z.le_refl 0) (Zle_bool_imp_le 0 10 eq_refl))
              (fun _ => eq_refl))
    as (w' & t & Hrun & _ & Htr & Hd & Ha & _).
  exists w'. split; [exact Hrun|].
  rewrite Htr. split; [exact Hd|exact Ha].
Defined.

(** ** Closing *)

Section ClosedManager.
Import Connection.

(** While the closed flag is set, [close] and the events of the broker
    objects leave it set and start no connection attempt. *)
Lemma closed_step (op : Op) (w : World) :
  asksForSession op = false ->
  isClosed (mgr w) = true ->
  connection (mgr w) = None ->
  exists w',
    apply op w = Some w' /\
    isClosed (mgr w') = true /\
    connection (mgr w') = None /\
    attempts (trace w') = attempts (trace w).
Proof.
  intros Hop Hclosed Hconn.
  destruct op as [env|env created|cenv|env|env| |]; try discriminate Hop;
    cbn [apply].
  - destruct (close_spec cenv w) as (w' & Hc & Hcl & _ & Hcn & Htr & _).
    rewrite Hc. exists w'. cbn [snd]. repeat split; try assumption.
    rewrite Htr, attempts_app, attempts_closeEffects. lia.
  - unfold onConnectionError, handleDisconnect.
    cbn [update mgr isClosed set_channel set_connection]. rewrite Hclosed.
    eexists. split; [reflexivity|]. repeat split. exact Hclosed.
  - unfold onConnectionClose. rewrite Hclosed.
    eexists. split; [reflexivity|]. repeat split; assumption.
  - eexists. split; [reflexivity|]. repeat split; assumption.
  - eexists. split; [reflexivity|]. repeat split; assumption.
Qed.

Lemma closed_run (ops : list Op) :
  forall w,
    forallb (fun op => negb (asksForSession op)) ops = true ->
    isClosed (mgr w) = true ->
    connection (mgr w) = None ->
    exists w',
      applyAll ops w = Some w' /\
      isClosed (mgr w') = true /\
      connection (mgr w') = None /\
      attempts (trace w') = attempts (trace w).
Proof.
  induction ops as [|op ops IH]; intros w Hops Hclosed Hconn.
  - exists w. repeat split; assumption.
  - cbn [forallb] in Hops. apply andb_true_iff in Hops.
    destruct Hops as [Hop Hops]. apply negb_true_iff in Hop.
    destruct (closed_step op w Hop Hclosed Hconn)
      as (w1 & Hstep & Hcl1 & Hcn1 & Hat1).
    destruct (IH w1 Hops Hcl1 Hcn1) as (w' & Hrun & Hcl & Hcn & Hat).
    exists w'. cbn [applyAll]. rewrite Hstep.
    repeat split; try assumption. congruence.
Qed.

(** An explicit [connect] on a closed manager clears the flag and, when
    the broker answers, holds a connection again. *)
Lemma connect_reopens (env : nat -> Attempt) (w : World) (c : AmqpConnection) :
  isClosed (mgr w) = true ->
  connection (mgr w) = None ->
  isConnecting (mgr w) = false ->
  retryCount (mgr w) <= maxRetries (mgr w) ->
  env O = mkAttempt (Js.Normal c) None ->
  exists w',
    connect env w = Some (Js.Normal (Settled c), w') /\
    isClosed (mgr w') = false /\
    connection (mgr w') = Some c /\
    attempts (trace w') = S (attempts (trace w)).
Proof.
  intros Hclosed Hconn Hidle Hleft Henv.
  unfold connect, loop_bound. rewrite Hconn, Hidle.
  cbn [connect_loop].
  cbn [update mgr retryCount maxRetries set_isClosed set_isConnecting isClosed].
  replace (retryCount (mgr w) <=? maxRetries (mgr w)) with true
    by (symmetry; apply Z.leb_le; lia).
  cbn [andb negb]. rewrite Henv. unfold interrupt. cbn [closeCalled settles].
  eexists. split; [reflexivity|].
  cbn [update emit mgr trace isClosed connection set_connectionListeners
       set_isConnecting set_retryCount set_connection set_isClosed].
  repeat split.
  rewrite !attempts_app, attempts_resolves. cbn [attempts filter List.length].
  lia.
Qed.

End ClosedManager.

(** C8 (as stated, at a concrete input). A manager that was connected and
    then closed by its owner is asked to [connect] again while the broker is
    up: it leaves the closed state and holds a connection again. *)
Lemma closed_manager_reconnects :
  Connection.isClosed (Connection.mgr Examples.closedWorld) = true /\
  ~ (forall w',
        Connection.apply (Connection.CallConnect (Examples.brokerUp 2%nat))
                         Examples.closedWorld = Some w' ->
        Connection.isClosed (Connection.mgr w') = true /\
        Connection.connection (Connection.mgr w') = None).
Proof.
  split; [reflexivity|].
  intro Hterminal.
  destruct (connect_reopens (Examples.brokerUp 2%nat) Examples.closedWorld 2%nat
              eq_refl eq_refl eq_refl (Zle_bool_imp_le 0 10 eq_refl) eq_refl)
    as (w' & Hrun & Hopen & _).
  destruct (Hterminal w') as [Hclosed _].
  - cbn [Connection.apply]. rewrite Hrun. reflexivity.
  - rewrite Hopen in Hclosed. discriminate Hclosed.
Qed.

(** C8 (amended). [close()] sets the closed flag, calls [close] on the
    channel and then on the connection, swallows what these calls throw, and
    leaves the manager without channel and connection.  While the flag is
    set, further [close()] calls and the error and close events of the broker
    objects keep it set and start no connection attempt.  The flag is not
    terminal: an explicit [connect()] clears it and connects again. *)
Theorem close_holds_until_a_session_is_requested :
  (forall cenv w, exists w',
      Connection.close cenv w = (Js.Normal tt, w') /\
      Connection.isClosed (Connection.mgr w') = true /\
      Connection.channel (Connection.mgr w') = None /\
      Connection.connection (Connection.mgr w') = None /\
      Connection.trace w'
      = Connection.trace w ++ Connection.closeEffects (Connection.mgr w)) /\
  (forall ops w,
      forallb (fun op => negb (Connection.asksForSession op)) ops = true ->
      Connection.isClosed (Connection.mgr w) = true ->
      Connection.connection (Connection.mgr w) = None ->
      exists w',
        Connection.applyAll ops w = Some w' /\
        Connection.isClosed (Connection.mgr w') = true /\
        Connection.connection (Connection.mgr w') = None /\
        Connection.attempts (Connection.trace w')
        = Connection.attempts (Connection.trace w)) /\
  (forall env w c,
      Connection.isClosed (Connection.mgr w) = true ->
      Connection.connection (Connection.mgr w) = None ->
      Connection.isConnecting (Connection.mgr w) = false ->
      Connection.retryCount (Connection.mgr w)
      <= Connection.maxRetries (Connection.mgr w) ->
      env O = Connection.mkAttempt (Js.Normal c) None ->
      exists w',
        Connection.connect env w = Some (Js.Normal (Connection.Settled c), w') /\
        Connection.isClosed (Connection.mgr w') = false /\
        Connection.connection (Connection.mgr w') = Some c).
Proof.
  split; [|split].
  - intros cenv w.
    destruct (close_spec cenv w) as (w' & Hc & Hcl & Hch & Hcn & Htr & _).
    exists w'. repeat split; assumption.
  - intros ops w. apply closed_run.
  - intros env w c Hclosed Hconn Hidle Hleft Henv.
    destruct (connect_reopens env w c Hclosed Hconn Hidle Hleft Henv)
      as (w' & Hrun & Hopen & Hc & _).
    exists w'. repeat split; assumption.
Qed.

Lemma close_holds_until_a_session_is_requested_witness :
  Connection.isClosed (Connection.mgr Examples.closedWorld) = true /\
  Connection.connection (Connection.mgr Examples.closedWorld) = None /\
  exists w',
    Connection.applyAll
      [Connection.ConnectionError (Examples.brokerUp 2%nat);
       Connection.ChannelClose;
       Connection.ConnectionClose (Examples.brokerUp 2%nat);
       Connection.CallClose Examples.quietClose]
      Examples.closedWorld = Some w' /\
    Connection.isClosed (Connection.mgr w') = true /\
    Connection.connection (Connection.mgr w') = None /\
    Connection.attempts (Connection.trace w') = 1%nat.
Proof.
  split; [reflexivity|split; [reflexivity|]].
  exact (proj1 (proj2 close_holds_until_a_session_is_requested)
           [Connection.ConnectionError (Examples.brokerUp 2%nat);
            Connection.ChannelClose;
            Connection.ConnectionClose (Examples.brokerUp 2%nat);
            Connection.CallClose Examples.quietClose]
           Examples.closedWorld eq_refl eq_refl eq_refl).
Defined.

(** ** Channel events *)

(** C9. The handler of a channel-level [error] or [close] event sets the
    manager's channel to null and changes nothing else: the connection, the
    flags, the retry count, the listeners and the configuration are as
    before, and no effect is emitted.  The next [getChannel] then creates a
    channel on the connection the manager still holds, without any connection
    attempt. *)
Theorem channel_event_invalidates_only_the_channel :
  forall (ev : Connection.Op) (w : Connection.World),
    ev = Connection.ChannelError \/ ev = Connection.ChannelClose ->
    exists w1,
      Connection.apply ev w = Some w1 /\
      Connection.channel (Connection.mgr w1) = None /\
      Connection.connection (Connection.mgr w1)
      = Connection.connection (Connection.mgr w) /\
      Connection.isConnecting (Connection.mgr w1)
      = Connection.isConnecting (Connection.mgr w) /\
      Connection.isClosed (Connection.mgr w1)
      = Connection.isClosed (Connection.mgr w) /\
      Connection.retryCount (Connection.mgr w1)
      = Connection.retryCount (Connection.mgr w) /\
      Connection.connectionListeners (Connection.mgr w1)
      = Connection.connectionListeners (Connection.mgr w) /\
      Connection.errorListeners (Connection.mgr w1)
      = Connection.errorListeners (Connection.mgr w) /\
      Connection.url (Connection.mgr w1) = Connection.url (Connection.mgr w) /\
      Connection.maxRetries (Connection.mgr w1)
      = Connection.maxRetries (Connection.mgr w) /\
      Connection.initialRetryDelay (Connection.mgr w1)
      = Connection.initialRetryDelay (Connection.mgr w) /\
      Connection.maxRetryDelay (Connection.mgr w1)
      = Connection.maxRetryDelay (Connection.mgr w) /\
      Connection.trace w1 = Connection.trace w /\
      Connection.waiters w1 = Connection.waiters w /\
      (forall env c ch,
          Connection.connection (Connection.mgr w) = Some c ->
          exists w2,
            Connection.getChannel env (Js.Normal ch) w1
            = Some (Js.Normal (Connection.Settled ch), w2) /\
            Connection.channel (Connection.mgr w2) = Some ch /\
            Connection.connection (Connection.mgr w2) = Some c /\
            Connection.trace w2
            = Connection.trace w
                ++ [Connection.CreateChannel c; Connection.ListenChannel ch]).
Proof.
  intros ev w [Hev|Hev]; subst ev; cbn [Connection.apply];
    (eexists; split; [reflexivity|]);
    unfold Connection.onChannelError, Connection.onChannelClose;
    cbn [Connection.update Connection.mgr Connection.trace Connection.waiters
         Connection.set_channel Connection.channel Connection.connection
         Connection.isConnecting Connection.isClosed Connection.retryCount
         Connection.connectionListeners Connection.errorListeners
         Connection.url Connection.maxRetries Connection.initialRetryDelay
         Connection.maxRetryDelay];
    repeat (split; [reflexivity|]);
    intros env c ch Hc;
    unfold Connection.getChannel, Connection.connect;
    cbn [Connection.update Connection.set_channel Connection.mgr
         Connection.channel Connection.connection];
    rewrite Hc;
    (eexists; split; [reflexivity|]);
    cbn [Connection.update Connection.emit Connection.mgr Connection.trace
         Connection.set_channel Connection.channel Connection.connection];
    rewrite <- app_assoc; repeat split; assumption.
Qed.

Lemma channel_event_invalidates_only_the_channel_witness :
  exists w1,
    Connection.apply Connection.ChannelError Examples.connectedWorld = Some w1 /\
    Connection.channel (Connection.mgr w1) = None /\
    Connection.connection (Connection.mgr w1) = Some 1%nat /\
    exists w2,
      Connection.getChannel Examples.brokerDown (Js.Normal 2%nat) w1
      = Some (Js.Normal (Connection.Settled 2%nat), w2) /\
      Connection.channel (Connection.mgr w2) = Some 2%nat /\
      Connection.connection (Connection.mgr w2) = Some 1%nat.
Proof.
  destruct (channel_event_invalidates_only_the_channel
              Connection.ChannelError Examples.connectedWorld (or_introl eq_refl))
    as (w1 & Hev & Hch & Hconn & _ & _ & _ & _ & _ & _ & _ & _ & _ & _ & _ & Hnext).
  exists w1. split; [exact Hev|]. split; [exact Hch|]. split; [exact Hconn|].
  destruct (Hnext Examples.brokerDown 1%nat 2%nat eq_refl)
    as (w2 & Hget & Hch2 & Hconn2 & _).
  exists w2. repeat split; assumption.
Defined.

(* ====================================================================== *)
(** * Properties of the consumers *)
(* ====================================================================== *)

(** ** Computations that only write lines *)

Section Writers.
Variables S L : Type.
Variable logs : list L -> S -> S.
Hypothesis logs_nil : forall s, logs [] s = s.
Hypothesis logs_app : forall l1 l2 s, logs l2 (logs l1 s) = logs (l1 ++ l2) s.

Lemma writes_lift {A} (c : Js.Completion A) :
  Js.writes logs (Js.lift c) c [].
Proof. intro s. unfold Js.lift. rewrite logs_nil. reflexivity. Qed.

Lemma writes_ret {A} (a : A) :
  Js.writes logs (Js.ret a) (Js.Normal a) [].
Proof. intro s. unfold Js.ret. rewrite logs_nil. reflexivity. Qed.

Lemma writes_bind {A B} (c : Js.M S A) (k : A -> Js.M S B) r1 l1 :
  Js.writes logs c r1 l1 ->
  (forall a, r1 = Js.Normal a -> exists r l2, Js.writes logs (k a) r l2) ->
  exists r ls, Js.writes logs (Js.bind c k) r ls.
Proof.
  intros Hc Hk. destruct r1 as [a|e].
  - destruct (Hk a eq_refl) as (r & l2 & Hka).
    exists r, (l1 ++ l2). intro s. unfold Js.bind.
    rewrite (Hc s), (Hka (logs l1 s)), logs_app. reflexivity.
  - exists (Js.Throw e), l1. intro s. unfold Js.bind. rewrite (Hc s).
    reflexivity.
Qed.

Lemma writes_lift_bind {A B} (c : Js.Completion A) (k : A -> Js.M S B) :
  (forall a, c = Js.Normal a -> exists r l2, Js.writes logs (k a) r l2) ->
  exists r ls, Js.writes logs (Js.bind (Js.lift c) k) r ls.
Proof. apply writes_bind with (l1 := []). apply writes_lift. Qed.

(** The completion and the lines of a writing computation are determined
    by the computation. *)
Lemma writes_fst {A} (c : Js.M S A) r ls s :
  Js.writes logs c r ls -> fst (c s) = r.
Proof. intro H. rewrite (H s). reflexivity. Qed.

End Writers.

Section LoggerFacts.
Import Json Amqp LoggerConsumer.

Lemma logger_logs_nil (s : State) : logs [] s = s.
Proof. destruct s. unfold logs. cbn. rewrite app_nil_r. reflexivity. Qed.

Lemma logger_logs_app (l1 l2 : list Line) (s : State) :
  logs l2 (logs l1 s) = logs (l1 ++ l2) s.
Proof. unfold logs. cbn. rewrite app_assoc. reflexivity. Qed.

Lemma logger_writes_log (l : Line) :
  Js.writes logs (Js.modify (log l)) (Js.Normal tt) [l].
Proof. intro s. reflexivity. Qed.

(** The [try] block before the acknowledgement only writes to the console,
    and what it writes and how it completes does not depend on the state
    of the consumer. *)
Lemma logger_processing_writes (env : HandlerEnv) (msg : ConsumeMessage) :
  exists r ls, Js.writes logs (processing env msg) r ls.
Proof.
  unfold processing.
  apply (writes_lift_bind _ _ logs logger_logs_nil logger_logs_app).
  intros envelope _.
  apply (writes_lift_bind _ _ logs logger_logs_nil logger_logs_app).
  intros id _.
  apply (writes_lift_bind _ _ logs logger_logs_nil logger_logs_app).
  intros _ _.
  eapply (writes_bind _ _ logs logger_logs_app); [apply logger_writes_log|].
  intros _ _.
  apply (writes_lift_bind _ _ logs logger_logs_nil logger_logs_app).
  intros summary _.
  eexists _, _. apply logger_writes_log.
Qed.

(** What [handleMessage] does with a delivery once the channel is set. *)
Lemma logger_handle_spec (env : HandlerEnv) (msg : ConsumeMessage) r ls :
  Js.writes logs (processing env msg) r ls ->
  forall st ch,
    channel st = Some ch ->
    handleMessage env (Some msg) st =
    match r with
    | Js.Normal _ =>
        (Js.Normal tt, set_channel (Some (ack msg ch)) (logs ls st))
    | Js.Throw e =>
        (Js.Normal tt,
         set_channel (Some (nack msg false false ch))
                     (logs (ls ++ [Failed (Js.message e)]) st))
    end.
Proof.
  intros Hw st ch Hch. unfold handleMessage. rewrite Hch.
  unfold Js.try_catch, Js.bind, channel_ack, channel_nack, Js.modify.
  rewrite (Hw st).
  destruct r as [[]|e]; unfold log, logs, set_channel;
    cbn [channel consumerTag isShuttingDown console option_map];
    rewrite Hch, <- ?app_assoc; reflexivity.
Qed.

End LoggerFacts.

Section AggregatorFacts.
Import Json Amqp AggregatorConsumer.

Lemma aggregator_logs_nil (s : State) : logs [] s = s.
Proof. destruct s. unfold logs. cbn. rewrite app_nil_r. reflexivity. Qed.

Lemma aggregator_logs_app (l1 l2 : list Line) (s : State) :
  logs l2 (logs l1 s) = logs (l1 ++ l2) s.
Proof. unfold logs. cbn. rewrite app_assoc. reflexivity. Qed.

Lemma aggregator_writes_log (l : Line) :
  Js.writes logs (Js.modify (log l)) (Js.Normal tt) [l].
Proof. intro s. reflexivity. Qed.

Ltac writes_steps :=
  repeat first
    [ apply (writes_lift_bind _ _ logs aggregator_logs_nil aggregator_logs_app);
      intros ? _
    | eapply (writes_bind _ _ logs aggregator_logs_app);
      [apply aggregator_writes_log|]; intros ? _
    | match goal with
      | |- context [if ?b then _ else _] => destruct b
      end ];
  try (eexists _, _; apply aggregator_writes_log).

Lemma aggregator_processing_writes (env : HandlerEnv) (msg : ConsumeMessage) :
  exists r ls, Js.writes logs (processing env msg) r ls.
Proof.
  unfold processing, processIntensity, processGeneration. writes_steps.
Qed.

Lemma aggregator_handle_spec (env : HandlerEnv) (msg : ConsumeMessage) r ls :
  Js.writes logs (processing env msg) r ls ->
  forall st ch,
    channel st = Some ch ->
    handleMessage env (Some msg) st =
    match r with
    | Js.Normal _ =>
        (Js.Normal tt, set_channel (Some (ack msg ch)) (logs ls st))
    | Js.Throw e =>
        (Js.Normal tt,
         set_channel (Some (nack msg false false ch))
                     (logs (ls ++ [Failed (Js.message e)]) st))
    end.
Proof.
  intros Hw st ch Hch. unfold handleMessage. rewrite Hch.
  unfold Js.try_catch, Js.bind, channel_ack, channel_nack, Js.modify.
  rewrite (Hw st).
  destruct r as [[]|e]; unfold log, logs, set_channel;
    cbn [channel consumerTag isShuttingDown console option_map];
    rewrite Hch, <- ?app_assoc; reflexivity.
Qed.

End AggregatorFacts.

Section ConsumerOutcomes.
Import Json Amqp.

(** The effect of one delivery on a consumer whose channel is set: the
    lines [ls] and the signal [sig], both determined by the delivery. *)
Lemma logger_delivery (env : LoggerConsumer.HandlerEnv) (m : ConsumeMessage) :
  exists ls sig,
    sig = (if Js.isThrow (fst (LoggerConsumer.processing env m
                                 LoggerConsumer.initial))
           then Nack m false false else Ack m) /\
    forall st ch,
      LoggerConsumer.channel st = Some ch ->
      Js.isThrow (fst (LoggerConsumer.processing env m st))
      = Js.isThrow (fst (LoggerConsumer.processing env m LoggerConsumer.initial)) /\
      LoggerConsumer.handleMessage env (Some m) st
      = (Js.Normal tt,
         LoggerConsumer.set_channel (Some (Amqp.mkChannel (sent ch ++ [sig])))
                                    (LoggerConsumer.logs ls st)).
Proof.
  destruct (logger_processing_writes env m) as (r & ls & Hw).
  exists (ls ++ match r with
                | Js.Throw e => [LoggerConsumer.Failed (Js.message e)]
                | Js.Normal _ => []
                end).
  eexists. split; [reflexivity|].
  intros st ch Hch.
  rewrite (Hw st), (Hw LoggerConsumer.initial).
  split; [reflexivity|].
  rewrite (logger_handle_spec env m r ls Hw st ch Hch).
  destruct r as [[]|e]; cbn [fst Js.isThrow]; [rewrite app_nil_r|]; reflexivity.
Qed.

Lemma aggregator_delivery (env : AggregatorConsumer.HandlerEnv) (m : ConsumeMessage) :
  exists ls sig,
    sig = (if Js.isThrow (fst (AggregatorConsumer.processing env m
                                 AggregatorConsumer.initial))
           then Nack m false false else Ack m) /\
    forall st ch,
      AggregatorConsumer.channel st = Some ch ->
      Js.isThrow (fst (AggregatorConsumer.processing env m st))
      = Js.isThrow (fst (AggregatorConsumer.processing env m
                           AggregatorConsumer.initial)) /\
      AggregatorConsumer.handleMessage env (Some m) st
      = (Js.Normal tt,
         AggregatorConsumer.set_channel
           (Some (Amqp.mkChannel (sent ch ++ [sig])))
           (AggregatorConsumer.logs ls st)).
Proof.
  destruct (aggregator_processing_writes env m) as (r & ls & Hw).
  exists (ls ++ match r with
                | Js.Throw e => [AggregatorConsumer.Failed (Js.message e)]
                | Js.Normal _ => []
                end).
  eexists. split; [reflexivity|].
  intros st ch Hch.
  rewrite (Hw st), (Hw AggregatorConsumer.initial).
  split; [reflexivity|].
  rewrite (aggregator_handle_spec env m r ls Hw st ch Hch).
  destruct r as [[]|e]; cbn [fst Js.isThrow]; [rewrite app_nil_r|]; reflexivity.
Qed.


End ConsumerOutcomes.

(** C10. An invocation of either consumer's [handleMessage] never lets an
    exception escape.  With a null message or no channel set it does nothing
    at all (the state, and so the signals sent, are unchanged).  Otherwise it
    sends exactly one signal for the message: [ack] when the processing
    completed, [nack] with [requeue = false] when it threw. *)
Theorem handler_sends_exactly_one_signal :
  (forall env msg st,
      exists st',
        LoggerConsumer.handleMessage env msg st = (Js.Normal tt, st') /\
        match msg, LoggerConsumer.channel st with
        | Some m, Some _ =>
            LoggerConsumer.signals st'
            = LoggerConsumer.signals st ++
              [if Js.isThrow (fst (LoggerConsumer.processing env m st))
               then Amqp.Nack m false false else Amqp.Ack m]
        | _, _ => st' = st
        end) /\
  (forall env msg st,
      exists st',
        AggregatorConsumer.handleMessage env msg st = (Js.Normal tt, st') /\
        match msg, AggregatorConsumer.channel st with
        | Some m, Some _ =>
            AggregatorConsumer.signals st'
            = AggregatorConsumer.signals st ++
              [if Js.isThrow (fst (AggregatorConsumer.processing env m st))
               then Amqp.Nack m false false else Amqp.Ack m]
        | _, _ => st' = st
        end).
Proof.
  split; intros env [m|] st.
  - destruct (LoggerConsumer.channel st) as [ch|] eqn:Hch.
    + destruct (logger_delivery env m) as (ls & sig & Hsig & Hrun).
      destruct (Hrun st ch Hch) as [Hsame Hhandle].
      eexists. split; [exact Hhandle|].
      unfold LoggerConsumer.signals.
      cbn [LoggerConsumer.channel LoggerConsumer.set_channel Amqp.sent].
      rewrite Hch, Hsame, Hsig. reflexivity.
    + exists st. unfold LoggerConsumer.handleMessage. rewrite Hch.
      split; reflexivity.
  - exists st. destruct (LoggerConsumer.channel st); split; reflexivity.
  - destruct (AggregatorConsumer.channel st) as [ch|] eqn:Hch.
    + destruct (aggregator_delivery env m) as (ls & sig & Hsig & Hrun).
      destruct (Hrun st ch Hch) as [Hsame Hhandle].
      eexists. split; [exact Hhandle|].
      unfold AggregatorConsumer.signals.
      cbn [AggregatorConsumer.channel AggregatorConsumer.set_channel Amqp.sent].
      rewrite Hch, Hsame, Hsig. reflexivity.
    + exists st. unfold AggregatorConsumer.handleMessage. rewrite Hch.
      split; reflexivity.
  - exists st. destruct (AggregatorConsumer.channel st); split; reflexivity.
Qed.

(** ** Malformed bodies *)

(** C5 (amended). A delivery whose body is not valid JSON ([JSON.parse]
    throws) is answered by either consumer with exactly one signal, [nack]
    with [requeue = false]; nothing is acknowledged and nothing is requeued.
    The source parses with [JSON.parse] and casts the result to the envelope
    type: a body that is valid JSON is not checked against the envelope's
    shape (see the input below). *)
Theorem unparseable_body_is_rejected_without_requeue :
  (forall env m e st ch,
      LoggerConsumer.channel st = Some ch ->
      Json.JSON_parse (Amqp.content m) = Js.Throw e ->
      let st' := snd (LoggerConsumer.handleMessage env (Some m) st) in
      fst (LoggerConsumer.handleMessage env (Some m) st) = Js.Normal tt /\
      LoggerConsumer.signals st'
      = LoggerConsumer.signals st ++ [Amqp.Nack m false false] /\
      LoggerConsumer.console st'
      = LoggerConsumer.console st ++ [LoggerConsumer.Failed (Js.message e)] /\
      filter Amqp.isRequeue (LoggerConsumer.signals st')
      = filter Amqp.isRequeue (LoggerConsumer.signals st)) /\
  (forall env m e st ch,
      AggregatorConsumer.channel st = Some ch ->
      Json.JSON_parse (Amqp.content m) = Js.Throw e ->
      let st' := snd (AggregatorConsumer.handleMessage env (Some m) st) in
      fst (AggregatorConsumer.handleMessage env (Some m) st) = Js.Normal tt /\
      AggregatorConsumer.signals st'
      = AggregatorConsumer.signals st ++ [Amqp.Nack m false false] /\
      AggregatorConsumer.console st'
      = AggregatorConsumer.console st ++ [AggregatorConsumer.Failed (Js.message e)] /\
      filter Amqp.isRequeue (AggregatorConsumer.signals st')
      = filter Amqp.isRequeue (AggregatorConsumer.signals st)).
Proof.
  split; intros env m e st ch Hch Hparse st'; subst st'.
  - assert (Hw : Js.writes LoggerConsumer.logs (LoggerConsumer.processing env m)
                   (Js.Throw e) []).
    { intro s. unfold LoggerConsumer.processing, Js.bind, Js.lift.
      rewrite Hparse, logger_logs_nil. reflexivity. }
    rewrite (logger_handle_spec env m _ _ Hw st ch Hch).
    unfold LoggerConsumer.signals.
    cbn [fst snd LoggerConsumer.channel LoggerConsumer.set_channel
         LoggerConsumer.console LoggerConsumer.logs Amqp.nack Amqp.sent app].
    rewrite Hch, filter_app. cbn [filter Amqp.isRequeue].
    rewrite app_nil_r. repeat split.
  - assert (Hw : Js.writes AggregatorConsumer.logs
                   (AggregatorConsumer.processing env m) (Js.Throw e) []).
    { intro s. unfold AggregatorConsumer.processing, Js.bind, Js.lift.
      rewrite Hparse, aggregator_logs_nil. reflexivity. }
    rewrite (aggregator_handle_spec env m _ _ Hw st ch Hch).
    unfold AggregatorConsumer.signals.
    cbn [fst snd AggregatorConsumer.channel AggregatorConsumer.set_channel
         AggregatorConsumer.console AggregatorConsumer.logs Amqp.nack Amqp.sent app].
    rewrite Hch, filter_app. cbn [filter Amqp.isRequeue].
    rewrite app_nil_r. repeat split.
Qed.

Lemma unparseable_body_is_rejected_without_requeue_witness :
  LoggerConsumer.channel Examples.loggerStarted = Some (Amqp.mkChannel []) /\
  Json.JSON_parse (Amqp.content Examples.garbledDelivery)
  = Js.Throw (Js.SyntaxError "Unexpected token") /\
  LoggerConsumer.signals
    (snd (LoggerConsumer.handleMessage Examples.loggerEnv
            (Some Examples.garbledDelivery) Examples.loggerStarted))
  = [Amqp.Nack Examples.garbledDelivery false false].
Proof.
  split; [reflexivity|split; [reflexivity|]].
  exact (proj1 (proj2 (proj1 unparseable_body_is_rejected_without_requeue
                         Examples.loggerEnv Examples.garbledDelivery
                         (Js.SyntaxError "Unexpected token")
                         Examples.loggerStarted (Amqp.mkChannel [])
                         eq_refl eq_refl))).
Defined.

(** C5 (as stated, at a concrete input). The body of the testing notes'
    [rabbitmqadmin publish] example is valid JSON but no envelope: it has
    none of the envelope's fields.  Both consumers log it as a message of
    unknown type and acknowledge it; neither rejects it. *)
Lemma valid_json_that_is_no_envelope_is_acknowledged :
  Json.JSON_parse (Amqp.content Examples.testPayloadDelivery)
  = Js.Normal (Json.Object [("test", Json.Bool true)]) /\
  map (Json.get (Some (Json.Object [("test", Json.Bool true)])))
      ["id"; "source"; "type"; "timestamp"; "data"]
  = [Js.Normal None; Js.Normal None; Js.Normal None; Js.Normal None;
     Js.Normal None] /\
  LoggerConsumer.signals
    (snd (LoggerConsumer.handleMessage Examples.loggerEnv
            (Some Examples.testPayloadDelivery) Examples.loggerStarted))
  = [Amqp.Ack Examples.testPayloadDelivery] /\
  AggregatorConsumer.signals
    (snd (AggregatorConsumer.handleMessage Examples.aggregatorEnv
            (Some Examples.testPayloadDelivery) Examples.aggregatorStarted))
  = [Amqp.Ack Examples.testPayloadDelivery] /\
  ~ In (Amqp.Nack Examples.testPayloadDelivery false false)
       (LoggerConsumer.signals
          (snd (LoggerConsumer.handleMessage Examples.loggerEnv
                  (Some Examples.testPayloadDelivery) Examples.loggerStarted))) /\
  ~ In (Amqp.Nack Examples.testPayloadDelivery false false)
       (AggregatorConsumer.signals
          (snd (AggregatorConsumer.handleMessage Examples.aggregatorEnv
                  (Some Examples.testPayloadDelivery)
                  Examples.aggregatorStarted))).
Proof.
  split; [reflexivity|]. split; [reflexivity|].
  split; [reflexivity|]. split; [reflexivity|].
  split; (intro Hin; cbn in Hin; destruct Hin as [Heq|[]]; discriminate Heq).
Qed.

(** ** Handler errors and the redelivery counter *)




(** ** Redelivery *)

(** C3 (as stated, at a concrete input). The same carbon-intensity delivery
    (envelope id [m-1]) is handed to the logger twice: the second time the
    console grows again, so the envelope has been processed twice, not
    once. *)
Lemma redelivery_is_processed_twice :
  let st1 := snd (LoggerConsumer.handleMessage Examples.loggerEnv
                    (Some Examples.intensityDelivery) Examples.loggerStarted) in
  let st2 := snd (LoggerConsumer.handleMessage Examples.loggerEnv
                    (Some Examples.intensityDelivery) st1) in
  LoggerConsumer.timesProcessed "m-1" (LoggerConsumer.console st1) = 1%nat /\
  LoggerConsumer.timesProcessed "m-1" (LoggerConsumer.console st2) = 2%nat /\
  LoggerConsumer.signals st2
  = [Amqp.Ack Examples.intensityDelivery; Amqp.Ack Examples.intensityDelivery] /\
  ~ (LoggerConsumer.console st2 = LoggerConsumer.console st1 /\
     LoggerConsumer.timesProcessed "m-1" (LoggerConsumer.console st2) = 1%nat).
Proof.
  cbv zeta. split; [reflexivity|split; [reflexivity|split; [reflexivity|]]].
  intros [_ Honce]. discriminate Honce.
Qed.

(** C3 (amended). The consumers keep no record of the envelopes they have
    handled: with the channel set, the lines [handleMessage] writes and the
    signal it sends are determined by the delivery alone.  A second delivery
    of the same envelope is therefore processed again, with the same side
    effects and the same signal as the first. *)
Theorem every_delivery_is_processed_afresh :
  (forall env m, exists ls sig,
      forall st ch,
        LoggerConsumer.channel st = Some ch ->
        let st1 := snd (LoggerConsumer.handleMessage env (Some m) st) in
        let st2 := snd (LoggerConsumer.handleMessage env (Some m) st1) in
        LoggerConsumer.console st1 = LoggerConsumer.console st ++ ls /\
        LoggerConsumer.signals st1 = LoggerConsumer.signals st ++ [sig] /\
        LoggerConsumer.console st2 = LoggerConsumer.console st ++ ls ++ ls /\
        LoggerConsumer.signals st2 = LoggerConsumer.signals st ++ [sig; sig]) /\
  (forall env m, exists ls sig,
      forall st ch,
        AggregatorConsumer.channel st = Some ch ->
        let st1 := snd (AggregatorConsumer.handleMessage env (Some m) st) in
        let st2 := snd (AggregatorConsumer.handleMessage env (Some m) st1) in
        AggregatorConsumer.console st1 = AggregatorConsumer.console st ++ ls /\
        AggregatorConsumer.signals st1 = AggregatorConsumer.signals st ++ [sig] /\
        AggregatorConsumer.console st2 = AggregatorConsumer.console st ++ ls ++ ls /\
        AggregatorConsumer.signals st2
        = AggregatorConsumer.signals st ++ [sig; sig]).
Proof.
  split; intros env m.
  - destruct (logger_delivery env m) as (ls & sig & _ & Hrun).
    exists ls, sig. intros st ch Hch st1 st2. subst st2 st1.
    destruct (Hrun st ch Hch) as [_ H1]. rewrite H1. cbn [snd].
    destruct (Hrun (LoggerConsumer.set_channel
                      (Some (Amqp.mkChannel (Amqp.sent ch ++ [sig])))
                      (LoggerConsumer.logs ls st))
                   (Amqp.mkChannel (Amqp.sent ch ++ [sig])) eq_refl) as [_ H2].
    rewrite H2. unfold LoggerConsumer.signals.
    cbn [snd LoggerConsumer.channel LoggerConsumer.set_channel
         LoggerConsumer.console LoggerConsumer.logs Amqp.sent].
    rewrite Hch, <- !app_assoc. repeat split.
  - destruct (aggregator_delivery env m) as (ls & sig & _ & Hrun).
    exists ls, sig. intros st ch Hch st1 st2. subst st2 st1.
    destruct (Hrun st ch Hch) as [_ H1]. rewrite H1. cbn [snd].
    destruct (Hrun (AggregatorConsumer.set_channel
                      (Some (Amqp.mkChannel (Amqp.sent ch ++ [sig])))
                      (AggregatorConsumer.logs ls st))
                   (Amqp.mkChannel (Amqp.sent ch ++ [sig])) eq_refl) as [_ H2].
    rewrite H2. unfold AggregatorConsumer.signals.
    cbn [snd AggregatorConsumer.channel AggregatorConsumer.set_channel
         AggregatorConsumer.console AggregatorConsumer.logs Amqp.sent].
    rewrite Hch, <- !app_assoc. repeat split.
Qed.

Lemma every_delivery_is_processed_afresh_witness :
  exists ls sig,
    LoggerConsumer.channel Examples.loggerStarted = Some (Amqp.mkChannel []) /\
    let st1 := snd (LoggerConsumer.handleMessage Examples.loggerEnv
                      (Some Examples.intensityDelivery) Examples.loggerStarted) in
    let st2 := snd (LoggerConsumer.handleMessage Examples.loggerEnv
                      (Some Examples.intensityDelivery) st1) in
    LoggerConsumer.console st2 = ls ++ ls /\
    LoggerConsumer.signals st2 = [sig; sig].
Proof.
  destruct (proj1 every_delivery_is_processed_afresh
              Examples.loggerEnv Examples.intensityDelivery) as (ls & sig & H).
  exists ls, sig. split; [reflexivity|].
  destruct (H Examples.loggerStarted (Amqp.mkChannel []) eq_refl)
    as (_ & _ & Hconsole & Hsignals).
  split; [exact Hconsole|exact Hsignals].
Defined.

(* ====================================================================== *)
(** * Further properties of the ingesters *)
(* ====================================================================== *)

Section CarbonRunFacts.
Import CarbonIngester Messages Topology.

Variable penv : ProcessEnv.

(** Whatever holds of the three kinds of publish call holds of everything a
    run adds to the publish log. *)
Lemma carbon_run_publishes_only (P : Broker.Published -> Prop) :
  (forall nowMs rt d,
      P (publishCall nowMs (upcast PIntensity (createCarbonIntensityMessage rt d))
                     ROUTING_KEYS.CARBON_INTENSITY)) ->
  (forall nowMs rt d,
      P (publishCall nowMs (upcast PGeneration (createCarbonGenerationMessage rt d))
                     ROUTING_KEYS.CARBON_GENERATION)) ->
  forall evs st, exists new,
    publishedBy (snd (run penv evs st)) = publishedBy st ++ new /\
    Forall P new.
Proof.
  intros HI HG evs.
  induction evs as [|ev evs IH]; intro st; cbn [run].
  - exists []. rewrite app_nil_r. split; [reflexivity|constructor].
  - destruct (carbon_step_publishes penv ev st) as (o & _ & Hstep & _).
    rewrite Hstep.
    destruct (IH (snd (step penv ev st))) as (new' & Hlog' & Hnew').
    destruct (run penv evs (snd (step penv ev st))) as [os st''] eqn:Hrun.
    cbn [snd] in *. rewrite Hlog'.
    assert (Hone : exists new, publishedBy (snd (step penv ev st))
                               = publishedBy st ++ new /\ Forall P new).
    { destruct ev as [env|env|]; cbn [step].
      - rewrite pollIntensity_cases.
        destruct (isShuttingDown st);
          [exists []; rewrite app_nil_r; split; [reflexivity|constructor]|].
        destruct (fetchIntensity (fetched env)) as [d|e];
          [|exists []; cbn; rewrite app_nil_r; split; [reflexivity|constructor]].
        destruct (channel st) as [ch|] eqn:Hch; unfold publishedBy; cbn;
          rewrite Hch.
        + eexists [_]. split; [reflexivity|]. constructor; [apply HI|constructor].
        + exists []. split; [reflexivity|constructor].
      - rewrite pollGeneration_cases.
        destruct (isShuttingDown st);
          [exists []; rewrite app_nil_r; split; [reflexivity|constructor]|].
        destruct (fetchGeneration (fetchIso env) (fetched env)) as [d|e];
          [|exists []; cbn; rewrite app_nil_r; split; [reflexivity|constructor]].
        destruct (channel st) as [ch|] eqn:Hch; cbv zeta;
          [destruct (topSources (sortDescending env) d) as [top|e]|];
          unfold publishedBy; cbn; rewrite Hch.
        + eexists [_]. split; [reflexivity|]. constructor; [apply HG|constructor].
        + eexists [_]. split; [reflexivity|]. constructor; [apply HG|constructor].
        + exists []. split; [reflexivity|constructor].
      - exists []. rewrite app_nil_r. split; [|constructor].
        unfold shutdown. destruct (isShuttingDown st); reflexivity. }
    destruct Hone as (new & Hlog & Hnew).
    exists (new ++ new'). rewrite Hlog, app_assoc. split; [reflexivity|].
    apply Forall_app; auto.
Qed.

End CarbonRunFacts.

Section WeatherRunFacts.
Import WeatherIngester Messages Topology.

Variable penv : ProcessEnv.

Lemma weather_run_publishes_only (P : Broker.Published -> Prop) :
  (forall nowMs rt d,
      P (publishCall nowMs (upcast PWeather (createWeatherCurrentMessage rt d))
                     ROUTING_KEYS.WEATHER_CURRENT)) ->
  forall evs st, exists new,
    publishedBy (snd (run penv evs st)) = publishedBy st ++ new /\
    Forall P new.
Proof.
  intros HW evs.
  induction evs as [|ev evs IH]; intro st; cbn [run].
  - exists []. rewrite app_nil_r. split; [reflexivity|constructor].
  - destruct (weather_step_publishes penv ev st) as (o & _ & Hstep & _).
    rewrite Hstep.
    destruct (IH (snd (step penv ev st))) as (new' & Hlog' & Hnew').
    destruct (run penv evs (snd (step penv ev st))) as [os st''] eqn:Hrun.
    cbn [snd] in *. rewrite Hlog'.
    assert (Hone : exists new, publishedBy (snd (step penv ev st))
                               = publishedBy st ++ new /\ Forall P new).
    { destruct ev as [env|]; cbn [step].
      - rewrite pollWeather_cases.
        destruct (isShuttingDown st);
          [exists []; rewrite app_nil_r; split; [reflexivity|constructor]|].
        destruct (fetchWeather (toISO env) (fetched env)) as [d|e].
        + destruct (channel st) as [ch|] eqn:Hch; unfold publishedBy; cbn;
            rewrite Hch.
          * eexists [_]. split; [reflexivity|].
            constructor; [apply HW|constructor].
          * exists []. split; [reflexivity|constructor].
        + destruct (instanceofRateLimitError e);
            exists []; cbn; rewrite app_nil_r; split;
              solve [reflexivity|constructor].
      - exists []. rewrite app_nil_r. split; [|constructor].
        unfold shutdown. destruct (isShuttingDown st); reflexivity. }
    destruct Hone as (new & Hlog & Hnew).
    exists (new ++ new'). rewrite Hlog, app_assoc. split; [reflexivity|].
    apply Forall_app; auto.
Qed.

End WeatherRunFacts.

(** X1. Every message either ingester publishes is addressed as the wire
    contract says: to the topic exchange, as persistent UTF-8 JSON, with the
    envelope's id as message id and the envelope's source as application
    id. *)
Theorem published_messages_are_well_addressed :
  (forall penv evs st, exists new,
      CarbonIngester.publishedBy (snd (CarbonIngester.run penv evs st))
      = CarbonIngester.publishedBy st ++ new /\
      Forall Wire.wellAddressed new) /\
  (forall penv evs st, exists new,
      WeatherIngester.publishedBy (snd (WeatherIngester.run penv evs st))
      = WeatherIngester.publishedBy st ++ new /\
      Forall Wire.wellAddressed new).
Proof.
  split; intros penv evs st.
  - apply carbon_run_publishes_only; intros; repeat split.
  - apply weather_run_publishes_only; intros; repeat split.
Qed.

(** ** Order of publication *)

Lemma carbon_step_state (penv : CarbonIngester.ProcessEnv)
      (ev : CarbonIngester.Event) (st : CarbonIngester.State)
      (ch : Broker.Channel) :
  CarbonIngester.channel st = Some ch ->
  exists o ch',
    CarbonIngester.step penv ev st = (Js.Normal o, snd (CarbonIngester.step penv ev st)) /\
    CarbonIngester.channel (snd (CarbonIngester.step penv ev st)) = Some ch' /\
    CarbonIngester.isShuttingDown (snd (CarbonIngester.step penv ev st))
    = match ev with
      | CarbonIngester.Signal => true
      | _ => CarbonIngester.isShuttingDown st
      end /\
    Broker.envelopeIds (Broker.published ch')
    = Broker.envelopeIds (Broker.published ch)
      ++ match ev with
         | CarbonIngester.Signal => []
         | _ => if CarbonIngester.isShuttingDown st then []
                else match CarbonRuns.fetchedId ev with
                     | Some u => [u]
                     | None => []
                     end
         end.
Proof.
  intro Hch.
  destruct ev as [env|env|]; cbn [CarbonIngester.step CarbonRuns.fetchedId].
  - rewrite pollIntensity_cases.
    destruct (CarbonIngester.isShuttingDown st) eqn:Hdown.
    { exists CarbonIngester.Skipped, ch. cbn. rewrite app_nil_r. auto. }
    destruct (CarbonIngester.fetchIntensity (CarbonIngester.fetched env)) as [d|e];
      rewrite ?Hch.
    + eexists _, _.
      cbn [snd CarbonIngester.channel CarbonIngester.isShuttingDown
           CarbonIngester.set_intensityTimer CarbonIngester.set_intensityFailures
           CarbonIngester.set_channel].
      repeat split; try eassumption.
      unfold Broker.envelopeIds, Broker.publish. cbn [Broker.published].
      rewrite map_app. reflexivity.
    + eexists _, ch. cbn. rewrite app_nil_r. auto.
  - rewrite pollGeneration_cases.
    destruct (CarbonIngester.isShuttingDown st) eqn:Hdown.
    { exists CarbonIngester.Skipped, ch. cbn. rewrite app_nil_r. auto. }
    destruct (CarbonIngester.fetchGeneration _ _) as [d|e]; rewrite ?Hch.
    + cbv zeta.
      destruct (CarbonIngester.topSources _ d) as [top|e];
        (eexists _, _;
         cbn [snd CarbonIngester.channel CarbonIngester.isShuttingDown
              CarbonIngester.set_generationTimer
              CarbonIngester.set_generationFailures CarbonIngester.set_channel];
         repeat split; try eassumption;
         unfold Broker.envelopeIds, Broker.publish; cbn [Broker.published];
         rewrite map_app; reflexivity).
    + eexists _, ch. cbn. rewrite app_nil_r. auto.
  - exists CarbonIngester.Skipped, ch. cbn. rewrite app_nil_r.
    unfold CarbonIngester.shutdown.
    destruct (CarbonIngester.isShuttingDown st) eqn:Hdown; cbn; auto.
Qed.

(** X2. With its channel set, the carbon ingester publishes exactly one
    envelope per successful fetch, in the order of the fetches, under the id
    drawn for that fetch; failed fetches and polls after the termination
    signal publish nothing. *)
Theorem carbon_publishes_in_fetch_order :
  forall penv evs st ch,
    CarbonIngester.channel st = Some ch ->
    Broker.envelopeIds
      (CarbonIngester.publishedBy (snd (CarbonIngester.run penv evs st)))
    = Broker.envelopeIds (CarbonIngester.publishedBy st)
      ++ CarbonRuns.expectedIds (CarbonIngester.isShuttingDown st) evs.
Proof.
  intros penv evs.
  induction evs as [|ev evs IH]; intros st ch Hch.
  - cbn. rewrite app_nil_r. reflexivity.
  - cbn [CarbonIngester.run].
    destruct (carbon_step_state penv ev st ch Hch)
      as (o & ch' & Hstep & Hch' & Hdown' & Hids).
    rewrite Hstep.
    specialize (IH (snd (CarbonIngester.step penv ev st)) ch' Hch').
    destruct (CarbonIngester.run penv evs (snd (CarbonIngester.step penv ev st)))
      as [os st''] eqn:Hrun.
    cbn [snd] in *. rewrite IH.
    unfold CarbonIngester.publishedBy at 1 2. rewrite Hch', Hch, Hids, Hdown'.
    rewrite <- app_assoc. f_equal.
    destruct ev as [env|env|]; cbn [CarbonRuns.expectedIds];
      try reflexivity;
      destruct (CarbonIngester.isShuttingDown st); try reflexivity;
      destruct (CarbonRuns.fetchedId _); reflexivity.
Qed.

Lemma carbon_publishes_in_fetch_order_witness :
  CarbonIngester.channel Examples.carbonStarted = Some Examples.emptyChannel /\
  Broker.envelopeIds
    (CarbonIngester.publishedBy
       (snd (CarbonIngester.run Examples.carbonEnv
               [CarbonIngester.IntensityPoll (Examples.intensityOk "u1");
                CarbonIngester.IntensityPoll Examples.intensityDown;
                CarbonIngester.GenerationPoll (Examples.generationOk "g1");
                CarbonIngester.Signal;
                CarbonIngester.IntensityPoll (Examples.intensityOk "u2")]
               Examples.carbonStarted)))
  = ["u1"; "g1"].
Proof.
  split; [reflexivity|].
  exact (carbon_publishes_in_fetch_order Examples.carbonEnv
           [CarbonIngester.IntensityPoll (Examples.intensityOk "u1");
            CarbonIngester.IntensityPoll Examples.intensityDown;
            CarbonIngester.GenerationPoll (Examples.generationOk "g1");
            CarbonIngester.Signal;
            CarbonIngester.IntensityPoll (Examples.intensityOk "u2")]
           Examples.carbonStarted Examples.emptyChannel eq_refl).
Defined.

(** ** After the termination signal *)



(** ** The two cycles of the carbon ingester *)

Section CarbonIndependence.
Import CarbonIngester CarbonRuns.

Variable penv : ProcessEnv.

Lemma outcomesAt_cons {O} (keep : Event -> bool) ev evs (o : O) os :
  outcomesAt keep (ev :: evs) (o :: os)
  = if keep ev then o :: outcomesAt keep evs os else outcomesAt keep evs os.
Proof. unfold outcomesAt. cbn. destruct (keep ev); reflexivity. Qed.

Lemma carbon_run_cons ev evs st :
  exists o,
    step penv ev st = (Js.Normal o, snd (step penv ev st)) /\
    run penv (ev :: evs) st
    = (Js.Normal o :: fst (run penv evs (snd (step penv ev st))),
       snd (run penv evs (snd (step penv ev st)))).
Proof.
  destruct (carbon_step_publishes penv ev st) as (o & _ & Hstep & _).
  exists o. split; [exact Hstep|].
  cbn [run]. destruct (step penv ev st) as [c st'] eqn:Hs.
  cbn [snd] in *. injection Hstep as ->.
  destruct (run penv evs st'). reflexivity.
Qed.

(** A generation poll leaves alone everything an intensity poll reads. *)
Lemma generation_poll_frame env st :
  isShuttingDown (snd (pollGeneration penv env st)) = isShuttingDown st /\
  intensityFailures (snd (pollGeneration penv env st)) = intensityFailures st /\
  intensityTimer (snd (pollGeneration penv env st)) = intensityTimer st /\
  hasChannel (snd (pollGeneration penv env st)) = hasChannel st.
Proof.
  rewrite pollGeneration_cases. unfold hasChannel.
  destruct (isShuttingDown st) eqn:Hd; [auto|].
  destruct (fetchGeneration (fetchIso env) (fetched env)) as [d|e];
    destruct (channel st) eqn:Hch; cbv zeta;
    try destruct (topSources (sortDescending env) d);
    cbn; rewrite ?Hch; auto.
Qed.

Lemma intensity_poll_frame env st :
  isShuttingDown (snd (pollIntensity penv env st)) = isShuttingDown st /\
  generationFailures (snd (pollIntensity penv env st)) = generationFailures st /\
  generationTimer (snd (pollIntensity penv env st)) = generationTimer st /\
  hasChannel (snd (pollIntensity penv env st)) = hasChannel st.
Proof.
  rewrite pollIntensity_cases. unfold hasChannel.
  destruct (isShuttingDown st) eqn:Hd; [auto|].
  destruct (fetchIntensity (fetched env));
    destruct (channel st) eqn:Hch; cbn; rewrite ?Hch; auto.
Qed.

(** What an intensity poll returns, and the counter and timer it leaves,
    depend on the shutdown flag, the intensity counter and timer, and on
    whether a channel is set. *)
Lemma intensity_poll_reads env st1 st2 :
  isShuttingDown st1 = isShuttingDown st2 ->
  intensityFailures st1 = intensityFailures st2 ->
  intensityTimer st1 = intensityTimer st2 ->
  hasChannel st1 = hasChannel st2 ->
  fst (pollIntensity penv env st1) = fst (pollIntensity penv env st2) /\
  intensityFailures (snd (pollIntensity penv env st1))
  = intensityFailures (snd (pollIntensity penv env st2)) /\
  intensityTimer (snd (pollIntensity penv env st1))
  = intensityTimer (snd (pollIntensity penv env st2)).
Proof.
  unfold hasChannel. intros Hd Hf Ht Hc.
  rewrite !pollIntensity_cases, <- Hd.
  destruct (isShuttingDown st1); [auto|].
  destruct (fetchIntensity (fetched env));
    destruct (channel st1), (channel st2); try discriminate Hc;
    cbn; rewrite ?Hf; auto.
Qed.

Lemma generation_poll_reads env st1 st2 :
  isShuttingDown st1 = isShuttingDown st2 ->
  generationFailures st1 = generationFailures st2 ->
  generationTimer st1 = generationTimer st2 ->
  hasChannel st1 = hasChannel st2 ->
  fst (pollGeneration penv env st1) = fst (pollGeneration penv env st2) /\
  generationFailures (snd (pollGeneration penv env st1))
  = generationFailures (snd (pollGeneration penv env st2)) /\
  generationTimer (snd (pollGeneration penv env st1))
  = generationTimer (snd (pollGeneration penv env st2)).
Proof.
  unfold hasChannel. intros Hd Hf Ht Hc.
  rewrite !pollGeneration_cases, <- Hd.
  destruct (isShuttingDown st1); [auto|].
  destruct (fetchGeneration (fetchIso env) (fetched env)) as [d|e];
    destruct (channel st1), (channel st2); try discriminate Hc;
    cbv zeta; try destruct (topSources (sortDescending env) d);
    cbn; rewrite ?Hf; auto.
Qed.

Lemma shutdown_reads st1 st2 :
  isShuttingDown st1 = isShuttingDown st2 ->
  hasChannel st1 = hasChannel st2 ->
  isShuttingDown (shutdown st1) = isShuttingDown (shutdown st2) /\
  hasChannel (shutdown st1) = hasChannel (shutdown st2) /\
  (intensityFailures st1 = intensityFailures st2 ->
   intensityFailures (shutdown st1) = intensityFailures (shutdown st2)) /\
  (generationFailures st1 = generationFailures st2 ->
   generationFailures (shutdown st1) = generationFailures (shutdown st2)) /\
  (intensityTimer st1 = intensityTimer st2 ->
   intensityTimer (shutdown st1) = intensityTimer (shutdown st2)) /\
  (generationTimer st1 = generationTimer st2 ->
   generationTimer (shutdown st1) = generationTimer (shutdown st2)).
Proof.
  unfold shutdown. intros Hd Hc. rewrite <- Hd.
  destruct (isShuttingDown st1) eqn:Hd1.
  - repeat split; auto. congruence.
  - unfold hasChannel in *. cbn. repeat split; auto.
Qed.

Lemma intensity_cycle_ignores_generation evs :
  forall st1 st2,
    isShuttingDown st1 = isShuttingDown st2 ->
    intensityFailures st1 = intensityFailures st2 ->
    intensityTimer st1 = intensityTimer st2 ->
    hasChannel st1 = hasChannel st2 ->
    outcomesAt (fun ev => negb (isGenerationPoll ev)) evs (fst (run penv evs st1))
    = fst (run penv (filter (fun ev => negb (isGenerationPoll ev)) evs) st2) /\
    intensityFailures (snd (run penv evs st1))
    = intensityFailures
        (snd (run penv (filter (fun ev => negb (isGenerationPoll ev)) evs) st2)).
Proof.
  induction evs as [|ev evs IH]; intros st1 st2 Hd Hf Ht Hc.
  - cbn. auto.
  - destruct (carbon_run_cons ev evs st1) as (o1 & Hs1 & Hr1).
    rewrite Hr1. cbn [fst snd]. rewrite outcomesAt_cons.
    destruct ev as [env|env|]; cbn [isGenerationPoll negb filter].
    + destruct (carbon_run_cons (IntensityPoll env)
                  (filter (fun ev => negb (isGenerationPoll ev)) evs) st2)
        as (o2 & Hs2 & Hr2).
      rewrite Hr2. cbn [fst snd step] in *.
      destruct (intensity_poll_reads env st1 st2 Hd Hf Ht Hc) as (Ho & Hf' & Ht').
      destruct (intensity_poll_frame env st1) as (Hd1 & _ & _ & Hc1).
      destruct (intensity_poll_frame env st2) as (Hd2 & _ & _ & Hc2).
      destruct (IH (snd (pollIntensity penv env st1))
                   (snd (pollIntensity penv env st2))) as [IHo IHf];
        try congruence.
      rewrite Hs1, Hs2 in Ho. cbn [fst] in Ho.
      split; [rewrite IHo; congruence|exact IHf].
    + cbn [step] in *.
      destruct (generation_poll_frame env st1) as (Hd1 & Hf1 & Ht1 & Hc1).
      apply IH; congruence.
    + destruct (carbon_run_cons Signal
                  (filter (fun ev => negb (isGenerationPoll ev)) evs) st2)
        as (o2 & Hs2 & Hr2).
      rewrite Hr2. cbn [fst snd step] in *.
      destruct (shutdown_reads st1 st2 Hd Hc) as (Hd' & Hc' & Hf' & _ & Ht' & _).
      destruct (IH (shutdown st1) (shutdown st2)) as [IHo IHf]; auto.
      inversion Hs1; inversion Hs2; subst.
      split; [rewrite IHo; reflexivity|exact IHf].
Qed.

Lemma generation_cycle_ignores_intensity evs :
  forall st1 st2,
    isShuttingDown st1 = isShuttingDown st2 ->
    generationFailures st1 = generationFailures st2 ->
    generationTimer st1 = generationTimer st2 ->
    hasChannel st1 = hasChannel st2 ->
    outcomesAt (fun ev => negb (isIntensityPoll ev)) evs (fst (run penv evs st1))
    = fst (run penv (filter (fun ev => negb (isIntensityPoll ev)) evs) st2) /\
    generationFailures (snd (run penv evs st1))
    = generationFailures
        (snd (run penv (filter (fun ev => negb (isIntensityPoll ev)) evs) st2)).
Proof.
  induction evs as [|ev evs IH]; intros st1 st2 Hd Hf Ht Hc.
  - cbn. auto.
  - destruct (carbon_run_cons ev evs st1) as (o1 & Hs1 & Hr1).
    rewrite Hr1. cbn [fst snd]. rewrite outcomesAt_cons.
    destruct ev as [env|env|]; cbn [isIntensityPoll negb filter].
    + cbn [step] in *.
      destruct (intensity_poll_frame env st1) as (Hd1 & Hf1 & Ht1 & Hc1).
      apply IH; congruence.
    + destruct (carbon_run_cons (GenerationPoll env)
                  (filter (fun ev => negb (isIntensityPoll ev)) evs) st2)
        as (o2 & Hs2 & Hr2).
      rewrite Hr2. cbn [fst snd step] in *.
      destruct (generation_poll_reads env st1 st2 Hd Hf Ht Hc) as (Ho & Hf' & Ht').
      destruct (generation_poll_frame env st1) as (Hd1 & _ & _ & Hc1).
      destruct (generation_poll_frame env st2) as (Hd2 & _ & _ & Hc2).
      destruct (IH (snd (pollGeneration penv env st1))
                   (snd (pollGeneration penv env st2))) as [IHo IHf];
        try congruence.
      rewrite Hs1, Hs2 in Ho. cbn [fst] in Ho.
      split; [rewrite IHo; congruence|exact IHf].
    + destruct (carbon_run_cons Signal
                  (filter (fun ev => negb (isIntensityPoll ev)) evs) st2)
        as (o2 & Hs2 & Hr2).
      rewrite Hr2. cbn [fst snd step] in *.
      destruct (shutdown_reads st1 st2 Hd Hc) as (Hd' & Hc' & _ & Hf' & _ & Ht').
      destruct (IH (shutdown st1) (shutdown st2)) as [IHo IHf]; auto.
      inversion Hs1; inversion Hs2; subst.
      split; [rewrite IHo; reflexivity|exact IHf].
Qed.

End CarbonIndependence.

(** X4. The intensity cycle and the generation cycle of the carbon ingester
    do not influence each other: what the intensity polls of a run return
    (scheduled, or retried after which backoff) and the intensity failure
    counter at the end are the same as in the run with all generation polls
    removed, and symmetrically for the generation cycle. *)
Theorem carbon_cycles_are_independent :
  forall penv evs st,
    (CarbonRuns.outcomesAt (fun ev => negb (CarbonRuns.isGenerationPoll ev)) evs
       (fst (CarbonIngester.run penv evs st))
     = fst (CarbonIngester.run penv
              (filter (fun ev => negb (CarbonRuns.isGenerationPoll ev)) evs) st) /\
     CarbonIngester.intensityFailures (snd (CarbonIngester.run penv evs st))
     = CarbonIngester.intensityFailures
         (snd (CarbonIngester.run penv
                 (filter (fun ev => negb (CarbonRuns.isGenerationPoll ev)) evs) st))) /\
    (CarbonRuns.outcomesAt (fun ev => negb (CarbonRuns.isIntensityPoll ev)) evs
       (fst (CarbonIngester.run penv evs st))
     = fst (CarbonIngester.run penv
              (filter (fun ev => negb (CarbonRuns.isIntensityPoll ev)) evs) st) /\
     CarbonIngester.generationFailures (snd (CarbonIngester.run penv evs st))
     = CarbonIngester.generationFailures
         (snd (CarbonIngester.run penv
                 (filter (fun ev => negb (CarbonRuns.isIntensityPoll ev)) evs) st))).
Proof.
  intros penv evs st. split.
  - apply intensity_cycle_ignores_generation; reflexivity.
  - apply generation_cycle_ignores_intensity; reflexivity.
Qed.

(** ** Responses of the sources *)

(** X5. A response outside the 2xx range never yields data: each fetch
    function throws before it reads the body, the weather fetch classifying
    429 as a rate-limit error and 401 as an invalid key.  The poll that met
    such a response publishes nothing and changes nothing but its failure
    counter: it counts one failure and retries after the backoff of the new
    count, except that a 429 of the weather source counts no failure and
    waits the fixed cooldown instead. *)
Theorem non_2xx_response_is_never_published :
  (forall response,
      Http.ok response = false ->
      CarbonIngester.fetchIntensity (Js.Normal response)
      = Js.Throw (Http.httpError response)) /\
  (forall iso response,
      Http.ok response = false ->
      CarbonIngester.fetchGeneration iso (Js.Normal response)
      = Js.Throw (Http.httpError response)) /\
  (forall toISO response,
      Http.ok response = false ->
      WeatherIngester.fetchWeather toISO (Js.Normal response)
      = Js.Throw (if Http.status response =? 429
                  then WeatherIngester.RateLimitError
                  else if Http.status response =? 401
                       then Js.newError "Invalid API key (401)"
                       else Http.httpError response)) /\
  (forall penv env st response,
      CarbonIngester.fetched env = Js.Normal response ->
      Http.ok response = false ->
      CarbonIngester.pollIntensity penv env st
      = (if CarbonIngester.isShuttingDown st
         then (Js.Normal CarbonIngester.Skipped, st)
         else (Js.Normal
                 (CarbonIngester.Retried
                    (CarbonIngester.calculateBackoff (CarbonIngester.CONFIG penv)
                       (CarbonIngester.intensityFailures st + 1))),
               CarbonIngester.set_intensityFailures
                 (CarbonIngester.intensityFailures st + 1) st)) /\
      CarbonIngester.publishedBy (snd (CarbonIngester.pollIntensity penv env st))
      = CarbonIngester.publishedBy st) /\
  (forall penv env st response,
      CarbonIngester.fetched env = Js.Normal response ->
      Http.ok response = false ->
      CarbonIngester.pollGeneration penv env st
      = (if CarbonIngester.isShuttingDown st
         then (Js.Normal CarbonIngester.Skipped, st)
         else (Js.Normal
                 (CarbonIngester.Retried
                    (CarbonIngester.calculateBackoff (CarbonIngester.CONFIG penv)
                       (CarbonIngester.generationFailures st + 1))),
               CarbonIngester.set_generationFailures
                 (CarbonIngester.generationFailures st + 1) st)) /\
      CarbonIngester.publishedBy (snd (CarbonIngester.pollGeneration penv env st))
      = CarbonIngester.publishedBy st) /\
  (forall penv env st response,
      WeatherIngester.fetched env = Js.Normal response ->
      Http.ok response = false ->
      WeatherIngester.pollWeather penv env st
      = (if WeatherIngester.isShuttingDown st
         then (Js.Normal WeatherIngester.Skipped, st)
         else if Http.status response =? 429
              then (Js.Normal
                      (WeatherIngester.RateLimited
                         (WeatherIngester.rateLimitDelay
                            (WeatherIngester.CONFIG penv))), st)
              else (Js.Normal
                      (WeatherIngester.Retried
                         (WeatherIngester.calculateBackoff
                            (WeatherIngester.CONFIG penv)
                            (WeatherIngester.failures st + 1))),
                    WeatherIngester.set_failures
                      (WeatherIngester.failures st + 1) st)) /\
      WeatherIngester.publishedBy (snd (WeatherIngester.pollWeather penv env st))
      = WeatherIngester.publishedBy st).
Proof.
  assert (HI : forall response, Http.ok response = false ->
            CarbonIngester.fetchIntensity (Js.Normal response)
            = Js.Throw (Http.httpError response)).
  { intros response Hok. unfold CarbonIngester.fetchIntensity.
    rewrite Hok. reflexivity. }
  assert (HG : forall iso response, Http.ok response = false ->
            CarbonIngester.fetchGeneration iso (Js.Normal response)
            = Js.Throw (Http.httpError response)).
  { intros iso response Hok. unfold CarbonIngester.fetchGeneration.
    rewrite Hok. reflexivity. }
  assert (HW : forall toISO response, Http.ok response = false ->
            WeatherIngester.fetchWeather toISO (Js.Normal response)
            = Js.Throw (if Http.status response =? 429
                        then WeatherIngester.RateLimitError
                        else if Http.status response =? 401
                             then Js.newError "Invalid API key (401)"
                             else Http.httpError response)).
  { intros toISO response Hok. unfold WeatherIngester.fetchWeather.
    rewrite Hok.
    destruct (Http.status response =? 429); [reflexivity|].
    destruct (Http.status response =? 401); reflexivity. }
  repeat apply conj; try assumption.
  - intros penv env st response Hf Hok.
    rewrite pollIntensity_cases, Hf, (HI response Hok).
    destruct (CarbonIngester.isShuttingDown st); split; reflexivity.
  - intros penv env st response Hf Hok.
    rewrite pollGeneration_cases, Hf, (HG _ response Hok).
    destruct (CarbonIngester.isShuttingDown st); split; reflexivity.
  - intros penv env st response Hf Hok.
    rewrite pollWeather_cases, Hf, (HW _ response Hok).
    destruct (WeatherIngester.isShuttingDown st); [split; reflexivity|].
    destruct (Http.status response =? 429); [split; reflexivity|].
    destruct (Http.status response =? 401); split; reflexivity.
Qed.

Lemma non_2xx_response_is_never_published_witness :
  (Http.ok (Http.mkResponse 503 "Service Unavailable"
              (Js.Throw (Js.SyntaxError "Unexpected token")
               : Js.Completion CarbonIngester.IntensityApiResponse)) = false /\
   CarbonIngester.pollIntensity Examples.carbonEnv Examples.intensityDown
                                Examples.carbonStarted
   = (Js.Normal (CarbonIngester.Retried 10000),
      CarbonIngester.set_intensityFailures 1 Examples.carbonStarted)) /\
  (Http.ok (Http.mkResponse 429 "Too Many Requests"
              (Js.Throw (Js.SyntaxError "Unexpected token")
               : Js.Completion WeatherIngester.WeatherApiResponse)) = false /\
   WeatherIngester.pollWeather Examples.weatherEnv MoreExamples.weatherLimited
                               Examples.weatherStarted
   = (Js.Normal (WeatherIngester.RateLimited 60000), Examples.weatherStarted)).
Proof.
  split; (split; [reflexivity|]).
  - exact (proj1 (proj1 (proj2 (proj2 (proj2 non_2xx_response_is_never_published)))
                    Examples.carbonEnv Examples.intensityDown
                    Examples.carbonStarted _ eq_refl eq_refl)).
  - exact (proj1 (proj2 (proj2 (proj2 (proj2
                    (proj2 non_2xx_response_is_never_published))))
                    Examples.weatherEnv MoreExamples.weatherLimited
                    Examples.weatherStarted _ eq_refl eq_refl)).
Defined.

(** ** Rate limiting *)

(** X6. A poll that meets the rate limit waits the fixed cooldown and leaves
    the ingester exactly as it found it: the failure counter, the publish log
    and the timer of a run are the same as in the run with all rate-limited
    polls removed, so a cooldown never lengthens the backoff that follows. *)
Theorem rate_limited_polls_leave_no_trace :
  (forall penv env st,
      WeatherRuns.isRateLimited (WeatherIngester.WeatherPoll env) = true ->
      WeatherIngester.pollWeather penv env st
      = (Js.Normal (if WeatherIngester.isShuttingDown st
                    then WeatherIngester.Skipped
                    else WeatherIngester.RateLimited 60000), st)) /\
  (forall penv evs st,
      snd (WeatherIngester.run penv
             (filter (fun ev => negb (WeatherRuns.isRateLimited ev)) evs) st)
      = snd (WeatherIngester.run penv evs st)).
Proof.
  assert (Hone : forall penv env st,
      WeatherRuns.isRateLimited (WeatherIngester.WeatherPoll env) = true ->
      WeatherIngester.pollWeather penv env st
      = (Js.Normal (if WeatherIngester.isShuttingDown st
                    then WeatherIngester.Skipped
                    else WeatherIngester.RateLimited 60000), st)).
  { intros penv env st Hrl. cbn [WeatherRuns.isRateLimited] in Hrl.
    rewrite pollWeather_cases.
    destruct (WeatherIngester.isShuttingDown st); [reflexivity|].
    destruct (WeatherIngester.fetchWeather _ _) as [d|e]; [discriminate Hrl|].
    rewrite Hrl. reflexivity. }
  split; [exact Hone|].
  intros penv evs. induction evs as [|ev evs IH]; intro st; [reflexivity|].
  cbn [filter].
  destruct (WeatherRuns.isRateLimited ev) eqn:Hrl; cbn [negb].
  - destruct ev as [env|]; [|discriminate Hrl].
    cbn [WeatherIngester.run WeatherIngester.step].
    rewrite (Hone penv env st Hrl), IH.
    destruct (WeatherIngester.run penv evs st). reflexivity.
  - cbn [WeatherIngester.run].
    destruct (weather_step_publishes penv ev st) as (o & _ & Hstep & _).
    destruct (WeatherIngester.step penv ev st) as [c st'] eqn:Hs.
    cbn [snd] in Hstep. injection Hstep as ->.
    specialize (IH st').
    destruct (WeatherIngester.run penv
                (filter (fun ev => negb (WeatherRuns.isRateLimited ev)) evs) st'),
             (WeatherIngester.run penv evs st').
    exact IH.
Qed.

Lemma rate_limited_polls_leave_no_trace_witness :
  WeatherRuns.isRateLimited (WeatherIngester.WeatherPoll MoreExamples.weatherLimited)
  = true /\
  WeatherIngester.pollWeather Examples.weatherEnv MoreExamples.weatherLimited
                              Examples.weatherStarted
  = (Js.Normal (WeatherIngester.RateLimited 60000), Examples.weatherStarted).
Proof.
  split; [reflexivity|].
  exact (proj1 rate_limited_polls_leave_no_trace Examples.weatherEnv
           MoreExamples.weatherLimited Examples.weatherStarted eq_refl).
Defined.

(* ====================================================================== *)
(** * Further properties of the connection manager *)
(* ====================================================================== *)

Section LoopFacts.
Import Connection.

(** What an interruption adds to the trace is no attempt and no sleep, and
    it changes nothing of the configuration or the retry count. *)
Lemma interrupt_trace (a : Attempt) (w : World) :
  exists ce,
    trace (interrupt a w) = trace w ++ ce /\
    attempts ce = O /\ delays ce = [] /\
    waiters (interrupt a w) = waiters w /\
    url (mgr (interrupt a w)) = url (mgr w) /\
    maxRetries (mgr (interrupt a w)) = maxRetries (mgr w) /\
    initialRetryDelay (mgr (interrupt a w)) = initialRetryDelay (mgr w) /\
    maxRetryDelay (mgr (interrupt a w)) = maxRetryDelay (mgr w) /\
    retryCount (mgr (interrupt a w)) = retryCount (mgr w) /\
    connectionListeners (mgr (interrupt a w)) = connectionListeners (mgr w) /\
    errorListeners (mgr (interrupt a w)) = errorListeners (mgr w).
Proof.
  unfold interrupt. destruct (closeCalled a) as [cenv|].
  - destruct (close_spec cenv w)
      as (w' & Hc & _ & _ & _ & Htr & Hw & Hu & HM & Hi & Hd & _ & Hr & Hcl & Hel).
    rewrite Hc. cbn [snd]. exists (closeEffects (mgr w)).
    rewrite attempts_closeEffects, delays_closeEffects. repeat split; assumption.
  - exists []. rewrite app_nil_r. repeat split.
Qed.

Lemma delays_resolves (ls : list Waiter) (c : AmqpConnection) :
  delays (map (fun l => Resolve l c) ls) = [].
Proof. induction ls; [reflexivity|assumption]. Qed.

(** Whatever the broker does, the loop makes at most as many attempts as
    are left before the ceiling, sleeps at most once per attempt, and never
    longer than [maxRetryDelay]. *)
Lemma connect_loop_bounds (fuel : nat) :
  forall env k w r w',
    connect_loop fuel env k w = Some (r, w') ->
    exists t,
      trace w' = trace w ++ t /\
      (attempts t <= Z.to_nat (maxRetries (mgr w) + 1 - retryCount (mgr w)))%nat /\
      (List.length (delays t) <= attempts t)%nat /\
      Forall (fun d => d <= maxRetryDelay (mgr w)) (delays t).
Proof.
  induction fuel as [|fuel IH]; intros env k w r w' Hrun; [discriminate Hrun|].
  cbn [connect_loop] in Hrun.
  destruct ((retryCount (mgr w) <=? maxRetries (mgr w))
            && negb (isClosed (mgr w))) eqn:Hcond.
  2:{ injection Hrun as <- <-. exists []. rewrite app_nil_r.
      repeat split; cbn; [lia|lia|constructor]. }
  apply andb_true_iff in Hcond. destruct Hcond as [Hle _]. apply Z.leb_le in Hle.
  cbv zeta in Hrun.
  destruct (interrupt_trace (env k) (emit [AmqpConnect (url (mgr w))] w))
    as (ce & Htr & Hace & Hdce & _ & _ & HM & _ & HD & HR & _).
  set (w1 := interrupt (env k) (emit [AmqpConnect (url (mgr w))] w)) in *.
  cbn [emit mgr trace] in Htr, HM, HD, HR.
  destruct (settles (env k)) as [conn|error].
  - injection Hrun as <- <-.
    eexists. cbn [update emit trace mgr]. rewrite Htr, <- !app_assoc.
    split; [reflexivity|].
    rewrite !attempts_app, !delays_app, Hace, Hdce, attempts_resolves,
      delays_resolves.
    cbn. repeat split; [lia|lia|constructor].
  - destruct (retryCount (mgr (update (fun m => set_retryCount (retryCount m + 1) m) w1))
              >? maxRetries (mgr (update (fun m => set_retryCount (retryCount m + 1) m) w1)))
      eqn:Hover.
    + injection Hrun as <- <-.
      eexists. cbn [update emit trace mgr]. rewrite Htr, <- !app_assoc.
      split; [reflexivity|].
      rewrite !attempts_app, !delays_app, Hace, Hdce, attempts_rejects,
        delays_rejects.
      cbn. repeat split; [lia|lia|constructor].
    + apply IH in Hrun. destruct Hrun as (t & Ht & Hat & Hlen & Hall).
      cbn [update emit trace mgr maxRetries retryCount set_retryCount
           maxRetryDelay] in Ht, Hat, Hall.
      rewrite HM, HR in Hat. rewrite HD in Hall.
      eexists. rewrite Ht, Htr, <- !app_assoc.
      split; [reflexivity|].
      rewrite !attempts_app, !delays_app, Hace, Hdce.
      cbn [attempts filter List.length delays flat_map app Nat.add].
      repeat split; [lia|lia|].
      constructor; [|exact Hall].
      unfold calculateBackoff. cbn [maxRetryDelay set_retryCount].
      rewrite HD. apply Z.le_min_r.
Qed.

End LoopFacts.

(** X7. However the broker answers and whenever the owner closes, one call
    of [connect] makes at most [maxRetries + 1 - retryCount] connection
    attempts, sleeps at most once per attempt, never sleeps longer than
    [maxRetryDelay], and always comes to an end. *)
Theorem connect_is_bounded :
  forall env w, exists r w' t,
    Connection.connect env w = Some (r, w') /\
    Connection.trace w' = Connection.trace w ++ t /\
    (Connection.attempts t
     <= Z.to_nat (Connection.maxRetries (Connection.mgr w) + 1
                  - Connection.retryCount (Connection.mgr w)))%nat /\
    (List.length (Connection.delays t) <= Connection.attempts t)%nat /\
    Forall (fun d => d <= Connection.maxRetryDelay (Connection.mgr w))
           (Connection.delays t).
Proof.
  intros env w.
  destruct (connect_total env w) as [[r w'] Hrun].
  exists r, w'. pose proof Hrun as Hloop. unfold Connection.connect in Hloop.
  destruct (Connection.connection (Connection.mgr w)) as [c|].
  { injection Hloop as <- <-. exists []. rewrite app_nil_r.
    repeat split; cbn; try lia; try constructor; exact Hrun. }
  destruct (Connection.isConnecting (Connection.mgr w)).
  { injection Hloop as <- <-. exists []. rewrite app_nil_r.
    repeat split; cbn; try lia; try constructor; exact Hrun. }
  apply connect_loop_bounds in Hloop. destruct Hloop as (t & Ht & Hat & Hlen & Hall).
  exists t. repeat split; assumption.
Qed.

Section RecoveryFacts.
Import Connection.

(** The loop against a broker that refuses [j] attempts and then accepts,
    with no interruption. *)
Lemma connect_loop_succeeds (env : nat -> Attempt) (conn : AmqpConnection) :
  forall j fuel k w,
    (forall i, (i < j)%nat ->
               exists e, env (k + i)%nat = mkAttempt (Js.Throw e) None) ->
    env (k + j)%nat = mkAttempt (Js.Normal conn) None ->
    isClosed (mgr w) = false ->
    retryCount (mgr w) + Z.of_nat j <= maxRetries (mgr w) ->
    (j < fuel)%nat ->
    exists w' t0,
      connect_loop fuel env k w = Some (Js.Normal (Settled conn), w') /\
      trace w' = trace w ++ t0 ++ ListenConnection conn
                   :: map (fun l => Resolve l conn) (connectionListeners (mgr w)) /\
      delays t0 = map (backoffFor (mgr w))
                      (attemptNumbers (retryCount (mgr w) + 1) j) /\
      attempts t0 = S j /\
      waiters w' = waiters w /\
      mgr w' = set_connectionListeners []
                 (set_isConnecting false
                    (set_retryCount 0 (set_connection (Some conn) (mgr w)))).
Proof.
  induction j as [|j IH]; intros fuel k w Hfail Hok Hopen Hleft Hfuel;
    (destruct fuel as [|fuel]; [lia|]);
    cbn [connect_loop]; rewrite Hopen;
    replace (retryCount (mgr w) <=? maxRetries (mgr w)) with true
      by (symmetry; apply Z.leb_le; lia);
    cbn [andb negb]; cbv zeta.
  - rewrite Nat.add_0_r in Hok. rewrite Hok.
    unfold interrupt. cbn [closeCalled settles].
    eexists. exists [AmqpConnect (url (mgr w))].
    split; [reflexivity|].
    cbn [update emit trace mgr waiters connectionListeners set_isConnecting
         set_retryCount set_connection].
    rewrite <- !app_assoc. repeat split.
  - destruct (Hfail O) as [e He]; [lia|]. rewrite Nat.add_0_r in He.
    rewrite He. unfold interrupt. cbn [closeCalled settles].
    cbn [emit update mgr retryCount set_retryCount maxRetries].
    replace (retryCount (mgr w) + 1 >? maxRetries (mgr w)) with false
      by (symmetry; rewrite Z.gtb_ltb; apply Z.ltb_ge; lia).
    match goal with
    | |- context [connect_loop fuel env (S k) ?w2] =>
        destruct (IH fuel (S k) w2) as (w' & t0 & Hrun & Htr & Hd & Ha & Hw & Hm);
          [intros i Hi; replace (S k + i)%nat with (k + S i)%nat by lia;
           apply Hfail; lia
          |replace (S k + j)%nat with (k + S j)%nat by lia; exact Hok
          |exact Hopen
          |cbn [emit update mgr retryCount set_retryCount maxRetries]; lia
          |lia|]
    end.
    cbn [emit update mgr trace waiters] in Hrun, Htr, Hd, Ha, Hw, Hm.
    cbn [retryCount set_retryCount maxRetries connectionListeners] in Htr, Hd, Hm.
    exists w',
      ([AmqpConnect (url (mgr w));
        Sleep (calculateBackoff
                 (set_retryCount (retryCount (mgr w) + 1) (mgr w)))] ++ t0).
    split; [exact Hrun|].
    split; [rewrite Htr, <- !app_assoc; reflexivity|].
    rewrite delays_app, attempts_app, Hd, Ha, attemptNumbers_S.
    repeat split; assumption.
Qed.

End RecoveryFacts.

(** X8. [connect] on a disconnected manager against a broker that refuses
    [j] attempts and then accepts (with [j] retries left) returns the new
    connection after sleeping exactly the first [j] backoff delays; it resets
    the retry count, installs its handlers on the connection, hands the
    connection to every caller that was waiting, in the order they arrived,
    and leaves the manager connected. *)
Theorem connect_succeeds_after_failures :
  forall w env conn j,
    Connection.connection (Connection.mgr w) = None ->
    Connection.isConnecting (Connection.mgr w) = false ->
    Connection.retryCount (Connection.mgr w) + Z.of_nat j
    <= Connection.maxRetries (Connection.mgr w) ->
    (forall i, (i < j)%nat ->
               exists e, env i = Connection.mkAttempt (Js.Throw e) None) ->
    env j = Connection.mkAttempt (Js.Normal conn) None ->
    exists w' t0,
      Connection.connect env w
      = Some (Js.Normal (Connection.Settled conn), w') /\
      Connection.trace w'
      = Connection.trace w ++ t0 ++ Connection.ListenConnection conn
          :: map (fun l => Connection.Resolve l conn)
                 (Connection.connectionListeners (Connection.mgr w)) /\
      Connection.delays t0
      = map (fun attempt =>
               Z.min (Connection.initialRetryDelay (Connection.mgr w)
                      * 2 ^ (attempt - 1))
                     (Connection.maxRetryDelay (Connection.mgr w)))
            (Connection.attemptNumbers
               (Connection.retryCount (Connection.mgr w) + 1) j) /\
      Connection.attempts t0 = S j /\
      Connection.connection (Connection.mgr w') = Some conn /\
      Connection.retryCount (Connection.mgr w') = 0 /\
      Connection.isConnecting (Connection.mgr w') = false /\
      Connection.connectionListeners (Connection.mgr w') = [] /\
      Connection.isConnected (Connection.mgr w') = true.
Proof.
  intros w env conn j Hconn Hidle Hleft Hfail Hok.
  unfold Connection.connect. rewrite Hconn, Hidle.
  destruct (connect_loop_succeeds env conn j
              (Connection.loop_bound
                 (Connection.mgr
                    (Connection.update (Connection.set_isClosed false)
                       (Connection.update (Connection.set_isConnecting true) w))))
              O
              (Connection.update (Connection.set_isClosed false)
                 (Connection.update (Connection.set_isConnecting true) w)))
    as (w' & t0 & Hrun & Htr & Hd & Ha & Hw & Hm).
  { intros i Hi. exact (Hfail i Hi). }
  { exact Hok. }
  { reflexivity. }
  { cbn. lia. }
  { unfold Connection.loop_bound. cbn. lia. }
  exists w', t0.
  split; [exact Hrun|]. split; [exact Htr|]. split; [exact Hd|].
  split; [exact Ha|]. rewrite Hm. repeat split.
Qed.

Lemma connect_succeeds_after_failures_witness :
  exists w' t0,
    Connection.connect MoreExamples.brokerBackAfterTwo
                       (Connection.fresh Examples.localOptions)
    = Some (Js.Normal (Connection.Settled 7%nat), w') /\
    Connection.delays t0 = [1000; 2000] /\
    Connection.attempts t0 = 3%nat /\
    Connection.isConnected (Connection.mgr w') = true.
Proof.
  destruct (connect_succeeds_after_failures
              (Connection.fresh Examples.localOptions)
              MoreExamples.brokerBackAfterTwo 7%nat 2%nat eq_refl eq_refl
              (Zle_bool_imp_le 2 10 eq_refl))
    as (w' & t0 & Hrun & _ & Hd & Ha & _ & _ & _ & _ & Hc).
  - intros i Hi. exists (Js.newError "connect ECONNREFUSED").
    destruct i as [|[|i]]; [reflexivity|reflexivity|lia].
  - reflexivity.
  - exists w', t0. repeat split; assumption.
Defined.

(** ** Callers that arrive during an attempt *)

Section WaiterFacts.
Import Connection.

Lemma settlements_app (t1 t2 : list Effect) :
  ManagerInvariant.settlements (t1 ++ t2)
  = ManagerInvariant.settlements t1 ++ ManagerInvariant.settlements t2.
Proof. unfold ManagerInvariant.settlements. apply flat_map_app. Qed.

Lemma settlements_closeEffects (m : ConnectionManager) :
  ManagerInvariant.settlements (closeEffects m) = [].
Proof.
  unfold closeEffects. destruct (channel m), (connection m); reflexivity.
Qed.

Lemma interrupt_settles_nobody (a : Attempt) (w : World) :
  ManagerInvariant.settlements (trace (interrupt a w))
  = ManagerInvariant.settlements (trace w).
Proof.
  unfold interrupt. destruct (closeCalled a) as [cenv|]; [|reflexivity].
  destruct (close_spec cenv w) as (w' & Hc & _ & _ & _ & Htr & _).
  rewrite Hc. cbn [snd].
  rewrite Htr, settlements_app, settlements_closeEffects. apply app_nil_r.
Qed.

(** When the loop settles, it settles the callers that were waiting: on
    success each connection listener is called with the connection and the
    list is cleared; on exhaustion each error listener is called with the
    final error and that list is cleared.  When the loop ends because its
    condition fails, it settles nobody and leaves the listeners as they are;
    the condition fails when the manager has been closed, or when the retry
    count was over the ceiling as the loop was entered. *)
Lemma connect_loop_settles_waiters (fuel : nat) :
  forall env k w r w',
    connect_loop fuel env k w = Some (r, w') ->
    match r with
    | Js.Normal (Settled c) =>
        exists t0,
          trace w' = trace w ++ t0
                       ++ map (fun l => Resolve l c) (connectionListeners (mgr w)) /\
          connectionListeners (mgr w') = [] /\
          errorListeners (mgr w') = errorListeners (mgr w)
    | Js.Normal (Pending _) => False
    | Js.Throw e =>
        (e = Js.newError "Connection aborted" /\
         connectionListeners (mgr w') = connectionListeners (mgr w) /\
         errorListeners (mgr w') = errorListeners (mgr w) /\
         ManagerInvariant.settlements (trace w')
         = ManagerInvariant.settlements (trace w) /\
         (isClosed (mgr w') = true \/
          retryCount (mgr w) > maxRetries (mgr w))) \/
        (exists t0,
            trace w' = trace w ++ t0
                         ++ map (fun l => Reject l e) (errorListeners (mgr w)) /\
            errorListeners (mgr w') = [] /\
            connectionListeners (mgr w') = connectionListeners (mgr w))
    end.
Proof.
  induction fuel as [|fuel IH]; intros env k w r w' Hrun; [discriminate Hrun|].
  cbn [connect_loop] in Hrun.
  destruct ((retryCount (mgr w) <=? maxRetries (mgr w))
            && negb (isClosed (mgr w))) eqn:Hguard.
  2:{ injection Hrun as <- <-. left.
      split; [reflexivity|]. split; [reflexivity|]. split; [reflexivity|].
      split; [reflexivity|].
      apply andb_false_iff in Hguard. destruct Hguard as [Hover|Hclosed].
      - right. apply Z.leb_gt in Hover. lia.
      - left. destruct (isClosed (mgr w)); [reflexivity|discriminate Hclosed]. }
  cbv zeta in Hrun.
  destruct (interrupt_trace (env k) (emit [AmqpConnect (url (mgr w))] w))
    as (ce & Htr & _ & _ & _ & _ & HM & _ & _ & HR & Hcl & Hel).
  pose proof (interrupt_settles_nobody (env k)
                (emit [AmqpConnect (url (mgr w))] w)) as Hset.
  set (w1 := interrupt (env k) (emit [AmqpConnect (url (mgr w))] w)) in *.
  cbn [emit mgr trace] in Htr, Hcl, Hel, HM, HR, Hset.
  rewrite settlements_app in Hset. cbn in Hset. rewrite app_nil_r in Hset.
  destruct (settles (env k)) as [conn|error].
  - injection Hrun as <- <-.
    exists ([AmqpConnect (url (mgr w))] ++ ce ++ [ListenConnection conn]).
    cbn [update emit trace mgr connectionListeners errorListeners
         set_connectionListeners set_isConnecting set_retryCount set_connection].
    rewrite Htr, Hcl, Hel, <- !app_assoc. repeat split.
  - destruct (retryCount (mgr (update (fun m => set_retryCount (retryCount m + 1) m) w1))
              >? maxRetries (mgr (update (fun m => set_retryCount (retryCount m + 1) m) w1)))
      eqn:Hover.
    + injection Hrun as <- <-. right.
      exists ([AmqpConnect (url (mgr w))] ++ ce).
      cbn [update emit trace mgr connectionListeners errorListeners
           set_errorListeners set_isConnecting set_retryCount maxRetries].
      rewrite Htr, Hcl, Hel, <- !app_assoc. repeat split.
    + apply IH in Hrun.
      cbn [update emit trace mgr connectionListeners errorListeners
           set_retryCount retryCount maxRetries] in Hrun, Hover.
      rewrite Hcl, Hel, Htr in Hrun.
      destruct r as [[c|p]|e].
      * destruct Hrun as (t0 & Ht & Hc' & He').
        rewrite <- !app_assoc in Ht.
        eexists (_ :: _ ++ _ :: t0).
        split; [rewrite Ht; cbn [app]; rewrite <- app_assoc; reflexivity|].
        split; [exact Hc'|exact He'].
      * exact Hrun.
      * destruct Hrun as [(Habort & Hc' & He' & Hs' & Hwhy)|(t0 & Ht & He' & Hc')].
        -- left. split; [exact Habort|]. split; [exact Hc'|].
           split; [exact He'|]. split.
           ++ rewrite Hs', <- Htr, settlements_app, Hset. cbn.
              apply app_nil_r.
           ++ left. destruct Hwhy as [Hclosed|Hgt]; [exact Hclosed|].
              rewrite Z.gtb_ltb in Hover. apply Z.ltb_ge in Hover. lia.
        -- right. rewrite <- !app_assoc in Ht.
           eexists (_ :: _ ++ _ :: t0).
           split; [rewrite Ht; cbn [app]; rewrite <- app_assoc; reflexivity|].
           split; [exact He'|exact Hc'].
Qed.

End WaiterFacts.

(** X9. A caller of [connect] that finds the manager connecting is handed a
    pending promise and is registered on both listener lists; nothing else
    happens.  When the loop that is under way then settles, the caller is
    settled with it: resolved with the connection on success, rejected with
    the final error when the retries are used up.  When the loop instead ends
    because its condition fails (the manager has been closed meanwhile, or
    the retry count was already over the ceiling when the loop was entered),
    it throws [Connection aborted] to its own caller only: the waiting caller
    is not settled and stays registered. *)
Theorem waiting_caller_is_settled_with_the_loop :
  forall w env0,
    Connection.connection (Connection.mgr w) = None ->
    Connection.isConnecting (Connection.mgr w) = true ->
    exists w1,
      Connection.connect env0 w
      = Some (Js.Normal (Connection.Pending (Connection.waiters w)), w1) /\
      Connection.trace w1 = Connection.trace w /\
      In (Connection.waiters w)
         (Connection.connectionListeners (Connection.mgr w1)) /\
      In (Connection.waiters w)
         (Connection.errorListeners (Connection.mgr w1)) /\
      forall fuel env k r w2,
        Connection.connect_loop fuel env k w1 = Some (r, w2) ->
        match r with
        | Js.Normal (Connection.Settled c) =>
            In (Connection.Resolve (Connection.waiters w) c) (Connection.trace w2)
        | Js.Normal (Connection.Pending _) => False
        | Js.Throw e =>
            In (Connection.Reject (Connection.waiters w) e) (Connection.trace w2) \/
            (e = Js.newError "Connection aborted" /\
             In (Connection.waiters w)
                (Connection.connectionListeners (Connection.mgr w2)) /\
             In (Connection.waiters w)
                (Connection.errorListeners (Connection.mgr w2)) /\
             ManagerInvariant.settlements (Connection.trace w2)
             = ManagerInvariant.settlements (Connection.trace w) /\
             (Connection.isClosed (Connection.mgr w2) = true \/
              Connection.retryCount (Connection.mgr w)
              > Connection.maxRetries (Connection.mgr w)))
        end.
Proof.
  intros w env0 Hconn Hbusy.
  unfold Connection.connect. rewrite Hconn, Hbusy.
  eexists. split; [reflexivity|]. split; [reflexivity|].
  cbn [Connection.onError Connection.onConnection Connection.update
       Connection.mgr Connection.trace Connection.connectionListeners
       Connection.errorListeners Connection.set_connectionListeners
       Connection.set_errorListeners].
  split; [apply in_or_app; right; left; reflexivity|].
  split; [apply in_or_app; right; left; reflexivity|].
  intros fuel env k r w2 Hrun.
  apply connect_loop_settles_waiters in Hrun.
  cbn [Connection.onError Connection.onConnection Connection.update
       Connection.mgr Connection.trace Connection.connectionListeners
       Connection.errorListeners Connection.set_connectionListeners
       Connection.set_errorListeners Connection.retryCount
       Connection.maxRetries] in Hrun.
  destruct r as [[c|p]|e].
  - destruct Hrun as (t0 & Ht & _). rewrite Ht.
    apply in_or_app. right. apply in_or_app. right.
    rewrite map_app. apply in_or_app. right. left. reflexivity.
  - exact Hrun.
  - destruct Hrun as [(Habort & Hc' & He' & Hs' & Hwhy)|(t0 & Ht & _)].
    + right. split; [exact Habort|].
      split; [rewrite Hc'; apply in_or_app; right; left; reflexivity|].
      split; [rewrite He'; apply in_or_app; right; left; reflexivity|].
      split; [exact Hs'|exact Hwhy].
    + left. rewrite Ht.
      apply in_or_app. right. apply in_or_app. right.
      rewrite map_app. apply in_or_app. right. left. reflexivity.
Qed.

Lemma waiting_caller_is_settled_with_the_loop_witness :
  Connection.connection (Connection.mgr MoreExamples.connectingWorld) = None /\
  Connection.isConnecting (Connection.mgr MoreExamples.connectingWorld) = true /\
  exists w1 w2 w3,
    Connection.connect Examples.brokerDown MoreExamples.connectingWorld
    = Some (Js.Normal (Connection.Pending 0%nat), w1) /\
    Connection.connect_loop 3 MoreExamples.brokerBackAfterTwo 0 w1
    = Some (Js.Normal (Connection.Settled 7%nat), w2) /\
    In (Connection.Resolve 0%nat 7%nat) (Connection.trace w2) /\
    Connection.connect_loop 12 Examples.brokerDown 0 w1
    = Some (Js.Throw
              (Js.newError
                 "Failed to connect after 10 attempts: connect ECONNREFUSED"),
            w3) /\
    In (Connection.Reject 0%nat
          (Js.newError
             "Failed to connect after 10 attempts: connect ECONNREFUSED"))
       (Connection.trace w3).
Proof.
  split; [reflexivity|split; [reflexivity|]].
  destruct (waiting_caller_is_settled_with_the_loop
              MoreExamples.connectingWorld Examples.brokerDown eq_refl eq_refl)
    as (w1 & Hrun & _ & _ & _ & Hloop).
  exists w1.
  destruct (Connection.connect_loop 3 MoreExamples.brokerBackAfterTwo 0 w1)
    as [[r2 w2]|] eqn:Hup;
    [|vm_compute in Hrun; injection Hrun as <-; vm_compute in Hup;
      discriminate Hup].
  destruct (Connection.connect_loop 12 Examples.brokerDown 0 w1)
    as [[r3 w3]|] eqn:Hdown;
    [|vm_compute in Hrun; injection Hrun as <-; vm_compute in Hdown;
      discriminate Hdown].
  exists w2, w3.
  pose proof (Hloop _ _ _ _ _ Hup) as Hin2.
  pose proof (Hloop _ _ _ _ _ Hdown) as Hin3.
  assert (Hr2 : r2 = Js.Normal (Connection.Settled 7%nat)).
  { vm_compute in Hrun. injection Hrun as <-. vm_compute in Hup.
    injection Hup as <- _. reflexivity. }
  assert (Hr3 : r3 = Js.Throw
                       (Js.newError
                          "Failed to connect after 10 attempts: connect ECONNREFUSED")).
  { vm_compute in Hrun. injection Hrun as <-. vm_compute in Hdown.
    injection Hdown as <- _. reflexivity. }
  subst r2 r3.
  split; [exact Hrun|]. split; [reflexivity|]. split; [exact Hin2|].
  split; [reflexivity|].
  destruct Hin3 as [Hin3|[Habort _]]; [exact Hin3|discriminate Habort].
Defined.

(** ** What stays true of a manager *)

Section InvariantFacts.
Import Connection.

Lemma interrupt_resources (a : Attempt) (w : World) :
  connection (mgr w) = None -> channel (mgr w) = None ->
  connection (mgr (interrupt a w)) = None /\
  channel (mgr (interrupt a w)) = None.
Proof.
  intros Hc Hch. unfold interrupt. destruct (closeCalled a) as [cenv|].
  - destruct (close_spec cenv w) as (w' & Hrun & _ & Hch' & Hc' & _).
    rewrite Hrun. cbn [snd]. split; assumption.
  - split; assumption.
Qed.

(** The loop never touches the channel or the configuration; it leaves a
    connection exactly when it returns one, and then the retry count is
    zero. *)
Lemma connect_loop_keeps (fuel : nat) :
  forall env k w r w',
    connect_loop fuel env k w = Some (r, w') ->
    connection (mgr w) = None ->
    channel (mgr w) = None ->
    0 <= retryCount (mgr w) ->
    channel (mgr w') = None /\
    0 <= retryCount (mgr w') /\
    url (mgr w') = url (mgr w) /\
    maxRetries (mgr w') = maxRetries (mgr w) /\
    initialRetryDelay (mgr w') = initialRetryDelay (mgr w) /\
    maxRetryDelay (mgr w') = maxRetryDelay (mgr w) /\
    match r with
    | Js.Normal (Settled c) =>
        connection (mgr w') = Some c /\ retryCount (mgr w') = 0
    | Js.Normal (Pending _) => False
    | Js.Throw _ => connection (mgr w') = None
    end.
Proof.
  induction fuel as [|fuel IH]; intros env k w r w' Hrun Hc Hch Hr;
    [discriminate Hrun|].
  cbn [connect_loop] in Hrun.
  destruct ((retryCount (mgr w) <=? maxRetries (mgr w))
            && negb (isClosed (mgr w))).
  2:{ injection Hrun as <- <-. repeat split; assumption. }
  cbv zeta in Hrun.
  destruct (interrupt_trace (env k) (emit [AmqpConnect (url (mgr w))] w))
    as (ce & _ & _ & _ & _ & Hu & HM & HI & HD & HR & _).
  destruct (interrupt_resources (env k) (emit [AmqpConnect (url (mgr w))] w) Hc Hch)
    as [Hc1 Hch1].
  set (w1 := interrupt (env k) (emit [AmqpConnect (url (mgr w))] w)) in *.
  cbn [emit mgr] in Hu, HM, HI, HD, HR.
  destruct (settles (env k)) as [conn|error].
  - injection Hrun as <- <-.
    cbn [update emit mgr channel retryCount url maxRetries initialRetryDelay
         maxRetryDelay connection set_connectionListeners set_isConnecting
         set_retryCount set_connection].
    repeat split; try assumption. lia.
  - destruct (retryCount (mgr (update (fun m => set_retryCount (retryCount m + 1) m) w1))
              >? maxRetries (mgr (update (fun m => set_retryCount (retryCount m + 1) m) w1))).
    + injection Hrun as <- <-.
      cbn [update emit mgr channel retryCount url maxRetries initialRetryDelay
           maxRetryDelay connection set_errorListeners set_isConnecting
           set_retryCount].
      repeat split; try assumption. lia.
    + apply IH in Hrun;
        cbn [update emit mgr channel retryCount url maxRetries initialRetryDelay
             maxRetryDelay connection set_retryCount] in *;
        try assumption; [|lia].
      destruct Hrun as (H1 & H2 & H3 & H4 & H5 & H6 & H7).
      repeat split; try assumption; congruence.
Qed.

Lemma connect_keeps_consistent options env w r w' :
  ManagerInvariant.consistent options w ->
  connect env w = Some (r, w') ->
  ManagerInvariant.consistent options w' /\
  (forall c, r = Js.Normal (Settled c) -> connection (mgr w') = Some c).
Proof.
  intros Hinv Hrun. unfold connect in Hrun.
  destruct (connection (mgr w)) as [c|] eqn:Hc.
  { injection Hrun as <- <-. split; [exact Hinv|].
    intros c' Heq. injection Heq as <-. exact Hc. }
  destruct Hinv as (Hch & Hrc & Hr & Hu & HM & HI & HD).
  assert (Hch0 : channel (mgr w) = None).
  { destruct (channel (mgr w)) as [ch|] eqn:E; [|reflexivity].
    exfalso. apply Hch; [discriminate|exact Hc]. }
  destruct (isConnecting (mgr w)).
  { injection Hrun as <- <-. split; [|intros c Heq; discriminate Heq].
    unfold ManagerInvariant.consistent.
    cbn [onError onConnection update mgr channel connection retryCount url
         maxRetries initialRetryDelay maxRetryDelay set_errorListeners
         set_connectionListeners].
    repeat split; assumption. }
  apply connect_loop_keeps in Hrun;
    [|exact Hc|exact Hch0|exact Hr].
  cbn [update mgr url maxRetries initialRetryDelay maxRetryDelay
       set_isClosed set_isConnecting] in Hrun.
  destruct Hrun as (H1 & H2 & H3 & H4 & H5 & H6 & H7).
  split.
  - unfold ManagerInvariant.consistent.
    rewrite H1, H3, H4, H5, H6.
    split; [intro Hn; exfalso; apply Hn; reflexivity|].
    split; [|repeat split; assumption].
    intro Hn. destruct r as [[c|p]|e].
    + apply H7.
    + destruct H7.
    + exfalso. apply Hn. exact H7.
  - intros c Heq. subst r. apply H7.
Qed.

Lemma apply_keeps_consistent options op w :
  ManagerInvariant.consistent options w ->
  exists w', apply op w = Some w' /\ ManagerInvariant.consistent options w'.
Proof.
  intro Hinv.
  assert (Hcleared : ManagerInvariant.consistent options
                       (update (set_channel None) (update (set_connection None) w))).
  { destruct Hinv as (Hch & Hrc & Hr & Hu & HM & HI & HD).
    unfold ManagerInvariant.consistent.
    cbn [update mgr channel connection retryCount url maxRetries
         initialRetryDelay maxRetryDelay set_channel set_connection].
    repeat split; try assumption; intro Hn; exfalso; apply Hn; reflexivity. }
  destruct op as [env|env created|cenv|env|env| |]; cbn [apply].
  - destruct (connect_total env w) as [[r w'] Hrun].
    rewrite Hrun. exists w'. split; [reflexivity|].
    apply (connect_keeps_consistent options env w r w' Hinv Hrun).
  - unfold getChannel.
    destruct (channel (mgr w)) as [ch|] eqn:Hch;
      [exists w; split; [reflexivity|exact Hinv]|].
    destruct (connect_total env w) as [[r w'] Hrun]. rewrite Hrun.
    destruct (connect_keeps_consistent options env w r w' Hinv Hrun)
      as [Hinv' Hset].
    destruct r as [[c|p]|e]; try (eexists; split; [reflexivity|exact Hinv']).
    specialize (Hset c eq_refl).
    destruct Hinv' as (Hch' & Hrc' & Hr' & Hu' & HM' & HI' & HD').
    destruct created as [ch|e]; (eexists; split; [reflexivity|]);
      unfold ManagerInvariant.consistent;
      cbn [snd update emit mgr channel connection retryCount url maxRetries
           initialRetryDelay maxRetryDelay set_channel];
      repeat split; try assumption.
    intros _. rewrite Hset. discriminate.
  - destruct (close_spec cenv w)
      as (w' & Hrun & _ & Hch' & Hc' & _ & _ & Hu' & HM' & HI' & HD' & _ & Hr' & _).
    rewrite Hrun. exists w'. split; [reflexivity|].
    destruct Hinv as (Hch & Hrc & Hr & Hu & HM & HI & HD).
    unfold ManagerInvariant.consistent.
    rewrite Hch', Hc', Hu', HM', HI', HD', Hr'.
    repeat split; try assumption; intro Hn; exfalso; apply Hn; reflexivity.
  - unfold onConnectionError, handleDisconnect.
    destruct (negb (isClosed (mgr (update (set_channel None)
                                     (update (set_connection None) w))))).
    + destruct (connect_total env (update (set_channel None)
                                     (update (set_connection None) w)))
        as [[r w'] Hrun].
      rewrite Hrun. exists w'. split; [reflexivity|].
      apply (connect_keeps_consistent options env _ r w' Hcleared Hrun).
    + eexists. split; [reflexivity|exact Hcleared].
  - unfold onConnectionClose.
    destruct (negb (isClosed (mgr w)));
      [|exists w; split; [reflexivity|exact Hinv]].
    unfold handleDisconnect.
    destruct (negb (isClosed (mgr (update (set_channel None)
                                     (update (set_connection None) w))))).
    + destruct (connect_total env (update (set_channel None)
                                     (update (set_connection None) w)))
        as [[r w'] Hrun].
      rewrite Hrun. exists w'. split; [reflexivity|].
      apply (connect_keeps_consistent options env _ r w' Hcleared Hrun).
    + eexists. split; [reflexivity|exact Hcleared].
  - eexists. split; [reflexivity|].
    destruct Hinv as (Hch & Hrc & Hr & Hu & HM & HI & HD).
    unfold ManagerInvariant.consistent, onChannelError.
    cbn [update mgr channel connection retryCount url maxRetries
         initialRetryDelay maxRetryDelay set_channel].
    repeat split; try assumption. intro Hn. exfalso. apply Hn. reflexivity.
  - eexists. split; [reflexivity|].
    destruct Hinv as (Hch & Hrc & Hr & Hu & HM & HI & HD).
    unfold ManagerInvariant.consistent, onChannelClose.
    cbn [update mgr channel connection retryCount url maxRetries
         initialRetryDelay maxRetryDelay set_channel].
    repeat split; try assumption. intro Hn. exfalso. apply Hn. reflexivity.
Qed.

End InvariantFacts.

(** X10. Whatever sequence of calls and broker events a manager goes through
    after its construction, every one of them comes to an end, and the
    manager stays consistent: it never holds a channel without a connection,
    it holds a connection only with the retry count back at zero, the retry
    count is never negative, and its URL, retry ceiling and delays are the
    ones it was constructed with. *)
Theorem manager_stays_consistent :
  forall options ops, exists w,
    Connection.applyAll ops (Connection.fresh options) = Some w /\
    ManagerInvariant.consistent options w.
Proof.
  intros options ops.
  assert (Hgen : forall w0, ManagerInvariant.consistent options w0 ->
            exists w, Connection.applyAll ops w0 = Some w /\
                      ManagerInvariant.consistent options w).
  { induction ops as [|op ops IH]; intros w0 Hinv.
    - exists w0. split; [reflexivity|exact Hinv].
    - destruct (apply_keeps_consistent options op w0 Hinv) as (w1 & Hstep & Hinv1).
      destruct (IH w1 Hinv1) as (w & Hrun & Hinv').
      exists w. cbn [Connection.applyAll]. rewrite Hstep. split; assumption. }
  apply Hgen. unfold ManagerInvariant.consistent. cbn.
  repeat split; try reflexivity; try lia; intro Hn; exfalso; apply Hn; reflexivity.
Qed.

(** ** Recovery *)

(** X11. When an open manager that is not already connecting gets an error
    or close event from its connection, it drops connection and channel and
    reconnects by itself: against a broker that refuses [j] attempts and then
    accepts, it ends up connected again after sleeping the first [j] backoff
    delays.  The channel is not recreated by the recovery; the next
    [getChannel] creates it on the new connection. *)
Theorem connection_loss_is_recovered :
  forall ev w env conn j,
    ev = Connection.ConnectionError env \/ ev = Connection.ConnectionClose env ->
    Connection.isClosed (Connection.mgr w) = false ->
    Connection.isConnecting (Connection.mgr w) = false ->
    Connection.retryCount (Connection.mgr w) + Z.of_nat j
    <= Connection.maxRetries (Connection.mgr w) ->
    (forall i, (i < j)%nat ->
               exists e, env i = Connection.mkAttempt (Js.Throw e) None) ->
    env j = Connection.mkAttempt (Js.Normal conn) None ->
    exists w' t,
      Connection.apply ev w = Some w' /\
      Connection.trace w' = Connection.trace w ++ t /\
      Connection.attempts t = S j /\
      Connection.delays t
      = map (Connection.backoffFor (Connection.mgr w))
            (Connection.attemptNumbers
               (Connection.retryCount (Connection.mgr w) + 1) j) /\
      Connection.connection (Connection.mgr w') = Some conn /\
      Connection.channel (Connection.mgr w') = None /\
      Connection.isConnected (Connection.mgr w') = true /\
      (forall env' ch, exists w2,
          Connection.getChannel env' (Js.Normal ch) w'
          = Some (Js.Normal (Connection.Settled ch), w2) /\
          Connection.channel (Connection.mgr w2) = Some ch /\
          Connection.connection (Connection.mgr w2) = Some conn /\
          Connection.trace w2
          = Connection.trace w'
              ++ [Connection.CreateChannel conn; Connection.ListenChannel ch]).
Proof.
  intros ev w env conn j Hev Hopen Hidle Hleft Hfail Hok.
  assert (Hrec : exists w' t,
            Connection.handleDisconnect env w = Some w' /\
            Connection.trace w' = Connection.trace w ++ t /\
            Connection.attempts t = S j /\
            Connection.delays t
            = map (Connection.backoffFor (Connection.mgr w))
                  (Connection.attemptNumbers
                     (Connection.retryCount (Connection.mgr w) + 1) j) /\
            Connection.connection (Connection.mgr w') = Some conn /\
            Connection.channel (Connection.mgr w') = None /\
            Connection.isClosed (Connection.mgr w') = false).
  { unfold Connection.handleDisconnect, Connection.connect.
    cbn [Connection.update Connection.mgr Connection.isClosed
         Connection.connection Connection.isConnecting
         Connection.set_channel Connection.set_connection].
    rewrite Hopen, Hidle. cbn [negb].
    match goal with
    | |- context [Connection.connect_loop ?fuel env O ?w0] =>
        destruct (connect_loop_succeeds env conn j fuel O w0)
          as (w' & t0 & Hrun & Htr & Hd & Ha & _ & Hm);
          [exact Hfail|exact Hok|reflexivity|cbn; lia
          |unfold Connection.loop_bound; cbn; lia|]
    end.
    rewrite Hrun. exists w'. eexists.
    split; [reflexivity|]. split; [exact Htr|].
    rewrite attempts_app, delays_app, Ha, Hd, Hm.
    cbn [Connection.attempts Connection.delays filter flat_map List.length app].
    fold (Connection.attempts
            (map (fun l => Connection.Resolve l conn)
                 (Connection.connectionListeners
                    (Connection.mgr
                       (Connection.update (Connection.set_isClosed false)
                          (Connection.update (Connection.set_isConnecting true)
                             (Connection.update (Connection.set_channel None)
                                (Connection.update (Connection.set_connection None)
                                   w)))))))).
    fold (Connection.delays
            (map (fun l => Connection.Resolve l conn)
                 (Connection.connectionListeners
                    (Connection.mgr
                       (Connection.update (Connection.set_isClosed false)
                          (Connection.update (Connection.set_isConnecting true)
                             (Connection.update (Connection.set_channel None)
                                (Connection.update (Connection.set_connection None)
                                   w)))))))).
    rewrite attempts_resolves, delays_resolves, app_nil_r.
    repeat split. lia. }
  destruct Hrec as (w' & t & Hrun & Htr & Ha & Hd & Hc & Hch & Hcl).
  exists w', t.
  split.
  { destruct Hev as [-> | ->]; cbn [Connection.apply].
    - exact Hrun.
    - unfold Connection.onConnectionClose. rewrite Hopen. exact Hrun. }
  split; [exact Htr|]. split; [exact Ha|]. split; [exact Hd|].
  split; [exact Hc|]. split; [exact Hch|].
  split; [unfold Connection.isConnected; rewrite Hc, Hcl; reflexivity|].
  intros env' ch.
  unfold Connection.getChannel, Connection.connect. rewrite Hch, Hc.
  eexists. split; [reflexivity|].
  cbn [Connection.update Connection.emit Connection.mgr Connection.trace
       Connection.set_channel Connection.channel Connection.connection].
  rewrite <- app_assoc. repeat split. exact Hc.
Qed.

Lemma connection_loss_is_recovered_witness :
  exists w',
    Connection.apply (Connection.ConnectionError MoreExamples.brokerBackAfterTwo)
                     Examples.connectedWorld = Some w' /\
    Connection.connection (Connection.mgr w') = Some 7%nat /\
    Connection.channel (Connection.mgr w') = None /\
    Connection.delays (Connection.trace w')
    = Connection.delays (Connection.trace Examples.connectedWorld)
        ++ [1000; 2000].
Proof.
  assert (Hfail : forall i, (i < 2)%nat ->
            exists e, MoreExamples.brokerBackAfterTwo i
                      = Connection.mkAttempt (Js.Throw e) None).
  { intros i Hi. exists (Js.newError "connect ECONNREFUSED").
    destruct i as [|[|i]]; [reflexivity|reflexivity|lia]. }
  destruct (connection_loss_is_recovered
              (Connection.ConnectionError MoreExamples.brokerBackAfterTwo)
              Examples.connectedWorld MoreExamples.brokerBackAfterTwo 7%nat 2%nat
              (or_introl eq_refl) eq_refl eq_refl
              (Zle_bool_imp_le 2 10 eq_refl) Hfail eq_refl)
    as (w' & t & Hrun & Htr & _ & Hd & Hc & Hch & _).
  exists w'. split; [exact Hrun|]. split; [exact Hc|]. split; [exact Hch|].
  rewrite Htr, delays_app, Hd. reflexivity.
Defined.

(* ====================================================================== *)
(** * From ingestion to consumption *)
(* ====================================================================== *)

Section EndToEnd.
Import Messages Json Serialised.







End EndToEnd.

Section Acceptance.
Import Messages Json Serialised.





End Acceptance.



(** ** Publication comes before the summary *)

Section SummaryFacts.
Import CarbonIngester Messages.

(** The summary can be formatted when, and only when, every entry it takes
    has a number for its percentage. *)
Lemma formatSource_numbers (l : list GenerationMixEntry) :
  Js.isThrow (Json.mapM formatSource l)
  = negb (forallb (fun e => Serialised.isNumber (percentage e)) l).
Proof.
  induction l as [|x l IH]; [reflexivity|].
  cbn [Json.mapM forallb]. unfold formatSource at 1.
  destruct (percentage x) as [[|b|q|s0|items|ms]|]; try reflexivity.
  cbn [Json.toFixed Js.andThen Serialised.isNumber andb].
  destruct (Json.mapM formatSource l); exact IH.
Qed.

End SummaryFacts.

(** X18. [pollGeneration] publishes the envelope before it computes the
    summary of the top three sources, and it does not check the percentages
    it has copied from the response.  With the channel set and the fetch
    successful the envelope is published in every case.  If the first three
    entries of the sorted mix all carry numbers, the counter is reset and the
    next poll is scheduled; if one of them does not, the summary throws after
    the publication: the failure counter is incremented and the poll is
    retried after the backoff, the envelope staying published. *)
Theorem generation_is_published_before_it_is_summarised :
  forall penv env st ch d sorted,
    CarbonIngester.isShuttingDown st = false ->
    CarbonIngester.channel st = Some ch ->
    CarbonIngester.fetchGeneration (CarbonIngester.fetchIso env)
                                   (CarbonIngester.fetched env)
    = Js.Normal d ->
    CarbonIngester.sortDescending env (Messages.mix d) = Js.Normal sorted ->
    let published :=
      CarbonIngester.set_channel
        (Some (Broker.publish
                 (CarbonIngester.publishCall (CarbonIngester.nowMs env)
                    (Messages.upcast Messages.PGeneration
                       (Messages.createCarbonGenerationMessage
                          (CarbonIngester.runtime env) d))
                    Topology.ROUTING_KEYS.CARBON_GENERATION) ch)) st in
    CarbonIngester.pollGeneration penv env st
    = if forallb (fun e => Serialised.isNumber (Messages.percentage e))
                 (firstn 3 sorted)
      then (Js.Normal
              (CarbonIngester.Scheduled
                 (CarbonIngester.generationPollInterval
                    (CarbonIngester.CONFIG penv))),
            CarbonIngester.set_generationTimer
              (Some (CarbonIngester.generationPollInterval
                       (CarbonIngester.CONFIG penv)))
              (CarbonIngester.set_generationFailures 0 published))
      else (Js.Normal
              (CarbonIngester.Retried
                 (CarbonIngester.calculateBackoff (CarbonIngester.CONFIG penv)
                    (CarbonIngester.generationFailures st + 1))),
            CarbonIngester.set_generationFailures
              (CarbonIngester.generationFailures st + 1) published).
Proof.
  intros penv env st ch d sorted Hup Hch Hfetch Hsort published.
  subst published.
  rewrite pollGeneration_cases, Hup, Hfetch, Hch. cbv zeta.
  pose proof (formatSource_numbers (firstn 3 sorted)) as Hnum.
  unfold CarbonIngester.topSources. rewrite Hsort. cbn [Js.andThen].
  destruct (Json.mapM CarbonIngester.formatSource (firstn 3 sorted)) as [top|e];
    cbn [Js.isThrow] in Hnum;
    destruct (forallb (fun e => Serialised.isNumber (Messages.percentage e))
                      (firstn 3 sorted));
    try discriminate Hnum; reflexivity.
Qed.

Lemma generation_is_published_before_it_is_summarised_witness :
  CarbonIngester.isShuttingDown Examples.carbonStarted = false /\
  CarbonIngester.channel Examples.carbonStarted = Some Examples.emptyChannel /\
  fst (CarbonIngester.pollGeneration Examples.carbonEnv
         (MoreExamples.generationWithNull "g1") Examples.carbonStarted)
  = Js.Normal (CarbonIngester.Retried 10000) /\
  Broker.envelopeIds
    (CarbonIngester.publishedBy
       (snd (CarbonIngester.pollGeneration Examples.carbonEnv
               (MoreExamples.generationWithNull "g1") Examples.carbonStarted)))
  = ["g1"] /\
  CarbonIngester.generationFailures
    (snd (CarbonIngester.pollGeneration Examples.carbonEnv
            (MoreExamples.generationWithNull "g1") Examples.carbonStarted))
  = 1.
Proof.
  split; [reflexivity|]. split; [reflexivity|].
  pose proof (generation_is_published_before_it_is_summarised
                Examples.carbonEnv (MoreExamples.generationWithNull "g1")
                Examples.carbonStarted Examples.emptyChannel _ _
                eq_refl eq_refl eq_refl eq_refl) as Hpoll.
  cbv zeta in Hpoll. rewrite Hpoll.
  split; [reflexivity|]. split; reflexivity.
Defined.

(** The envelope that the poll above has published is then rejected: its
    delivery is answered with [nack] without requeue by both consumers. *)
Lemma published_null_percentage_is_rejected :
  exists p,
    CarbonIngester.publishedBy
      (snd (CarbonIngester.pollGeneration Examples.carbonEnv
              (MoreExamples.generationWithNull "g1") Examples.carbonStarted))
    = [p] /\
    Serialised.numericMix (Messages.data (Broker.content p)) = false /\
    LoggerConsumer.signals
      (snd (LoggerConsumer.handleMessage Examples.loggerEnv
              (Some (Serialised.delivered p 1 false)) Examples.loggerStarted))
    = [Amqp.Nack (Serialised.delivered p 1 false) false false] /\
    AggregatorConsumer.signals
      (snd (AggregatorConsumer.handleMessage Examples.aggregatorEnv
              (Some (Serialised.delivered p 1 false))
              Examples.aggregatorStarted))
    = [Amqp.Nack (Serialised.delivered p 1 false) false false].
Proof.
  eexists. split; [reflexivity|]. split; [reflexivity|].
  split; reflexivity.
Qed.

(* ====================================================================== *)
(** * The polling cycles as a whole *)
(* ====================================================================== *)

Section CycleFacts.

Lemma carbon_backoff_floor (penv : CarbonIngester.ProcessEnv) (failures : Z) :
  1 <= failures ->
  2 * CarbonIngester.baseRetryDelay (CarbonIngester.CONFIG penv)
  <= CarbonIngester.calculateBackoff (CarbonIngester.CONFIG penv) failures.
Proof.
  intro Hf.
  assert (Hpow : 2 ^ 1 <= 2 ^ failures) by (apply Z.pow_le_mono_r; lia).
  unfold CarbonIngester.calculateBackoff.
  cbn [CarbonIngester.baseRetryDelay CarbonIngester.maxRetryDelay
       CarbonIngester.CONFIG].
  apply Z.min_glb; lia.
Qed.

Lemma weather_backoff_floor (penv : WeatherIngester.ProcessEnv) (failureCount : Z) :
  1 <= failureCount ->
  2 * WeatherIngester.baseRetryDelay (WeatherIngester.CONFIG penv)
  <= WeatherIngester.calculateBackoff (WeatherIngester.CONFIG penv) failureCount.
Proof.
  intro Hf.
  assert (Hpow : 2 ^ 1 <= 2 ^ failureCount) by (apply Z.pow_le_mono_r; lia).
  unfold WeatherIngester.calculateBackoff.
  cbn [WeatherIngester.baseRetryDelay WeatherIngester.maxRetryDelay
       WeatherIngester.CONFIG].
  apply Z.min_glb; lia.
Qed.

(** One event of the carbon ingester: the outcome is an allowed one and the
    counters stay non-negative. *)
Lemma carbon_step_allowed penv ev st :
  0 <= CarbonIngester.intensityFailures st ->
  0 <= CarbonIngester.generationFailures st ->
  exists o st',
    CarbonIngester.step penv ev st = (Js.Normal o, st') /\
    CarbonRuns.allowed (CarbonIngester.CONFIG penv) (Js.Normal o) /\
    0 <= CarbonIngester.intensityFailures st' /\
    0 <= CarbonIngester.generationFailures st'.
Proof.
  intros Hi Hg. destruct ev as [env|env|]; cbn [CarbonIngester.step].
  - rewrite pollIntensity_cases.
    destruct (CarbonIngester.isShuttingDown st);
      [eexists _, _; split; [reflexivity|]; repeat split; assumption|].
    assert (Hretry :
      exists o st',
        (Js.Normal (CarbonIngester.Retried
                      (CarbonIngester.calculateBackoff (CarbonIngester.CONFIG penv)
                         (CarbonIngester.intensityFailures st + 1))),
         CarbonIngester.set_intensityFailures
           (CarbonIngester.intensityFailures st + 1) st)
        = (Js.Normal o, st') /\
        CarbonRuns.allowed (CarbonIngester.CONFIG penv) (Js.Normal o) /\
        0 <= CarbonIngester.intensityFailures st' /\
        0 <= CarbonIngester.generationFailures st').
    { eexists _, _. split; [reflexivity|]. split; [|split].
      - split; [apply carbon_backoff_floor; lia|apply carbon_backoff_capped].
      - cbn. lia.
      - exact Hg. }
    destruct (CarbonIngester.fetchIntensity _) as [d|e]; [|exact Hretry].
    destruct (CarbonIngester.channel st) as [ch|]; [|exact Hretry].
    eexists _, _. split; [reflexivity|]. split; [left; reflexivity|].
    split; [cbn; lia|exact Hg].
  - rewrite pollGeneration_cases.
    destruct (CarbonIngester.isShuttingDown st);
      [eexists _, _; split; [reflexivity|]; repeat split; assumption|].
    assert (Hretry :
      exists o st',
        (Js.Normal (CarbonIngester.Retried
                      (CarbonIngester.calculateBackoff (CarbonIngester.CONFIG penv)
                         (CarbonIngester.generationFailures st + 1))),
         CarbonIngester.set_generationFailures
           (CarbonIngester.generationFailures st + 1) st)
        = (Js.Normal o, st') /\
        CarbonRuns.allowed (CarbonIngester.CONFIG penv) (Js.Normal o) /\
        0 <= CarbonIngester.intensityFailures st' /\
        0 <= CarbonIngester.generationFailures st').
    { eexists _, _. split; [reflexivity|]. split; [|split].
      - split; [apply carbon_backoff_floor; lia|apply carbon_backoff_capped].
      - exact Hi.
      - cbn. lia. }
    destruct (CarbonIngester.fetchGeneration _ _) as [d|e]; [|exact Hretry].
    destruct (CarbonIngester.channel st) as [ch|]; [|exact Hretry].
    cbv zeta. destruct (CarbonIngester.topSources _ d) as [top|e].
    + eexists _, _. split; [reflexivity|]. split; [right; reflexivity|].
      split; [exact Hi|cbn; lia].
    + eexists _, _. split; [reflexivity|]. split; [|split].
      * split; [apply carbon_backoff_floor; lia|apply carbon_backoff_capped].
      * exact Hi.
      * cbn. lia.
  - eexists _, _. split; [reflexivity|]. split; [exact I|].
    unfold CarbonIngester.shutdown.
    destruct (CarbonIngester.isShuttingDown st); split; assumption.
Qed.

Lemma weather_step_allowed penv ev st :
  0 <= WeatherIngester.failures st ->
  exists o st',
    WeatherIngester.step penv ev st = (Js.Normal o, st') /\
    WeatherRuns.allowed (WeatherIngester.CONFIG penv) (Js.Normal o) /\
    0 <= WeatherIngester.failures st'.
Proof.
  intros Hf. destruct ev as [env|]; cbn [WeatherIngester.step].
  - rewrite pollWeather_cases.
    destruct (WeatherIngester.isShuttingDown st);
      [eexists _, _; split; [reflexivity|]; split; [exact I|exact Hf]|].
    assert (Hretry :
      exists o st',
        (Js.Normal (WeatherIngester.Retried
                      (WeatherIngester.calculateBackoff (WeatherIngester.CONFIG penv)
                         (WeatherIngester.failures st + 1))),
         WeatherIngester.set_failures (WeatherIngester.failures st + 1) st)
        = (Js.Normal o, st') /\
        WeatherRuns.allowed (WeatherIngester.CONFIG penv) (Js.Normal o) /\
        0 <= WeatherIngester.failures st').
    { eexists _, _. split; [reflexivity|]. split.
      - split; [apply weather_backoff_floor; lia|apply weather_backoff_capped].
      - cbn. lia. }
    destruct (WeatherIngester.fetchWeather _ _) as [d|e].
    + destruct (WeatherIngester.channel st) as [ch|]; [|exact Hretry].
      eexists _, _. split; [reflexivity|]. split; [reflexivity|cbn; lia].
    + destruct (WeatherIngester.instanceofRateLimitError e); [|exact Hretry].
      eexists _, _. split; [reflexivity|]. split; [reflexivity|exact Hf].
  - eexists _, _. split; [reflexivity|]. split; [exact I|].
    unfold WeatherIngester.shutdown.
    destruct (WeatherIngester.isShuttingDown st); assumption.
Qed.

End CycleFacts.

(** X13. No failure ever escapes a polling function, so a polling cycle never
    dies of one: whatever the sources and the channel do, every invocation of
    a run completes, either returning at once (shutdown), or scheduling the
    next poll after the configured interval, or after a wait that lies
    between twice the base retry delay and the retry ceiling (for the weather
    ingester also: after the fixed rate-limit cooldown).  The failure
    counters never become negative. *)
Theorem polls_never_throw_and_waits_are_bounded :
  (forall penv evs st,
      0 <= CarbonIngester.intensityFailures st ->
      0 <= CarbonIngester.generationFailures st ->
      List.length (fst (CarbonIngester.run penv evs st)) = List.length evs /\
      Forall (CarbonRuns.allowed (CarbonIngester.CONFIG penv))
             (fst (CarbonIngester.run penv evs st)) /\
      0 <= CarbonIngester.intensityFailures (snd (CarbonIngester.run penv evs st)) /\
      0 <= CarbonIngester.generationFailures
             (snd (CarbonIngester.run penv evs st))) /\
  (forall penv evs st,
      0 <= WeatherIngester.failures st ->
      List.length (fst (WeatherIngester.run penv evs st)) = List.length evs /\
      Forall (WeatherRuns.allowed (WeatherIngester.CONFIG penv))
             (fst (WeatherIngester.run penv evs st)) /\
      0 <= WeatherIngester.failures (snd (WeatherIngester.run penv evs st))).
Proof.
  split.
  - intros penv evs. induction evs as [|ev evs IH]; intros st Hi Hg.
    + cbn. repeat split; try assumption. constructor.
    + destruct (carbon_step_allowed penv ev st Hi Hg)
        as (o & st' & Hstep & Hallowed & Hi' & Hg').
      cbn [CarbonIngester.run]. rewrite Hstep.
      destruct (IH st' Hi' Hg') as (Hlen & Hall & Hi'' & Hg'').
      destruct (CarbonIngester.run penv evs st') as [os st''].
      cbn [fst snd List.length] in *.
      split; [rewrite Hlen; reflexivity|].
      split; [constructor; assumption|]. split; assumption.
  - intros penv evs. induction evs as [|ev evs IH]; intros st Hf.
    + cbn. repeat split; try assumption. constructor.
    + destruct (weather_step_allowed penv ev st Hf)
        as (o & st' & Hstep & Hallowed & Hf').
      cbn [WeatherIngester.run]. rewrite Hstep.
      destruct (IH st' Hf') as (Hlen & Hall & Hf'').
      destruct (WeatherIngester.run penv evs st') as [os st''].
      cbn [fst snd List.length] in *.
      split; [rewrite Hlen; reflexivity|].
      split; [constructor; assumption|assumption].
Qed.

Lemma polls_never_throw_and_waits_are_bounded_witness :
  0 <= CarbonIngester.intensityFailures CarbonIngester.initial /\
  0 <= CarbonIngester.generationFailures CarbonIngester.initial /\
  Forall (CarbonRuns.allowed (CarbonIngester.CONFIG Examples.carbonEnv))
         (fst (CarbonIngester.run Examples.carbonEnv
                 [CarbonIngester.IntensityPoll (Examples.intensityOk "u1");
                  CarbonIngester.IntensityPoll Examples.intensityDown]
                 CarbonIngester.initial)).
Proof.
  split; [cbn; lia|]. split; [cbn; lia|].
  apply (proj1 polls_never_throw_and_waits_are_bounded Examples.carbonEnv
           [CarbonIngester.IntensityPoll (Examples.intensityOk "u1");
            CarbonIngester.IntensityPoll Examples.intensityDown]
           CarbonIngester.initial); cbn; lia.
Defined.

(* ====================================================================== *)
(** * Properties of the topology set-up *)
(* ====================================================================== *)

Section TopologyFacts.
Import Topology TopologySetup.

Lemma calls_snoc_call (t : list Effect) (c : Call) :
  calls (t ++ [Called c]) = calls t ++ [c].
Proof. unfold calls. rewrite flat_map_app. reflexivity. Qed.

Lemma calls_snoc_log (t : list Effect) (line : string) :
  calls (t ++ [Logged line]) = calls t.
Proof. unfold calls. rewrite flat_map_app. cbn. apply app_nil_r. Qed.

End TopologyFacts.

(** X14. [setupTopology] stops at the first call the broker rejects and
    rethrows that rejection; up to there every call was accepted.  Wherever
    it stops, it has never bound a queue, or named an exchange, that it had
    not asserted before.  When it completes it has made ten calls, every
    queue it asserted is bound, and the dead letter exchange of the work
    queues has a queue bound to it, so that a rejected delivery has a place
    to go. *)
Theorem topology_is_declared_before_it_is_used :
  forall broker t0, exists cs,
    TopologySetup.calls (snd (TopologySetup.setupTopology broker t0))
    = TopologySetup.calls t0 ++ cs /\
    TopologySetup.declaredBeforeUse [] [] cs = true /\
    match fst (TopologySetup.setupTopology broker t0) with
    | Js.Normal _ =>
        List.length cs = 10%nat /\
        Forall (fun c => broker c = Js.Normal tt) cs /\
        TopologySetup.fullyBound cs = true
    | Js.Throw e =>
        exists accepted c,
          cs = accepted ++ [c] /\
          broker c = Js.Throw e /\
          Forall (fun c => broker c = Js.Normal tt) accepted
    end.
Proof.
  intros broker t0.
  unfold TopologySetup.setupTopology, TopologySetup.assertWorkQueue,
    TopologySetup.console_log, TopologySetup.await, Js.bind, Js.modify.
  repeat
    match goal with
    | |- context [broker ?c] =>
        let H := fresh "H" in
        destruct (broker c) as [[]|?e] eqn:H
    end;
    cbn [fst snd];
    repeat (rewrite calls_snoc_log || rewrite calls_snoc_call);
    rewrite <- ?app_assoc; cbn [app];
    (eexists; split; [reflexivity|]; split; [reflexivity|]);
    try (split; [reflexivity|]; split; [|reflexivity];
         repeat constructor; assumption);
    match goal with
    | He : broker ?c = Js.Throw ?e |- exists accepted c', ?l = _ /\ _ =>
        let n := eval cbv in (Nat.pred (List.length l)) in
        exists (firstn n l), c;
        split; [reflexivity|]; split; [exact He|];
        cbn [firstn]; repeat constructor; assumption
    end.
Qed.

(* ====================================================================== *)
(** * The shared connection manager *)
(* ====================================================================== *)

(** X15. A process has one connection manager, and the first call of
    [getConnectionManager] decides which broker it talks to: the URL is the
    argument of that call, else [RABBITMQ_URL], else the local default.
    Whatever URLs later calls pass and whatever is done with the manager in
    between, it is still that manager, consistent and with the URL and the
    default retry settings it was constructed with; a later URL is silently
    ignored. *)
Theorem first_call_fixes_the_shared_manager :
  forall url RABBITMQ_URL uses, exists manager,
    Singleton.useAll (Singleton.Get url RABBITMQ_URL :: uses) None
    = Some (Some manager) /\
    ManagerInvariant.consistent (Singleton.optionsOf url RABBITMQ_URL) manager /\
    Connection.url (Connection.mgr manager)
    = Singleton.orElse url (Singleton.orElse RABBITMQ_URL "amqp://localhost") /\
    Connection.maxRetries (Connection.mgr manager) = 10 /\
    Connection.initialRetryDelay (Connection.mgr manager) = 1000 /\
    Connection.maxRetryDelay (Connection.mgr manager) = 30000.
Proof.
  intros url RABBITMQ_URL uses.
  assert (Hgen : forall w0,
            ManagerInvariant.consistent (Singleton.optionsOf url RABBITMQ_URL) w0 ->
            exists w, Singleton.useAll uses (Some w0) = Some (Some w) /\
                      ManagerInvariant.consistent
                        (Singleton.optionsOf url RABBITMQ_URL) w).
  { induction uses as [|u uses IH]; intros w0 Hinv.
    - exists w0. split; [reflexivity|exact Hinv].
    - destruct u as [url' env'|op]; cbn [Singleton.useAll Singleton.use
                                          Singleton.getConnectionManager].
      + apply IH. exact Hinv.
      + destruct (apply_keeps_consistent _ op w0 Hinv) as (w1 & Hstep & Hinv1).
        rewrite Hstep. cbn [option_map]. apply IH. exact Hinv1. }
  destruct (Hgen (Connection.fresh (Singleton.optionsOf url RABBITMQ_URL)))
    as (w & Hrun & Hinv).
  { unfold ManagerInvariant.consistent. cbn.
    repeat split; try reflexivity; try lia;
      intro Hn; exfalso; apply Hn; reflexivity. }
  exists w. split; [exact Hrun|]. split; [exact Hinv|].
  destruct Hinv as (_ & _ & _ & Hu & HM & HI & HD).
  repeat split; assumption.
Qed.

(* ====================================================================== *)
(** * [close()] while a connection attempt is awaited *)
(* ====================================================================== *)

Section WedgeFacts.
Import Connection ManagerInvariant.

(** A wedged manager answers [connect] with a promise and does nothing. *)
Lemma wedged_connect env w :
  wedged w ->
  connect env w
  = Some (Js.Normal (Pending (waiters w)),
          onError (waiters w)
            (onConnection (waiters w)
               (mkWorld (mgr w) (trace w) (S (waiters w))))).
Proof.
  intros [Hi Hc]. unfold connect. rewrite Hc, Hi. reflexivity.
Qed.

Lemma apply_keeps_wedged op w :
  wedged w ->
  exists w',
    apply op w = Some w' /\ wedged w' /\
    attempts (trace w') = attempts (trace w) /\
    settlements (trace w') = settlements (trace w).
Proof.
  intros Hw.
  assert (Hcleared : wedged (update (set_channel None)
                               (update (set_connection None) w))).
  { destruct Hw as [Hi Hc]. split; [exact Hi|reflexivity]. }
  assert (Hpending : forall env w0, wedged w0 ->
            exists w', option_map snd (connect env w0) = Some w' /\ wedged w' /\
                       trace w' = trace w0).
  { intros env w0 Hw0. rewrite (wedged_connect env w0 Hw0).
    eexists. split; [reflexivity|]. split; [|reflexivity].
    destruct Hw0 as [Hi Hc]. split; assumption. }
  destruct op as [env|env created|cenv|env|env| |]; cbn [apply].
  - destruct (Hpending env w Hw) as (w' & Hrun & Hw' & Htr).
    exists w'. rewrite Htr. repeat split; try assumption; apply Hw'.
  - unfold getChannel.
    destruct (channel (mgr w)) as [ch|];
      [exists w; repeat split; try reflexivity; apply Hw|].
    rewrite (wedged_connect env w Hw). eexists. split; [reflexivity|].
    destruct Hw as [Hi Hc]. repeat split; assumption.
  - destruct (close_spec cenv w)
      as (w' & Hrun & _ & _ & Hc' & Htr & _ & _ & _ & _ & _ & Hi' & _).
    rewrite Hrun. exists w'. cbn [snd]. split; [reflexivity|].
    destruct Hw as [Hi Hc]. split; [split; [rewrite Hi'; exact Hi|exact Hc']|].
    rewrite Htr, attempts_app, settlements_app, attempts_closeEffects,
      settlements_closeEffects, app_nil_r. split; [lia|reflexivity].
  - unfold onConnectionError, handleDisconnect.
    destruct (negb (isClosed (mgr (update (set_channel None)
                                     (update (set_connection None) w))))).
    + rewrite (wedged_connect env _ Hcleared). eexists. split; [reflexivity|].
      destruct Hw as [Hi Hc]. repeat split; assumption.
    + eexists. split; [reflexivity|].
      split; [exact Hcleared|split; reflexivity].
  - unfold onConnectionClose.
    destruct (negb (isClosed (mgr w)));
      [|exists w; repeat split; try reflexivity; apply Hw].
    unfold handleDisconnect.
    destruct (negb (isClosed (mgr (update (set_channel None)
                                     (update (set_connection None) w))))).
    + rewrite (wedged_connect env _ Hcleared). eexists. split; [reflexivity|].
      destruct Hw as [Hi Hc]. repeat split; assumption.
    + eexists. split; [reflexivity|].
      split; [exact Hcleared|split; reflexivity].
  - eexists. split; [reflexivity|]. destruct Hw as [Hi Hc].
    repeat split; assumption.
  - eexists. split; [reflexivity|]. destruct Hw as [Hi Hc].
    repeat split; assumption.
Qed.

End WedgeFacts.

(** X16. A [connect()] that ends with [Connection aborted] leaves the
    [isConnecting] flag set, and the manager never recovers from that.  It
    happens in two ways: the owner calls [close()] while an attempt is
    awaited and the attempt then fails (the loop gives up after that one
    attempt), or [connect()] is called when the retry count is already over
    the ceiling (the loop gives up without any attempt).  Whatever calls and
    events follow the aborted [connect()], none of them makes a connection
    attempt or settles a caller, and every further [connect()] is answered
    with a promise that stays pending. *)
Theorem aborted_connect_wedges_the_manager :
  (forall env w cenv e ops,
      Connection.connection (Connection.mgr w) = None ->
      Connection.isConnecting (Connection.mgr w) = false ->
      Connection.retryCount (Connection.mgr w)
      < Connection.maxRetries (Connection.mgr w) ->
      env O = Connection.mkAttempt (Js.Throw e) (Some cenv) ->
      exists w',
        Connection.connect env w
        = Some (Js.Throw (Js.newError "Connection aborted"), w') /\
        Connection.isConnecting (Connection.mgr w') = true /\
        Connection.connection (Connection.mgr w') = None /\
        Connection.isClosed (Connection.mgr w') = true /\
        Connection.attempts (Connection.trace w')
        = S (Connection.attempts (Connection.trace w)) /\
        ManagerInvariant.staysWedged w' ops) /\
  (forall env w ops,
      Connection.connection (Connection.mgr w) = None ->
      Connection.isConnecting (Connection.mgr w) = false ->
      Connection.retryCount (Connection.mgr w)
      > Connection.maxRetries (Connection.mgr w) ->
      exists w',
        Connection.connect env w
        = Some (Js.Throw (Js.newError "Connection aborted"), w') /\
        Connection.isConnecting (Connection.mgr w') = true /\
        Connection.connection (Connection.mgr w') = None /\
        Connection.trace w' = Connection.trace w /\
        ManagerInvariant.staysWedged w' ops).
Proof.
  assert (Hforever : forall ops w,
            ManagerInvariant.wedged w -> ManagerInvariant.staysWedged w ops).
  { intros ops. induction ops as [|op ops IH]; intros w Hw.
    - exists w. split; [reflexivity|]. split; [exact Hw|].
      split; [reflexivity|]. split; [reflexivity|].
      intro env. rewrite (wedged_connect env w Hw). eexists.
      split; reflexivity.
    - destruct (apply_keeps_wedged op w Hw) as (w1 & Hstep & Hw1 & Ha1 & Hs1).
      destruct (IH w1 Hw1) as (w' & Hrun & Hw' & Ha & Hs & Hconn).
      exists w'. cbn [Connection.applyAll]. rewrite Hstep.
      split; [exact Hrun|]. split; [exact Hw'|].
      split; [rewrite Ha; exact Ha1|].
      split; [rewrite Hs; exact Hs1|exact Hconn]. }
  split.
  - intros env w cenv e ops Hc Hi Hleft Henv.
    unfold Connection.connect. rewrite Hc, Hi.
    cbv zeta. unfold Connection.loop_bound.
    cbn [Connection.update Connection.mgr Connection.maxRetries
         Connection.retryCount Connection.set_isClosed
         Connection.set_isConnecting].
    destruct (Z.to_nat (Connection.maxRetries (Connection.mgr w) + 1
                        - Connection.retryCount (Connection.mgr w)))
      as [|fuel] eqn:Hfuel; [lia|].
    cbn [Connection.connect_loop].
    cbn [Connection.update Connection.mgr Connection.maxRetries
         Connection.retryCount Connection.isClosed Connection.set_isClosed
         Connection.set_isConnecting Connection.url].
    replace (Connection.retryCount (Connection.mgr w)
             <=? Connection.maxRetries (Connection.mgr w)) with true
      by (symmetry; apply Z.leb_le; lia).
    cbn [andb negb]. cbv zeta. rewrite Henv.
    unfold Connection.interrupt.
    cbn [Connection.closeCalled Connection.settles].
    match goal with
    | |- context [Connection.close cenv ?w0] =>
        destruct (close_spec cenv w0)
          as (w1 & Hrun & Hcl1 & _ & Hc1 & Htr1 & _ & _ & HM1 & _ & _ & Hi1
              & Hr1 & _)
    end.
    rewrite Hrun. cbn [snd].
    cbn [Connection.emit Connection.update Connection.mgr Connection.trace
         Connection.maxRetries Connection.retryCount Connection.isConnecting
         Connection.set_isClosed Connection.set_isConnecting
         Connection.set_retryCount] in *.
    rewrite Hr1, HM1.
    replace (Connection.retryCount (Connection.mgr w) + 1
             >? Connection.maxRetries (Connection.mgr w)) with false
      by (symmetry; rewrite Z.gtb_ltb; apply Z.ltb_ge; lia).
    destruct fuel as [|fuel]; [lia|].
    cbn [Connection.connect_loop Connection.emit Connection.update
         Connection.mgr Connection.isClosed Connection.set_retryCount].
    rewrite Hcl1, andb_false_r.
    eexists. split; [reflexivity|].
    cbn [Connection.emit Connection.update Connection.mgr Connection.trace
         Connection.isConnecting Connection.connection Connection.isClosed
         Connection.set_retryCount].
    split; [exact Hi1|]. split; [exact Hc1|]. split; [exact Hcl1|].
    split; [rewrite Htr1, !attempts_app, attempts_closeEffects; cbn; lia|].
    apply Hforever. split; [exact Hi1|exact Hc1].
  - intros env w ops Hc Hi Hover.
    unfold Connection.connect. rewrite Hc, Hi.
    cbv zeta. unfold Connection.loop_bound.
    cbn [Connection.connect_loop].
    cbn [Connection.update Connection.mgr Connection.maxRetries
         Connection.retryCount Connection.isClosed Connection.set_isClosed
         Connection.set_isConnecting].
    replace (Connection.retryCount (Connection.mgr w)
             <=? Connection.maxRetries (Connection.mgr w)) with false
      by (symmetry; apply Z.leb_gt; lia).
    cbn [andb].
    eexists. split; [reflexivity|].
    cbn [Connection.update Connection.mgr Connection.trace
         Connection.isConnecting Connection.connection
         Connection.set_isClosed Connection.set_isConnecting].
    split; [reflexivity|]. split; [exact Hc|]. split; [reflexivity|].
    apply Hforever. split; [reflexivity|exact Hc].
Qed.

Lemma aborted_connect_wedges_the_manager_witness :
  exists w' w'',
    Connection.connect MoreExamples.closedWhileConnecting
                       (Connection.fresh Examples.localOptions)
    = Some (Js.Throw (Js.newError "Connection aborted"), w') /\
    Connection.attempts (Connection.trace w') = 1%nat /\
    Connection.applyAll
      [Connection.CallConnect (Examples.brokerUp 7%nat);
       Connection.CallGetChannel (Examples.brokerUp 7%nat) (Js.Normal 1%nat);
       Connection.CallClose Examples.quietClose;
       Connection.CallConnect (Examples.brokerUp 7%nat)] w'
    = Some w'' /\
    Connection.connection (Connection.mgr w'') = None /\
    Connection.attempts (Connection.trace w'') = 1%nat.
Proof.
  destruct (proj1 aborted_connect_wedges_the_manager
              MoreExamples.closedWhileConnecting
              (Connection.fresh Examples.localOptions)
              Examples.quietClose (Js.newError "connect ECONNREFUSED")
              [Connection.CallConnect (Examples.brokerUp 7%nat);
               Connection.CallGetChannel (Examples.brokerUp 7%nat)
                                         (Js.Normal 1%nat);
               Connection.CallClose Examples.quietClose;
               Connection.CallConnect (Examples.brokerUp 7%nat)]
              eq_refl eq_refl eq_refl eq_refl)
    as (w' & Hrun & _ & _ & _ & Ha & w'' & Hops & [_ Hc] & Ha' & _).
  exists w', w''.
  split; [exact Hrun|]. split; [exact Ha|]. split; [exact Hops|].
  split; [exact Hc|]. rewrite Ha'. exact Ha.
Defined.

(** X17. When the owner calls [close()] while an attempt is awaited and the
    attempt then succeeds, the new connection is kept: [connect] returns it,
    the manager holds it although it is closed, and nothing closes it.  The
    manager reports itself as not connected.  (The manager holds no channel
    at that point, so [close()] runs without waiting for anything.) *)
Theorem close_during_a_succeeding_attempt_keeps_the_connection :
  forall env w cenv c,
    Connection.connection (Connection.mgr w) = None ->
    Connection.channel (Connection.mgr w) = None ->
    Connection.isConnecting (Connection.mgr w) = false ->
    Connection.retryCount (Connection.mgr w)
    <= Connection.maxRetries (Connection.mgr w) ->
    env O = Connection.mkAttempt (Js.Normal c) (Some cenv) ->
    exists w',
      Connection.connect env w = Some (Js.Normal (Connection.Settled c), w') /\
      Connection.connection (Connection.mgr w') = Some c /\
      Connection.isClosed (Connection.mgr w') = true /\
      Connection.isConnected (Connection.mgr w') = false /\
      Connection.trace w'
      = Connection.trace w
          ++ [Connection.AmqpConnect (Connection.url (Connection.mgr w));
              Connection.ListenConnection c]
          ++ map (fun l => Connection.Resolve l c)
                 (Connection.connectionListeners (Connection.mgr w)).
Proof.
  intros env w cenv c Hc Hch Hi Hleft Henv.
  unfold Connection.connect. rewrite Hc, Hi.
  cbv zeta. unfold Connection.loop_bound.
  cbn [Connection.connect_loop].
  cbn [Connection.update Connection.mgr Connection.maxRetries
       Connection.retryCount Connection.isClosed Connection.set_isClosed
       Connection.set_isConnecting Connection.url].
  replace (Connection.retryCount (Connection.mgr w)
           <=? Connection.maxRetries (Connection.mgr w)) with true
    by (symmetry; apply Z.leb_le; lia).
  cbn [andb negb]. cbv zeta. rewrite Henv.
  unfold Connection.interrupt.
  cbn [Connection.closeCalled Connection.settles].
  match goal with
  | |- context [Connection.close cenv ?w0] =>
      destruct (close_spec cenv w0)
        as (w1 & Hrun & Hcl1 & _ & _ & Htr1 & _ & _ & _ & _ & _ & _ & _
            & Hls1 & _)
  end.
  rewrite Hrun. cbn [snd].
  eexists. split; [reflexivity|].
  cbn [Connection.emit Connection.update Connection.mgr Connection.trace
       Connection.connection Connection.isClosed Connection.isConnected
       Connection.connectionListeners
       Connection.set_connectionListeners Connection.set_isConnecting
       Connection.set_retryCount Connection.set_connection
       Connection.set_isClosed] in *.
  rewrite Hcl1, Hls1, Htr1. unfold Connection.closeEffects.
  cbn [Connection.connection Connection.channel Connection.mgr
       Connection.set_isClosed Connection.set_isConnecting].
  rewrite Hc, Hch, app_nil_r, <- !app_assoc.
  repeat split.
Qed.

Lemma close_during_a_succeeding_attempt_keeps_the_connection_witness :
  exists w',
    Connection.connect MoreExamples.acceptedWhileClosing
                       (Connection.fresh Examples.localOptions)
    = Some (Js.Normal (Connection.Settled 7%nat), w') /\
    Connection.connection (Connection.mgr w') = Some 7%nat /\
    Connection.isClosed (Connection.mgr w') = true.
Proof.
  destruct (close_during_a_succeeding_attempt_keeps_the_connection
              MoreExamples.acceptedWhileClosing
              (Connection.fresh Examples.localOptions)
              Examples.quietClose 7%nat
              eq_refl eq_refl eq_refl (Zle_bool_imp_le 0 10 eq_refl) eq_refl)
    as (w' & Hrun & Hc & Hcl & _).
  exists w'. repeat split; assumption.
Defined.
